(** * ThumbnailModel: the thumbnail cache and its eviction engine

    A shallow embedding of [src/app/model/ThumbnailModel.cpp] and the
    properties of its cache store, memory accounting, eviction policies and
    viewport priorities.

    Conventions of the embedding.
    - The model object is a record [Model]; every member function is a
      function from [Model] to [Model] (with a result where the C++ function
      returns one).
    - [QHash<int, T>] is a [gmap Z T]; a scan over the hash visits
      [map_to_list], one fixed order standing for Qt's unspecified one.  No
      statement below depends on that order.
    - [int] and [qint64] are [Z]; arithmetic on them is wrapped to 32 and 64
      bits two's complement ([wrap32], [wrap64]).
    - [double] is Rocq's primitive binary64 [float].
    - [QDateTime::currentMSecsSinceEpoch()] is the argument [now] of the
      operation that reads the clock.
    - Signals ([emit ...]) carry no state and are left out; the calls made to
      the generator are recorded in [generatorRequests].
    - [m_thumbnailsMutex] is taken and released inside one operation; the
      embedding is the sequential behaviour of each operation.  Where an
      operation that holds the lock calls one that takes it again ([data]
      calls [requestThumbnail], [onThumbnailGenerated] and [cleanupCache]
      reach [evictLeastFrequentlyUsed]) the inner acquisition is taken to
      succeed: the declaration of the mutex is in the header, which is not
      among the sources. *)

From Stdlib Require Import ZArith Lia Bool String Floats.
From stdpp Require Import gmap list fin_maps.

Local Open Scope Z_scope.

(** ** Machine integers *)

Definition INT_MAX : Z := 2147483647.
Definition LLONG_MAX : Z := 9223372036854775807.

Definition wrap (bits : Z) (z : Z) : Z :=
  (z + 2 ^ (bits - 1)) mod 2 ^ bits - 2 ^ (bits - 1).

Definition wrap32 (z : Z) : Z := wrap 32 z.
Definition wrap64 (z : Z) : Z := wrap 64 z.

(** [static_cast<double>] of an integer of at most 64 bits (round to nearest). *)
Definition toDouble (z : Z) : float :=
  if z =? - 2 ^ 63 then (-0x1p63)%float
  else if z <? 0 then PrimFloat.opp (PrimFloat.of_uint63 (Uint63.of_Z (- z)))
  else PrimFloat.of_uint63 (Uint63.of_Z z).

(** ** Qt value types *)

Record QSize := mkQSize { width : Z; height : Z }.

Definition QSize_eqb (a b : QSize) : bool :=
  (width a =? width b) && (height a =? height b).

(** [QSize::isEmpty]: either dimension is at most zero. *)
Definition QSize_isEmpty (s : QSize) : bool :=
  (width s <=? 0) || (height s <=? 0).

(** A pixmap is the null pixmap [QPixmap()] or an image of some width and
    height; the pixels play no part in the cache.  Qt has no image without
    area: a pixmap of width or height zero is null as well. *)
Inductive QPixmap :=
| NullPixmap
| Pixmap (w h : Z).

Definition isNull (p : QPixmap) : bool :=
  match p with NullPixmap => true | Pixmap w h => (w <=? 0) || (h <=? 0) end.

Inductive QModelIndex :=
| InvalidIndex
| Index (r : Z).

Definition isValid (i : QModelIndex) : bool :=
  match i with InvalidIndex => false | Index r => 0 <=? r end.

Definition row (i : QModelIndex) : Z :=
  match i with InvalidIndex => -1 | Index r => r end.

Inductive Role :=
| PageNumberRole | PixmapRole | LoadingRole | ErrorRole | ErrorMessageRole
| PageSizeRole | OtherRole (r : Z).

Inductive QVariant :=
| VInvalid
| VInt (z : Z)
| VBool (b : bool)
| VString (s : string)
| VPixmap (p : QPixmap)
| VSize (s : QSize).

(** The document, as far as the model uses it: [numPages()] and, for the
    pages Poppler can open, [page(n)->pageSizeF().toSize()]. *)
Record Document := mkDocument {
  numPages : Z;
  pageSizeOf : Z -> option QSize
}.

(** ** Cache entries *)

Record ThumbnailItem := mkItem {
  pixmap : QPixmap;
  isLoading : bool;
  hasError : bool;
  errorMessage : string;
  lastAccessed : Z;
  memorySize : Z;
  pageSize : QSize
}.

(** Modelled from the spec: the declaration of [ThumbnailItem]
    (ThumbnailModel.h) is not among the sources.  A value-initialised entry,
    as [m_thumbnails[page]] creates it, has no image, is neither loading nor
    in error, costs 0 bytes, and has the invalid [QSize()] as page size. *)
Definition defaultItem : ThumbnailItem :=
  {| pixmap := NullPixmap; isLoading := false; hasError := false;
     errorMessage := EmptyString; lastAccessed := 0; memorySize := 0;
     pageSize := mkQSize (-1) (-1) |}.

Definition withPixmap (p : QPixmap) (it : ThumbnailItem) : ThumbnailItem :=
  mkItem p (isLoading it) (hasError it) (errorMessage it) (lastAccessed it)
         (memorySize it) (pageSize it).
Definition withLoading (b : bool) (it : ThumbnailItem) : ThumbnailItem :=
  mkItem (pixmap it) b (hasError it) (errorMessage it) (lastAccessed it)
         (memorySize it) (pageSize it).
Definition withError (b : bool) (msg : string) (it : ThumbnailItem) : ThumbnailItem :=
  mkItem (pixmap it) (isLoading it) b msg (lastAccessed it)
         (memorySize it) (pageSize it).
Definition withLastAccessed (t : Z) (it : ThumbnailItem) : ThumbnailItem :=
  mkItem (pixmap it) (isLoading it) (hasError it) (errorMessage it) t
         (memorySize it) (pageSize it).
Definition withMemorySize (n : Z) (it : ThumbnailItem) : ThumbnailItem :=
  mkItem (pixmap it) (isLoading it) (hasError it) (errorMessage it)
         (lastAccessed it) n (pageSize it).
Definition withPageSize (s : QSize) (it : ThumbnailItem) : ThumbnailItem :=
  mkItem (pixmap it) (isLoading it) (hasError it) (errorMessage it)
         (lastAccessed it) (memorySize it) s.

(** ** The model object *)

(** One call [m_generator->generateThumbnail(page, size, quality, priority)]. *)
Record Request := mkRequest {
  reqPage : Z;
  reqSize : QSize;
  reqQuality : float;
  reqPriority : Z
}.

Record Model := mkModel {
  m_document : option Document;
  m_thumbnails : gmap Z ThumbnailItem;
  m_currentMemory : Z;
  m_accessFrequency : gmap Z Z;
  m_cacheHits : Z;
  m_cacheMisses : Z;
  m_maxCacheSize : Z;
  m_maxMemory : Z;
  m_adaptiveCaching : bool;
  m_lastCleanupTime : Z;
  m_thumbnailSize : QSize;
  m_thumbnailQuality : float;
  m_preloadRange : Z;
  m_preloadQueue : gset Z;
  m_preloadTimerActive : bool;
  m_priorityTimerActive : bool;
  m_visibleStart : Z;
  m_visibleEnd : Z;
  m_viewportMargin : Z;
  m_lazyLoadingEnabled : bool;
  m_pagePriorities : gmap Z Z;
  generatorRequests : list Request
}.

(** Field updates. *)
Definition setDoc (d : option Document) (s : Model) : Model :=
  mkModel d (m_thumbnails s) (m_currentMemory s) (m_accessFrequency s)
    (m_cacheHits s) (m_cacheMisses s) (m_maxCacheSize s) (m_maxMemory s)
    (m_adaptiveCaching s) (m_lastCleanupTime s) (m_thumbnailSize s)
    (m_thumbnailQuality s) (m_preloadRange s) (m_preloadQueue s)
    (m_preloadTimerActive s) (m_priorityTimerActive s) (m_visibleStart s)
    (m_visibleEnd s) (m_viewportMargin s) (m_lazyLoadingEnabled s)
    (m_pagePriorities s) (generatorRequests s).
Definition setThumbnails (t : gmap Z ThumbnailItem) (s : Model) : Model :=
  mkModel (m_document s) t (m_currentMemory s) (m_accessFrequency s)
    (m_cacheHits s) (m_cacheMisses s) (m_maxCacheSize s) (m_maxMemory s)
    (m_adaptiveCaching s) (m_lastCleanupTime s) (m_thumbnailSize s)
    (m_thumbnailQuality s) (m_preloadRange s) (m_preloadQueue s)
    (m_preloadTimerActive s) (m_priorityTimerActive s) (m_visibleStart s)
    (m_visibleEnd s) (m_viewportMargin s) (m_lazyLoadingEnabled s)
    (m_pagePriorities s) (generatorRequests s).
Definition setCurrentMemory (n : Z) (s : Model) : Model :=
  mkModel (m_document s) (m_thumbnails s) n (m_accessFrequency s)
    (m_cacheHits s) (m_cacheMisses s) (m_maxCacheSize s) (m_maxMemory s)
    (m_adaptiveCaching s) (m_lastCleanupTime s) (m_thumbnailSize s)
    (m_thumbnailQuality s) (m_preloadRange s) (m_preloadQueue s)
    (m_preloadTimerActive s) (m_priorityTimerActive s) (m_visibleStart s)
    (m_visibleEnd s) (m_viewportMargin s) (m_lazyLoadingEnabled s)
    (m_pagePriorities s) (generatorRequests s).
Definition setAccessFrequency (f : gmap Z Z) (s : Model) : Model :=
  mkModel (m_document s) (m_thumbnails s) (m_currentMemory s) f
    (m_cacheHits s) (m_cacheMisses s) (m_maxCacheSize s) (m_maxMemory s)
    (m_adaptiveCaching s) (m_lastCleanupTime s) (m_thumbnailSize s)
    (m_thumbnailQuality s) (m_preloadRange s) (m_preloadQueue s)
    (m_preloadTimerActive s) (m_priorityTimerActive s) (m_visibleStart s)
    (m_visibleEnd s) (m_viewportMargin s) (m_lazyLoadingEnabled s)
    (m_pagePriorities s) (generatorRequests s).
Definition setHitsMisses (h m : Z) (s : Model) : Model :=
  mkModel (m_document s) (m_thumbnails s) (m_currentMemory s)
    (m_accessFrequency s) h m (m_maxCacheSize s) (m_maxMemory s)
    (m_adaptiveCaching s) (m_lastCleanupTime s) (m_thumbnailSize s)
    (m_thumbnailQuality s) (m_preloadRange s) (m_preloadQueue s)
    (m_preloadTimerActive s) (m_priorityTimerActive s) (m_visibleStart s)
    (m_visibleEnd s) (m_viewportMargin s) (m_lazyLoadingEnabled s)
    (m_pagePriorities s) (generatorRequests s).
Definition setLimits (items bytes : Z) (s : Model) : Model :=
  mkModel (m_document s) (m_thumbnails s) (m_currentMemory s)
    (m_accessFrequency s) (m_cacheHits s) (m_cacheMisses s) items bytes
    (m_adaptiveCaching s) (m_lastCleanupTime s) (m_thumbnailSize s)
    (m_thumbnailQuality s) (m_preloadRange s) (m_preloadQueue s)
    (m_preloadTimerActive s) (m_priorityTimerActive s) (m_visibleStart s)
    (m_visibleEnd s) (m_viewportMargin s) (m_lazyLoadingEnabled s)
    (m_pagePriorities s) (generatorRequests s).
Definition setLastCleanupTime (t : Z) (s : Model) : Model :=
  mkModel (m_document s) (m_thumbnails s) (m_currentMemory s)
    (m_accessFrequency s) (m_cacheHits s) (m_cacheMisses s)
    (m_maxCacheSize s) (m_maxMemory s) (m_adaptiveCaching s) t
    (m_thumbnailSize s) (m_thumbnailQuality s) (m_preloadRange s)
    (m_preloadQueue s) (m_preloadTimerActive s) (m_priorityTimerActive s)
    (m_visibleStart s) (m_visibleEnd s) (m_viewportMargin s)
    (m_lazyLoadingEnabled s) (m_pagePriorities s) (generatorRequests s).
Definition setRender (sz : QSize) (q : float) (s : Model) : Model :=
  mkModel (m_document s) (m_thumbnails s) (m_currentMemory s)
    (m_accessFrequency s) (m_cacheHits s) (m_cacheMisses s)
    (m_maxCacheSize s) (m_maxMemory s) (m_adaptiveCaching s)
    (m_lastCleanupTime s) sz q (m_preloadRange s) (m_preloadQueue s)
    (m_preloadTimerActive s) (m_priorityTimerActive s) (m_visibleStart s)
    (m_visibleEnd s) (m_viewportMargin s) (m_lazyLoadingEnabled s)
    (m_pagePriorities s) (generatorRequests s).
Definition setPreload (range : Z) (queue : gset Z) (active : bool) (s : Model) : Model :=
  mkModel (m_document s) (m_thumbnails s) (m_currentMemory s)
    (m_accessFrequency s) (m_cacheHits s) (m_cacheMisses s)
    (m_maxCacheSize s) (m_maxMemory s) (m_adaptiveCaching s)
    (m_lastCleanupTime s) (m_thumbnailSize s) (m_thumbnailQuality s) range
    queue active (m_priorityTimerActive s) (m_visibleStart s)
    (m_visibleEnd s) (m_viewportMargin s) (m_lazyLoadingEnabled s)
    (m_pagePriorities s) (generatorRequests s).
Definition setViewport (a b margin : Z) (s : Model) : Model :=
  mkModel (m_document s) (m_thumbnails s) (m_currentMemory s)
    (m_accessFrequency s) (m_cacheHits s) (m_cacheMisses s)
    (m_maxCacheSize s) (m_maxMemory s) (m_adaptiveCaching s)
    (m_lastCleanupTime s) (m_thumbnailSize s) (m_thumbnailQuality s)
    (m_preloadRange s) (m_preloadQueue s) (m_preloadTimerActive s)
    (m_priorityTimerActive s) a b margin (m_lazyLoadingEnabled s)
    (m_pagePriorities s) (generatorRequests s).
Definition setLazy (lazy timer : bool) (s : Model) : Model :=
  mkModel (m_document s) (m_thumbnails s) (m_currentMemory s)
    (m_accessFrequency s) (m_cacheHits s) (m_cacheMisses s)
    (m_maxCacheSize s) (m_maxMemory s) (m_adaptiveCaching s)
    (m_lastCleanupTime s) (m_thumbnailSize s) (m_thumbnailQuality s)
    (m_preloadRange s) (m_preloadQueue s) (m_preloadTimerActive s) timer
    (m_visibleStart s) (m_visibleEnd s) (m_viewportMargin s) lazy
    (m_pagePriorities s) (generatorRequests s).
Definition setPagePriorities (p : gmap Z Z) (s : Model) : Model :=
  mkModel (m_document s) (m_thumbnails s) (m_currentMemory s)
    (m_accessFrequency s) (m_cacheHits s) (m_cacheMisses s)
    (m_maxCacheSize s) (m_maxMemory s) (m_adaptiveCaching s)
    (m_lastCleanupTime s) (m_thumbnailSize s) (m_thumbnailQuality s)
    (m_preloadRange s) (m_preloadQueue s) (m_preloadTimerActive s)
    (m_priorityTimerActive s) (m_visibleStart s) (m_visibleEnd s)
    (m_viewportMargin s) (m_lazyLoadingEnabled s) p (generatorRequests s).
Definition setGeneratorRequests (r : list Request) (s : Model) : Model :=
  mkModel (m_document s) (m_thumbnails s) (m_currentMemory s)
    (m_accessFrequency s) (m_cacheHits s) (m_cacheMisses s)
    (m_maxCacheSize s) (m_maxMemory s) (m_adaptiveCaching s)
    (m_lastCleanupTime s) (m_thumbnailSize s) (m_thumbnailQuality s)
    (m_preloadRange s) (m_preloadQueue s) (m_preloadTimerActive s)
    (m_priorityTimerActive s) (m_visibleStart s) (m_visibleEnd s)
    (m_viewportMargin s) (m_lazyLoadingEnabled s) (m_pagePriorities s) r.

(** The constants of ThumbnailModel.h that the constructor reads; the header
    is not among the sources, so they are parameters of the initial state. *)
Record Defaults := mkDefaults {
  DEFAULT_THUMBNAIL_WIDTH : Z;
  DEFAULT_THUMBNAIL_HEIGHT : Z;
  DEFAULT_QUALITY : float;
  DEFAULT_CACHE_SIZE : Z;
  DEFAULT_MEMORY_LIMIT : Z;
  DEFAULT_PRELOAD_RANGE : Z
}.

(** [ThumbnailModel::ThumbnailModel]. *)
Definition newModel (d : Defaults) : Model :=
  {| m_document := None;
     m_thumbnails := ∅;
     m_currentMemory := 0;
     m_accessFrequency := ∅;
     m_cacheHits := 0;
     m_cacheMisses := 0;
     m_maxCacheSize := DEFAULT_CACHE_SIZE d;
     m_maxMemory := DEFAULT_MEMORY_LIMIT d;
     m_adaptiveCaching := true;
     m_lastCleanupTime := 0;
     m_thumbnailSize :=
       mkQSize (DEFAULT_THUMBNAIL_WIDTH d) (DEFAULT_THUMBNAIL_HEIGHT d);
     m_thumbnailQuality := DEFAULT_QUALITY d;
     m_preloadRange := DEFAULT_PRELOAD_RANGE d;
     m_preloadQueue := ∅;
     m_preloadTimerActive := false;
     m_priorityTimerActive := false;
     m_visibleStart := -1;
     m_visibleEnd := -1;
     m_viewportMargin := 2;
     m_lazyLoadingEnabled := true;
     m_pagePriorities := ∅;
     generatorRequests := [] |}.

(** ** Queries *)

Definition rowCount (s : Model) : Z :=
  match m_document s with Some d => numPages d | None => 0 end.

(** The guard [!m_document || pageNumber < 0 || pageNumber >= numPages()]. *)
Definition noSuchPage (pageNumber : Z) (s : Model) : bool :=
  match m_document s with
  | None => true
  | Some d => (pageNumber <? 0) || (pageNumber >=? numPages d)
  end.

Definition isEmpty {A} (t : gmap Z A) : bool := Nat.eqb (size t) 0.

Definition calculatePixmapMemory (p : QPixmap) : Z :=
  match p with
  | NullPixmap => 0
  | Pixmap w h => if isNull p then 0 else wrap64 (w * h * 4)
  end.

Definition hasCachedThumbnail (pageNumber : Z) (s : Model) : bool :=
  match m_thumbnails s !! pageNumber with
  | Some it => negb (isNull (pixmap it))
  | None => false
  end.

Definition isThumbnailLoading (pageNumber : Z) (s : Model) : bool :=
  match m_thumbnails s !! pageNumber with
  | Some it => isLoading it
  | None => false
  end.

Definition shouldPreload (pageNumber : Z) (s : Model) : bool :=
  if noSuchPage pageNumber s then false
  else match m_thumbnails s !! pageNumber with
       | Some it =>
           if negb (isNull (pixmap it)) then false
           else negb (isLoading it) && negb (hasError it)
       | None => true
       end.

(** ** Viewport priorities *)

Definition isInViewport (pageNumber : Z) (s : Model) : bool :=
  if (m_visibleStart s <? 0) || (m_visibleEnd s <? 0) then true
  else
    let expandedStart := Z.max 0 (wrap32 (m_visibleStart s - m_viewportMargin s)) in
    let expandedEnd := wrap32 (m_visibleEnd s + m_viewportMargin s) in
    (pageNumber >=? expandedStart) && (pageNumber <=? expandedEnd).

Definition shouldGenerateThumbnail (pageNumber : Z) (s : Model) : bool :=
  if negb (m_lazyLoadingEnabled s) then true else isInViewport pageNumber s.

Definition calculatePriority (pageNumber : Z) (s : Model) : Z :=
  match m_pagePriorities s !! pageNumber with
  | Some tier => tier
  | None => 5
  end.

(** The pages [first], [first+1], ..., [last] of a loop
    [for (int i = first; i <= last; ++i)] (none when [last < first]).  The
    counter runs over the integers: a bound of [INT_MAX], where [++i] would
    overflow, is outside the model. *)
Definition pagesFromTo (first last : Z) : list Z := seqZ first (last - first + 1).

Definition updateViewportPriorities (s : Model) : Model :=
  match m_document s with
  | None => s
  | Some d =>
      let visible :=
        foldl (fun (m : gmap Z Z) i =>
                 if (i >=? 0) && (i <? numPages d) then <[i := 0]> m else m)
              ∅ (pagesFromTo (m_visibleStart s) (m_visibleEnd s)) in
      let preloadStart := Z.max 0 (wrap32 (m_visibleStart s - m_viewportMargin s)) in
      let preloadEnd :=
        Z.min (wrap32 (numPages d - 1)) (wrap32 (m_visibleEnd s + m_viewportMargin s)) in
      let before :=
        foldl (fun (m : gmap Z Z) i => <[i := 1]> m) visible
              (pagesFromTo preloadStart (m_visibleStart s - 1)) in
      let after :=
        foldl (fun (m : gmap Z Z) i => <[i := 1]> m) before
              (pagesFromTo (m_visibleEnd s + 1) preloadEnd) in
      setPagePriorities after s
  end.

Definition setLazyLoadingEnabled (enabled : bool) (s : Model) : Model :=
  setLazy enabled enabled s.

Definition setViewportRange (start end_ margin : Z) (s : Model) : Model :=
  let s1 := setViewport start end_ margin s in
  if m_lazyLoadingEnabled s1 then updateViewportPriorities s1 else s1.

Definition onPriorityUpdateTimer (s : Model) : Model :=
  if m_lazyLoadingEnabled s then updateViewportPriorities s else s.

(** ** Access tracking and eviction *)

(** [m_accessFrequency.value(pageNumber, 0)]. *)
Definition frequencyOf (pageNumber : Z) (s : Model) : Z :=
  default 0 (m_accessFrequency s !! pageNumber).

Definition updateAccessFrequency (pageNumber : Z) (s : Model) : Model :=
  let counted : gmap Z Z :=
    <[pageNumber := wrap32 (frequencyOf pageNumber s + 1)]> (m_accessFrequency s) in
  if Z.of_nat (size counted) >? wrap32 (m_maxCacheSize s * 2)
  then setAccessFrequency (filter (fun kv => ¬ (kv.2 <= 1)) counted) s
  else setAccessFrequency counted s.

(** The scan of [evictLeastRecentlyUsed]: [oldestIt] and [oldestTime]. *)
Definition lruStep (acc : (Z * ThumbnailItem) * Z) (e : Z * ThumbnailItem)
  : (Z * ThumbnailItem) * Z :=
  if lastAccessed e.2 <? acc.2 then (e, lastAccessed e.2) else acc.

Definition lruVictim (t : gmap Z ThumbnailItem) : option (Z * ThumbnailItem) :=
  match map_to_list t with
  | [] => None
  | first :: _ => Some (foldl lruStep (first, lastAccessed first.2) (map_to_list t)).1
  end.

(** Remove one entry and subtract its bytes from the tracked total. *)
Definition eraseEntry (k : Z) (it : ThumbnailItem) (s : Model) : Model :=
  setThumbnails (delete k (m_thumbnails s))
    (setCurrentMemory (wrap64 (m_currentMemory s - memorySize it)) s).

Definition evictLeastRecentlyUsed (s : Model) : Model :=
  match lruVictim (m_thumbnails s) with
  | None => s
  | Some (k, it) => eraseEntry k it s
  end.

(** The scan of [evictLeastFrequentlyUsed]: [leastFrequentPage],
    [minFrequency] and [oldestTime]. *)
Definition lfuStep (s : Model) (acc : Z * Z * Z) (e : Z * ThumbnailItem) : Z * Z * Z :=
  let '(leastFrequentPage, minFrequency, oldestTime) := acc in
  let pageNumber := e.1 in
  let frequency := frequencyOf pageNumber s in
  if (frequency <? minFrequency)
     || ((frequency =? minFrequency) && (lastAccessed e.2 <? oldestTime))
  then (pageNumber, frequency, lastAccessed e.2)
  else acc.

Definition lfuScan (s : Model) : Z * Z * Z :=
  foldl (lfuStep s) (-1, INT_MAX, LLONG_MAX) (map_to_list (m_thumbnails s)).

Definition evictLeastFrequentlyUsed (s : Model) : Model :=
  if isEmpty (m_thumbnails s) then s
  else
    let leastFrequentPage := (lfuScan s).1.1 in
    if leastFrequentPage >=? 0 then
      match m_thumbnails s !! leastFrequentPage with
      | Some it =>
          setAccessFrequency (delete leastFrequentPage (m_accessFrequency s))
            (eraseEntry leastFrequentPage it s)
      | None => s
      end
    else s.

Set Warnings "-inexact-float".

Definition calculateCacheEfficiency (s : Model) : float :=
  let totalAccess := wrap32 (m_cacheHits s + m_cacheMisses s) in
  if totalAccess =? 0 then 1%float
  else (toDouble (m_cacheHits s) / toDouble totalAccess)%float.

Definition evictByAdaptivePolicy (s : Model) : Model :=
  if negb (m_adaptiveCaching s) then evictLeastRecentlyUsed s
  else
    let efficiency := calculateCacheEfficiency s in
    if (0.7 <? efficiency)%float then evictLeastRecentlyUsed s
    else evictLeastFrequentlyUsed s.

Definition adaptCacheSize (now : Z) (s : Model) : Model :=
  let currentTime := now in
  if wrap64 (currentTime - m_lastCleanupTime s) <? 30000 then s
  else
    let s1 := setLastCleanupTime currentTime s in
    let efficiency := calculateCacheEfficiency s1 in
    if (0.8 <? efficiency)%float
       && (toDouble (m_currentMemory s1) <? toDouble (m_maxMemory s1) * 0.8)%float
    then setLimits (Z.min (wrap32 (m_maxCacheSize s1 + 10)) 300) (m_maxMemory s1) s1
    else if (efficiency <? 0.5)%float
    then setLimits (Z.max (wrap32 (m_maxCacheSize s1 - 5)) 50) (m_maxMemory s1) s1
    else s1.

(** A [while (cond) body;] loop.  It gets a bound on its iterations and
    yields [None] when the bound is reached with [cond] still true. *)
Fixpoint while (fuel : nat) (cond : Model -> bool) (body : Model -> Model)
    (s : Model) : option Model :=
  if cond s then
    match fuel with
    | O => None
    | S fuel' => while fuel' cond body (body s)
    end
  else Some s.

(** An eviction step removes one entry or changes nothing at all, so an
    eviction loop that has not stopped after one round per entry never stops
    (lemma [eviction_loop_diverges] below). *)
Definition evictionRounds (s : Model) : nat := S (size (m_thumbnails s)).

Definition overItemCeiling (s : Model) : bool :=
  Z.of_nat (size (m_thumbnails s)) >? m_maxCacheSize s.

Definition overByteCeiling (s : Model) : bool :=
  m_currentMemory s >? m_maxMemory s.

Definition cleanupCache (now : Z) (s : Model) : option Model :=
  if isEmpty (m_thumbnails s) then Some s
  else
    let s1 := adaptCacheSize now s in
    match while (evictionRounds s1) overItemCeiling evictByAdaptivePolicy s1 with
    | None => None
    | Some s2 =>
        while (evictionRounds s2)
              (fun s => overByteCeiling s && negb (isEmpty (m_thumbnails s)))
              evictByAdaptivePolicy s2
    end.

Definition setCacheSize (maxItems : Z) (s : Model) : option Model :=
  let s1 := setLimits (Z.max 1 maxItems) (m_maxMemory s) s in
  while (evictionRounds s1) overItemCeiling evictLeastRecentlyUsed s1.

Definition setMemoryLimit (maxMemory : Z) (s : Model) : option Model :=
  let s1 := setLimits (m_maxCacheSize s) (Z.max (1024 * 1024) maxMemory) s in
  while (evictionRounds s1)
        (fun s => overByteCeiling s && negb (isEmpty (m_thumbnails s)))
        evictLeastRecentlyUsed s1.

Definition updateMemoryUsage (s : Model) : Model :=
  let totalMemory :=
    foldl (fun total (e : Z * ThumbnailItem) => wrap64 (total + memorySize e.2))
          0 (map_to_list (m_thumbnails s)) in
  setCurrentMemory totalMemory s.

(** ** The cache store: requests, completions, invalidation *)

Definition clearCache (s : Model) : Model :=
  setPreload (m_preloadRange s) ∅ (m_preloadTimerActive s)
    (setCurrentMemory 0 (setThumbnails ∅ s)).

Definition setDocument (document : option Document) (s : Model) : Model :=
  clearCache (setDoc document s).

Definition refreshAllThumbnails (s : Model) : Model := clearCache s.

Definition setPreloadRange (range : Z) (s : Model) : Model :=
  setPreload (Z.max 0 range) (m_preloadQueue s) (m_preloadTimerActive s) s.

(** The tail of [requestThumbnail]: [m_thumbnails[pageNumber]] (created when
    absent) is marked as loading and the request goes to the generator. *)
Definition markLoadingAndDispatch (now : Z) (pageNumber : Z) (s : Model) : Model :=
  let item := default defaultItem (m_thumbnails s !! pageNumber) in
  let item' := withLastAccessed now (withError false EmptyString (withLoading true item)) in
  let s1 := setThumbnails (<[pageNumber := item']> (m_thumbnails s)) s in
  let priority := calculatePriority pageNumber s1 in
  setGeneratorRequests
    (mkRequest pageNumber (m_thumbnailSize s1) (m_thumbnailQuality s1) priority
       :: generatorRequests s1) s1.

Definition requestThumbnail (now : Z) (pageNumber : Z) (s : Model) : Model :=
  if noSuchPage pageNumber s then s
  else if m_lazyLoadingEnabled s && negb (shouldGenerateThumbnail pageNumber s) then s
  else
    match m_thumbnails s !! pageNumber with
    | Some it =>
        if negb (isNull (pixmap it)) then
          updateAccessFrequency pageNumber
            (setThumbnails (<[pageNumber := withLastAccessed now it]> (m_thumbnails s)) s)
        else if isLoading it then s
        else if hasError it then
          markLoadingAndDispatch now pageNumber
            (setThumbnails (<[pageNumber := withError false EmptyString it]> (m_thumbnails s)) s)
        else markLoadingAndDispatch now pageNumber s
    | None => markLoadingAndDispatch now pageNumber s
    end.

Definition requestThumbnailRange (now : Z) (startPage endPage : Z) (s : Model) : Model :=
  match m_document s with
  | None => s
  | Some d =>
      let startPage := Z.max 0 startPage in
      let endPage := Z.min (wrap32 (numPages d - 1)) endPage in
      foldl (fun s i =>
               let needRequest :=
                 match m_thumbnails s !! i with
                 | None => true
                 | Some it => isNull (pixmap it) && negb (isLoading it)
                 end in
               if needRequest then requestThumbnail now i s else s)
            s (pagesFromTo startPage endPage)
  end.

Definition refreshThumbnail (now : Z) (pageNumber : Z) (s : Model) : Model :=
  if noSuchPage pageNumber s then s
  else
    let s1 :=
      match m_thumbnails s !! pageNumber with
      | Some it => eraseEntry pageNumber it s
      | None => s
      end in
    requestThumbnail now pageNumber s1.

Definition preloadVisibleRange (firstVisible lastVisible : Z) (s : Model) : Model :=
  match m_document s with
  | None => s
  | Some d =>
      let startPage := Z.max 0 (wrap32 (firstVisible - m_preloadRange s)) in
      let endPage :=
        Z.min (wrap32 (numPages d - 1)) (wrap32 (lastVisible + m_preloadRange s)) in
      let queue :=
        foldl (fun (q : gset Z) i => if shouldPreload i s then {[ i ]} ∪ q else q)
              (m_preloadQueue s) (pagesFromTo startPage endPage) in
      let active :=
        if negb (bool_decide (queue = ∅)) && negb (m_preloadTimerActive s)
        then true else m_preloadTimerActive s in
      setPreload (m_preloadRange s) queue active s
  end.

Definition onPreloadTimer (now : Z) (s : Model) : Model :=
  match elements (m_preloadQueue s) with
  | [] => setPreload (m_preloadRange s) (m_preloadQueue s) false s
  | pageNumber :: _ =>
      let queue := m_preloadQueue s ∖ {[ pageNumber ]} in
      let s1 := setPreload (m_preloadRange s) queue (m_preloadTimerActive s) s in
      let s2 := requestThumbnail now pageNumber s1 in
      if bool_decide (queue = ∅)
      then setPreload (m_preloadRange s2) (m_preloadQueue s2) false s2
      else s2
  end.

Definition onThumbnailGenerated (now : Z) (pageNumber : Z) (pm : QPixmap)
    (s : Model) : option Model :=
  match m_thumbnails s !! pageNumber with
  | None => Some s
  | Some it =>
      let it' :=
        withMemorySize (calculatePixmapMemory pm)
          (withLastAccessed now
             (withError false EmptyString (withLoading false (withPixmap pm it)))) in
      let s1 :=
        setCurrentMemory (wrap64 (m_currentMemory s + memorySize it'))
          (setThumbnails (<[pageNumber := it']> (m_thumbnails s)) s) in
      while (evictionRounds s1)
            (fun s => overByteCeiling s && (1 <? Z.of_nat (size (m_thumbnails s))))
            evictByAdaptivePolicy s1
  end.

Definition onThumbnailError (now : Z) (pageNumber : Z) (error : string)
    (s : Model) : Model :=
  match m_thumbnails s !! pageNumber with
  | None => s
  | Some it =>
      let it' := withLastAccessed now (withError true error (withLoading false it)) in
      setThumbnails (<[pageNumber := it']> (m_thumbnails s)) s
  end.

(** The loop shared by [setThumbnailSize] and [setThumbnailQuality]: every
    entry with an image gives its bytes back and loses the image. *)
Definition clearPixmaps (s : Model) : Model :=
  let memory :=
    foldl (fun total (e : Z * ThumbnailItem) =>
             if negb (isNull (pixmap e.2)) then wrap64 (total - memorySize e.2)
             else total)
          (m_currentMemory s) (map_to_list (m_thumbnails s)) in
  let items :=
    (fun it => if negb (isNull (pixmap it))
               then withLoading false (withMemorySize 0 (withPixmap NullPixmap it))
               else it) <$> m_thumbnails s in
  setCurrentMemory memory (setThumbnails items s).

Definition setThumbnailSize (size : QSize) (s : Model) : Model :=
  if negb (QSize_eqb (m_thumbnailSize s) size)
  then clearPixmaps (setRender size (m_thumbnailQuality s) s)
  else s.

Definition setThumbnailQuality (quality : float) (s : Model) : Model :=
  if (0.001 <? abs (m_thumbnailQuality s - quality))%float
  then clearPixmaps (setRender (m_thumbnailSize s) quality s)
  else s.

(** [ThumbnailModel::data]: the value for the view and the model after the
    call (the function is [const] in name only: it counts hits and misses,
    touches the entry and may start a request). *)
Definition data (now : Z) (index : QModelIndex) (role : Role) (s : Model)
  : QVariant * Model :=
  match m_document s with
  | None => (VInvalid, s)
  | Some d =>
    if negb (isValid index) then (VInvalid, s)
    else
      let pageNumber := row index in
      if (pageNumber <? 0) || (pageNumber >=? numPages d) then (VInvalid, s)
      else
        let miss (s' : Model) : QVariant * Model :=
          (VInvalid,
           requestThumbnail now pageNumber
             (setHitsMisses (m_cacheHits s') (wrap32 (m_cacheMisses s' + 1)) s')) in
        match role with
        | PageNumberRole => (VInt pageNumber, s)
        | PixmapRole =>
            match m_thumbnails s !! pageNumber with
            | Some it =>
                let s1 :=
                  updateAccessFrequency pageNumber
                    (setThumbnails
                       (<[pageNumber := withLastAccessed now it]> (m_thumbnails s)) s) in
                if negb (isNull (pixmap it))
                then (VPixmap (pixmap it),
                      setHitsMisses (wrap32 (m_cacheHits s1 + 1)) (m_cacheMisses s1) s1)
                else miss s1
            | None => miss s
            end
        | LoadingRole =>
            (VBool (match m_thumbnails s !! pageNumber with
                    | Some it => isLoading it | None => false end), s)
        | ErrorRole =>
            (VBool (match m_thumbnails s !! pageNumber with
                    | Some it => hasError it | None => false end), s)
        | ErrorMessageRole =>
            (VString (match m_thumbnails s !! pageNumber with
                      | Some it => errorMessage it | None => EmptyString end), s)
        | PageSizeRole =>
            let cached :=
              match m_thumbnails s !! pageNumber with
              | Some it =>
                  if negb (QSize_isEmpty (pageSize it)) then Some (pageSize it) else None
              | None => None
              end in
            match cached with
            | Some sz => (VSize sz, s)
            | None =>
                match pageSizeOf d pageNumber with
                | Some sz =>
                    let item := default defaultItem (m_thumbnails s !! pageNumber) in
                    (VSize sz,
                     setThumbnails
                       (<[pageNumber := withPageSize sz item]> (m_thumbnails s)) s)
                | None => (VInvalid, s)
                end
            end
        | OtherRole _ => (VInvalid, s)
        end
  end.

(** ** Operations as a transition system *)

Inductive Op :=
| OpData (index : QModelIndex) (role : Role)
| OpSetDocument (document : option Document)
| OpSetThumbnailSize (size : QSize)
| OpSetThumbnailQuality (quality : float)
| OpSetCacheSize (maxItems : Z)
| OpSetMemoryLimit (maxMemory : Z)
| OpClearCache
| OpSetPreloadRange (range : Z)
| OpRequestThumbnail (pageNumber : Z)
| OpRequestThumbnailRange (startPage endPage : Z)
| OpRefreshThumbnail (pageNumber : Z)
| OpRefreshAllThumbnails
| OpPreloadVisibleRange (firstVisible lastVisible : Z)
| OpThumbnailGenerated (pageNumber : Z) (pm : QPixmap)
| OpThumbnailError (pageNumber : Z) (error : string)
| OpPreloadTimer
| OpCleanupCache
| OpUpdateMemoryUsage
| OpSetLazyLoadingEnabled (enabled : bool)
| OpSetViewportRange (start end_ margin : Z)
| OpPriorityUpdateTimer
| OpUpdateAccessFrequency (pageNumber : Z).

(** One operation, run at clock reading [now]; [None] when one of its loops
    does not stop. *)
Definition step (now : Z) (op : Op) (s : Model) : option Model :=
  match op with
  | OpData index role => Some (data now index role s).2
  | OpSetDocument document => Some (setDocument document s)
  | OpSetThumbnailSize size => Some (setThumbnailSize size s)
  | OpSetThumbnailQuality quality => Some (setThumbnailQuality quality s)
  | OpSetCacheSize maxItems => setCacheSize maxItems s
  | OpSetMemoryLimit maxMemory => setMemoryLimit maxMemory s
  | OpClearCache => Some (clearCache s)
  | OpSetPreloadRange range => Some (setPreloadRange range s)
  | OpRequestThumbnail pageNumber => Some (requestThumbnail now pageNumber s)
  | OpRequestThumbnailRange a b => Some (requestThumbnailRange now a b s)
  | OpRefreshThumbnail pageNumber => Some (refreshThumbnail now pageNumber s)
  | OpRefreshAllThumbnails => Some (refreshAllThumbnails s)
  | OpPreloadVisibleRange a b => Some (preloadVisibleRange a b s)
  | OpThumbnailGenerated pageNumber pm => onThumbnailGenerated now pageNumber pm s
  | OpThumbnailError pageNumber error => Some (onThumbnailError now pageNumber error s)
  | OpPreloadTimer => Some (onPreloadTimer now s)
  | OpCleanupCache => cleanupCache now s
  | OpUpdateMemoryUsage => Some (updateMemoryUsage s)
  | OpSetLazyLoadingEnabled enabled => Some (setLazyLoadingEnabled enabled s)
  | OpSetViewportRange a b margin => Some (setViewportRange a b margin s)
  | OpPriorityUpdateTimer => Some (onPriorityUpdateTimer s)
  | OpUpdateAccessFrequency pageNumber => Some (updateAccessFrequency pageNumber s)
  end.

(** A history: operations with the clock reading each one ran at. *)
Fixpoint run (ops : list (Z * Op)) (s : Model) : option Model :=
  match ops with
  | [] => Some s
  | (now, op) :: rest =>
      match step now op s with
      | Some s' => run rest s'
      | None => None
      end
  end.

(** ** Measures the properties are stated with *)

(** The sum of [memorySize] over a list of entries, and over the store. *)
Definition bytesOf (l : list (Z * ThumbnailItem)) : Z :=
  foldr (fun (e : Z * ThumbnailItem) total => memorySize e.2 + total) 0 l.

Definition storedBytes (s : Model) : Z := bytesOf (map_to_list (m_thumbnails s)).

Definition storeSize (s : Model) : Z := Z.of_nat (size (m_thumbnails s)).

(** Every key of the store is a page index and no timestamp is the largest
    [qint64]; no counter is above the largest [int]. *)
Definition storeInRange (s : Model) : bool :=
  forallb (fun e : Z * ThumbnailItem =>
             (0 <=? e.1) && (lastAccessed e.2 <? LLONG_MAX)
             && (frequencyOf e.1 s <=? INT_MAX))
          (map_to_list (m_thumbnails s)).

(** A model with a document and illustrative defaults, for the examples. *)
Definition sampleDefaults : Defaults :=
  {| DEFAULT_THUMBNAIL_WIDTH := 120; DEFAULT_THUMBNAIL_HEIGHT := 160;
     DEFAULT_QUALITY := 1%float; DEFAULT_CACHE_SIZE := 100;
     DEFAULT_MEMORY_LIMIT := 128 * 1024 * 1024; DEFAULT_PRELOAD_RANGE := 5 |}.

Definition sampleDocument (pages : Z) : option Document :=
  Some (mkDocument pages (fun _ => Some (mkQSize 595 842))).

Definition sampleModel (pages : Z) : Model :=
  setDocument (sampleDocument pages) (newModel sampleDefaults).

(** ** Vocabulary of the properties *)

(** The order of the frequency scan: access count first, then timestamp. *)
Definition lexLt (a b : Z * Z) : Prop := a.1 < b.1 \/ (a.1 = b.1 /\ a.2 < b.2).
Definition lexLe (a b : Z * Z) : Prop := a.1 < b.1 \/ (a.1 = b.1 /\ a.2 <= b.2).

Definition lfuKey (s : Model) (e : Z * ThumbnailItem) : Z * Z :=
  (frequencyOf e.1 s, lastAccessed e.2).

(** [evicted s s' k it]: [s'] is [s] without the entry [it] of page [k],
    with its bytes subtracted, and possibly without the page's counter. *)
Definition evicted (s s' : Model) (k : Z) (it : ThumbnailItem) : Prop :=
  m_thumbnails s !! k = Some it
  /\ (s' = eraseEntry k it s
      \/ s' = setAccessFrequency (delete k (m_accessFrequency s)) (eraseEntry k it s)).

(** The scenario as the specification words it: after
    [setViewportRange(10, 15, 2)] page 12 has tier 0, pages 9 and 17 tier 1,
    page 50 the default tier, page 8 is not eligible and page 9 is. *)
Definition viewportScenarioAsWorded (s : Model) : Prop :=
  let s' := setViewportRange 10 15 2 s in
  calculatePriority 12 s' = 0
  /\ calculatePriority 9 s' = 1
  /\ calculatePriority 17 s' = 1
  /\ calculatePriority 50 s' = 5
  /\ isInViewport 8 s' = false
  /\ isInViewport 9 s' = true.

Definition readyOrErrored (it : ThumbnailItem) : bool :=
  negb (isLoading it) && (negb (isNull (pixmap it)) || hasError it).

(** The protection of loading entries as the specification words it: while
    a ready or errored entry exists, the step [evict] removes no loading
    entry. *)
Definition loadingProtected (evict : Model -> Model) (s : Model) : Prop :=
  (exists k' it', m_thumbnails s !! k' = Some it' /\ readyOrErrored it' = true) ->
  forall k it,
    m_thumbnails s !! k = Some it -> isLoading it = true ->
    m_thumbnails (evict s) !! k = Some it.

(** The ceilings as the specification words them: both hold, unless a single
    entry remains. *)
Definition ceilingsHold (s : Model) : Prop :=
  (storeSize s <= m_maxCacheSize s /\ m_currentMemory s <= m_maxMemory s)
  \/ storeSize s = 1.

(** What an operation may do to the counter of page [p]: leave it at least
    as large, or reset it to zero, and then the counter was at most 1 (it
    was pruned) or the page lost its entry (it was evicted). *)
Definition counterGrowsOrResets (s s' : Model) (p : Z) : Prop :=
  frequencyOf p s <= frequencyOf p s'
  \/ (frequencyOf p s' = 0
      /\ (frequencyOf p s <= 1
          \/ (is_Some (m_thumbnails s !! p) /\ m_thumbnails s' !! p = None))).

(** Equality of two [qint64] values up to wrap-around. *)
Definition congruent64 (a b : Z) : Prop := exists k, a = b + k * 2 ^ 64.

(** The accounting invariant: the tracked total is the sum of the entries'
    bytes (as [qint64] values). *)
Definition accounted (s : Model) : Prop :=
  congruent64 (m_currentMemory s) (storedBytes s).

(** Keys of the store are page indices, no timestamp is the largest
    [qint64], and no counter is above the largest [int]. *)
Definition entriesOk (t : gmap Z ThumbnailItem) : Prop :=
  map_Forall (fun k it => 0 <= k /\ lastAccessed it < LLONG_MAX) t.

Definition countsOk (f : gmap Z Z) : Prop :=
  map_Forall (fun _ v => v <= INT_MAX) f.

Definition inRange (s : Model) : Prop :=
  entriesOk (m_thumbnails s) /\ countsOk (m_accessFrequency s).

(** ** Example models *)

(** The model the histories below lead to (the model itself if the history
    does not finish). *)
Definition after (ops : list (Z * Op)) (s : Model) : Model :=
  default s (run ops s).

(** Page 7 was requested, then lost to an eviction while page 3 stayed. *)
Definition page7EvictedHistory : list (Z * Op) :=
  [(1, OpRequestThumbnail 7); (2, OpRequestThumbnail 3);
   (3, OpThumbnailGenerated 3 (Pixmap 120 160)); (4, OpSetCacheSize 1)].

Definition page7Evicted : Model := after page7EvictedHistory (sampleModel 10).

(** Page 0 is still loading, page 1 is ready and was touched later. *)
Definition loadingOldestHistory : list (Z * Op) :=
  [(1, OpRequestThumbnail 0); (2, OpRequestThumbnail 1);
   (3, OpThumbnailGenerated 1 (Pixmap 120 160))].

Definition loadingOldest : Model := after loadingOldestHistory (sampleModel 10).

(** Pages 0, 1 and 2 are ready; page 1 has been read twice, page 2 once. *)
Definition threeReadyHistory : list (Z * Op) :=
  [(1, OpRequestThumbnail 0); (2, OpRequestThumbnail 1);
   (3, OpRequestThumbnail 2);
   (4, OpThumbnailGenerated 0 (Pixmap 120 160));
   (5, OpThumbnailGenerated 1 (Pixmap 120 160));
   (6, OpThumbnailGenerated 2 (Pixmap 120 160));
   (7, OpData (Index 1) PixmapRole); (8, OpData (Index 1) PixmapRole);
   (9, OpData (Index 2) PixmapRole)].

Definition threeReady : Model := after threeReadyHistory (sampleModel 10).

(** Pages 0, 1 and 2 are ready and were read three times in all; four reads
    of pages without an image missed. *)
Definition thrashingHistory : list (Z * Op) :=
  [(10, OpData (Index 3) PixmapRole); (11, OpData (Index 4) PixmapRole);
   (12, OpData (Index 5) PixmapRole); (13, OpData (Index 6) PixmapRole)].

Definition thrashing : Model := after thrashingHistory threeReady.

(** Page 2 is loading and was requested last; pages 0 and 1 are ready. *)
Definition loadingNewestHistory : list (Z * Op) :=
  [(1, OpRequestThumbnail 0); (2, OpRequestThumbnail 1);
   (3, OpThumbnailGenerated 0 (Pixmap 120 160));
   (4, OpThumbnailGenerated 1 (Pixmap 120 160));
   (5, OpRequestThumbnail 2)].

Definition loadingNewest : Model := after loadingNewestHistory (sampleModel 10).

(** The item ceiling is 1 and two pages have been requested. *)
Definition twoRequestedHistory : list (Z * Op) :=
  [(0, OpSetCacheSize 1); (1, OpRequestThumbnail 0); (2, OpRequestThumbnail 1)].

Definition twoRequested : Model := after twoRequestedHistory (sampleModel 10).

(** One entry of 256 MB under a byte ceiling of 128 MB. *)
Definition oneHugeEntryHistory : list (Z * Op) :=
  [(1, OpRequestThumbnail 0); (2, OpThumbnailGenerated 0 (Pixmap 8000 8000))].

Definition oneHugeEntry : Model := after oneHugeEntryHistory (sampleModel 10).

(** Three ready pages of 76800 bytes each under a byte ceiling of 1 MB and an
    item ceiling of 2. *)
Definition overItemsHistory : list (Z * Op) :=
  [(0, OpSetCacheSize 2);
   (1, OpRequestThumbnail 0); (2, OpRequestThumbnail 1);
   (3, OpRequestThumbnail 2);
   (4, OpThumbnailGenerated 0 (Pixmap 120 160));
   (5, OpThumbnailGenerated 1 (Pixmap 120 160));
   (6, OpThumbnailGenerated 2 (Pixmap 120 160));
   (7, OpSetMemoryLimit 0)].

Definition overItems : Model := after overItemsHistory (sampleModel 10).

(** Pages 0, 1 and 2 are ready under an item ceiling of 1; pages 0 and 1
    have been read once each. *)
Definition twoCountedHistory : list (Z * Op) :=
  [(0, OpSetCacheSize 1);
   (1, OpRequestThumbnail 0); (2, OpRequestThumbnail 1);
   (3, OpRequestThumbnail 2);
   (4, OpThumbnailGenerated 0 (Pixmap 120 160));
   (5, OpThumbnailGenerated 1 (Pixmap 120 160));
   (6, OpThumbnailGenerated 2 (Pixmap 120 160));
   (7, OpData (Index 0) PixmapRole); (8, OpData (Index 1) PixmapRole)].

Definition twoCounted : Model := after twoCountedHistory (sampleModel 10).

(** Pages 0 and 1 are ready and have been read twice each; five reads of
    page 5, outside the viewport, missed. *)
Definition twoHotPagesHistory : list (Z * Op) :=
  [(0, OpSetViewportRange 0 1 0);
   (1, OpRequestThumbnail 0); (2, OpRequestThumbnail 1);
   (3, OpThumbnailGenerated 0 (Pixmap 120 160));
   (4, OpThumbnailGenerated 1 (Pixmap 120 160));
   (5, OpData (Index 0) PixmapRole); (6, OpData (Index 1) PixmapRole);
   (7, OpData (Index 0) PixmapRole); (8, OpData (Index 1) PixmapRole);
   (9, OpData (Index 5) PixmapRole); (10, OpData (Index 5) PixmapRole);
   (11, OpData (Index 5) PixmapRole); (12, OpData (Index 5) PixmapRole);
   (13, OpData (Index 5) PixmapRole)].

Definition twoHotPages : Model := after twoHotPagesHistory (sampleModel 10).

(** ** Further member functions *)

Inductive ItemFlag := ItemIsEnabled | ItemIsSelectable.

(** [ThumbnailModel::flags]; the empty list is [Qt::NoItemFlags]. *)
Definition flags (index : QModelIndex) : list ItemFlag :=
  if negb (isValid index) then [] else [ItemIsEnabled; ItemIsSelectable].

Definition roleNames : list (Role * string) :=
  [(PageNumberRole, "pageNumber"%string); (PixmapRole, "pixmap"%string);
   (LoadingRole, "loading"%string); (ErrorRole, "error"%string);
   (ErrorMessageRole, "errorMessage"%string); (PageSizeRole, "pageSize"%string)].

(** The queries [isLoading(int)], [hasError(int)] and [errorMessage(int)] of
    the model (the record fields of an entry have these names already). *)
Definition pageIsLoading (pageNumber : Z) (s : Model) : bool :=
  match m_thumbnails s !! pageNumber with
  | Some it => isLoading it
  | None => false
  end.

Definition pageHasError (pageNumber : Z) (s : Model) : bool :=
  match m_thumbnails s !! pageNumber with
  | Some it => hasError it
  | None => false
  end.

Definition pageErrorMessage (pageNumber : Z) (s : Model) : string :=
  match m_thumbnails s !! pageNumber with
  | Some it => errorMessage it
  | None => EmptyString
  end.

(** ** Further vocabulary *)

(** [s'] holds a part of the entries of [s], unchanged, and every entry it
    lacks was accessed no later than every entry it holds. *)
Definition keptMostRecent (s s' : Model) : Prop :=
  (forall k it, m_thumbnails s' !! k = Some it -> m_thumbnails s !! k = Some it)
  /\ (forall k it k' it',
        m_thumbnails s' !! k = Some it ->
        m_thumbnails s !! k' = Some it' -> m_thumbnails s' !! k' = None ->
        lastAccessed it' <= lastAccessed it).

(** [s'] differs from [s] in the store and the tracked total at most. *)
Definition onlyStoreChanged (s s' : Model) : Prop :=
  setThumbnails ∅ (setCurrentMemory 0 s') = setThumbnails ∅ (setCurrentMemory 0 s).

(** Every image of [s] has been dropped in [s']: no page has an image, the
    store holds the same pages, an entry that had no image is untouched, and
    an entry that had one keeps page size, error and timestamp, costs no
    bytes and is not loading; no request was made. *)
Definition imagesDropped (s s' : Model) : Prop :=
  (forall p, hasCachedThumbnail p s' = false)
  /\ storeSize s' = storeSize s
  /\ (forall p, m_thumbnails s !! p = None -> m_thumbnails s' !! p = None)
  /\ (forall p it, m_thumbnails s !! p = Some it -> isNull (pixmap it) = true ->
        m_thumbnails s' !! p = Some it)
  /\ (forall p it, m_thumbnails s !! p = Some it -> isNull (pixmap it) = false ->
        m_thumbnails s' !! p
        = Some (mkItem NullPixmap false (hasError it) (errorMessage it)
                       (lastAccessed it) 0 (pageSize it)))
  /\ generatorRequests s' = generatorRequests s
  /\ m_accessFrequency s' = m_accessFrequency s.

(** [s'] differs from [s] in the store, the tracked total and the access
    counters at most. *)
Definition onlyCacheChanged (s s' : Model) : Prop :=
  setAccessFrequency ∅ (setThumbnails ∅ (setCurrentMemory 0 s'))
  = setAccessFrequency ∅ (setThumbnails ∅ (setCurrentMemory 0 s)).

(** The entry a completion with image [pm] at time [now] makes of [it]. *)
Definition readyItem (now : Z) (pm : QPixmap) (it : ThumbnailItem) : ThumbnailItem :=
  mkItem pm false false EmptyString now (calculatePixmapMemory pm) (pageSize it).

(** One tick of the preload timer per clock reading. *)
Definition preloadTicks (clock : list Z) (s : Model) : Model :=
  foldl (fun s now => onPreloadTimer now s) s clock.

(** The page size [data] finds in the store: the entry's, unless the page
    has no entry or the entry's size is empty. *)
Definition cachedPageSize (pageNumber : Z) (s : Model) : option QSize :=
  match m_thumbnails s !! pageNumber with
  | Some it => if negb (QSize_isEmpty (pageSize it)) then Some (pageSize it) else None
  | None => None
  end.

(** [s'] differs from [s] in the item ceiling and the time of the last
    adjustment at most. *)
Definition onlyItemCeilingChanged (s s' : Model) : Prop :=
  setLimits 0 (m_maxMemory s') (setLastCleanupTime 0 s')
  = setLimits 0 (m_maxMemory s) (setLastCleanupTime 0 s).

(** What every operation leaves of an entry: an entry without image costs
    no bytes, a loading entry has no image and no error, and an entry that
    is not in error has no error message. *)
Definition coherentItem (it : ThumbnailItem) : Prop :=
  (isNull (pixmap it) = true -> memorySize it = 0)
  /\ (isLoading it = true -> isNull (pixmap it) = true /\ hasError it = false)
  /\ (hasError it = false -> errorMessage it = EmptyString).

(** Every tracked page and every queued page is a page of the current
    document, and every entry is coherent. *)
Definition coherent (s : Model) : Prop :=
  (forall k it, m_thumbnails s !! k = Some it ->
     noSuchPage k s = false /\ coherentItem it)
  /\ (forall p, p ∈ m_preloadQueue s -> noSuchPage p s = false).

(** Along the history [ops] from [s], every completion arrives for a page
    that has no image at that moment. *)
Fixpoint completionsAreFirst (ops : list (Z * Op)) (s : Model) : bool :=
  match ops with
  | [] => true
  | (now, op) :: rest =>
      match op with
      | OpThumbnailGenerated pageNumber _ => negb (hasCachedThumbnail pageNumber s)
      | _ => true
      end
      && match step now op s with
         | Some s' => completionsAreFirst rest s'
         | None => true
         end
  end.

(** The condition under which [requestThumbnail] goes to the generator: the
    page exists, is eligible, has no image and is not loading. *)
Definition wantsRequest (pageNumber : Z) (s : Model) : bool :=
  negb (noSuchPage pageNumber s) && shouldGenerateThumbnail pageNumber s
  && negb (hasCachedThumbnail pageNumber s)
  && negb (isThumbnailLoading pageNumber s).

(** The entry a dispatched request at time [now] makes of [it], and the
    request that goes out for a page. *)
Definition loadingItem (now : Z) (it : ThumbnailItem) : ThumbnailItem :=
  withLastAccessed now (withError false EmptyString (withLoading true it)).

Definition requestFor (pageNumber : Z) (s : Model) : Request :=
  mkRequest pageNumber (m_thumbnailSize s) (m_thumbnailQuality s)
            (calculatePriority pageNumber s).

(** [s'] differs from [s] in the store and the calls made to the generator
    at most. *)
Definition onlyStoreAndRequestsChanged (s s' : Model) : Prop :=
  setGeneratorRequests [] (setThumbnails ∅ s')
  = setGeneratorRequests [] (setThumbnails ∅ s).

(** The item ceiling is not negative and can grow by 10 without overflow. *)
Definition ceilingInRange (s : Model) : Prop :=
  0 <= m_maxCacheSize s <= INT_MAX - 10.

(** The document, the priority map, the viewport, and the lazy-loading flag
    with the flag of the priority timer. *)
Definition settingsOf (s : Model)
  : option Document * gmap Z Z * (Z * Z * Z) * (bool * bool) :=
  (m_document s, m_pagePriorities s,
   (m_visibleStart s, m_visibleEnd s, m_viewportMargin s),
   (m_lazyLoadingEnabled s, m_priorityTimerActive s)).

(** A loop [for (int i = first; i <= last; ++i)] leaves when [i] exceeds
    [last], which no [int] does when [last] is [INT_MAX]: the loop exits
    exactly when its bound is below [INT_MAX].  There, [pagesFromTo] lists
    what the loop visits. *)
Definition countedLoopExits (last : Z) : bool := last <? INT_MAX.

(** The loop [for (int i = first; i <= last; ++i)] itself, with [++i] on a
    32-bit [int] that wraps around: the values of [i] for which the body
    runs, or [None] when the loop has not left after [fuel] rounds. *)
Fixpoint countedLoop (fuel : nat) (i last : Z) : option (list Z) :=
  if i <=? last then
    match fuel with
    | O => None
    | S fuel' => cons i <$> countedLoop fuel' (wrap32 (i + 1)) last
    end
  else Some [].

(** The two loops of [updateViewportPriorities] that run up to a bound
    (the third, [i < m_visibleStart], always exits). *)
Definition viewportLoopsExit (s : Model) : bool :=
  match m_document s with
  | None => true
  | Some d =>
      countedLoopExits (m_visibleEnd s)
      && countedLoopExits
           (Z.min (wrap32 (numPages d - 1))
                  (wrap32 (m_visibleEnd s + m_viewportMargin s)))
  end.

(** Every counted loop that operation [op] runs from the model [s] exits. *)
Definition loopsExit (op : Op) (s : Model) : bool :=
  match op with
  | OpSetViewportRange start end_ margin =>
      if m_lazyLoadingEnabled s
      then viewportLoopsExit (setViewport start end_ margin s) else true
  | OpPriorityUpdateTimer =>
      if m_lazyLoadingEnabled s then viewportLoopsExit s else true
  | OpRequestThumbnailRange _ endPage =>
      match m_document s with
      | None => true
      | Some d => countedLoopExits (Z.min (wrap32 (numPages d - 1)) endPage)
      end
  | OpPreloadVisibleRange _ lastVisible =>
      match m_document s with
      | None => true
      | Some d =>
          countedLoopExits
            (Z.min (wrap32 (numPages d - 1)) (wrap32 (lastVisible + m_preloadRange s)))
      end
  | _ => true
  end.

(** Along the history [ops] from [s], every counted loop exits. *)
Fixpoint loopsExitAlong (ops : list (Z * Op)) (s : Model) : bool :=
  match ops with
  | [] => true
  | (now, op) :: rest =>
      loopsExit op s
      && match step now op s with
         | Some s' => loopsExitAlong rest s'
         | None => true
         end
  end.

(** The bounds the counted loops depend on: the end of the viewport is below
    [INT_MAX] and the document has between 0 and [INT_MAX] pages. *)
Definition loopBoundsOk (s : Model) : Prop :=
  m_visibleEnd s < INT_MAX
  /\ forall d, m_document s = Some d -> 0 <= numPages d <= INT_MAX.

(** An operation with its clock reading, as a history may hold it: the
    clock is read below the largest [qint64], an item ceiling is set with
    room for [adaptCacheSize] to grow it, a viewport ends below [INT_MAX],
    and a document has between 0 and [INT_MAX] pages. *)
Definition admissible (e : Z * Op) : bool :=
  (e.1 <? LLONG_MAX)
  && match e.2 with
     | OpSetCacheSize maxItems => maxItems <=? INT_MAX - 10
     | OpSetViewportRange _ end_ _ => end_ <? INT_MAX
     | OpSetDocument (Some d) => (0 <=? numPages d) && (numPages d <=? INT_MAX)
     | _ => true
     end.

(** ** Further example models *)

(** Pages 0 and 1 are ready.  Page 0 was read three times, page 1 once and
    last: page 0 is the least recently used, page 1 the least frequently
    used.  Every read hit. *)
Definition hotOldestHistory : list (Z * Op) :=
  [(0, OpSetViewportRange 0 1 0);
   (1, OpRequestThumbnail 0); (2, OpRequestThumbnail 1);
   (3, OpThumbnailGenerated 0 (Pixmap 120 160));
   (4, OpThumbnailGenerated 1 (Pixmap 120 160));
   (5, OpData (Index 0) PixmapRole); (6, OpData (Index 0) PixmapRole);
   (7, OpData (Index 0) PixmapRole); (8, OpData (Index 1) PixmapRole)].

Definition hotOldest : Model := after hotOldestHistory (sampleModel 10).

(** The same store after five reads of page 5, outside the viewport, missed:
    four hits against five misses. *)
Definition hotOldestThrashingHistory : list (Z * Op) :=
  [(9, OpData (Index 5) PixmapRole); (10, OpData (Index 5) PixmapRole);
   (11, OpData (Index 5) PixmapRole); (12, OpData (Index 5) PixmapRole);
   (13, OpData (Index 5) PixmapRole)].

Definition hotOldestThrashing : Model := after hotOldestThrashingHistory hotOldest.

(** Pages 0 to 8 of a ten-page document are queued for preloading. *)
Definition ninePagesQueued : Model := preloadVisibleRange 2 3 (sampleModel 10).

(** Page 0 is ready, pages 1 and 2 are loading. *)
Definition oneReadyTwoLoadingHistory : list (Z * Op) :=
  [(1, OpRequestThumbnail 0); (2, OpRequestThumbnail 1); (3, OpRequestThumbnail 2);
   (4, OpThumbnailGenerated 0 (Pixmap 120 160))].

Definition oneReadyTwoLoading : Model := after oneReadyTwoLoadingHistory (sampleModel 10).

(** Page 0 was queued for preloading and then requested directly: it is
    loading and still in the queue. *)
Definition queuedThenRequestedHistory : list (Z * Op) :=
  [(0, OpSetPreloadRange 0); (1, OpPreloadVisibleRange 0 0); (2, OpRequestThumbnail 0)].

Definition queuedThenRequested : Model :=
  after queuedThenRequestedHistory (sampleModel 10).

(** Lazy loading is on and no viewport has been set. *)
Definition lazyNoViewport : Model := setLazyLoadingEnabled true (sampleModel 100).

(** Lazy loading with pages 10 to 15 of a hundred visible and a margin of
    two pages. *)
Definition lazyViewport : Model := setViewportRange 10 15 2 lazyNoViewport.

(** A history with every kind of loop in it. *)
Definition everyLoopHistory : list (Z * Op) :=
  ((0, OpSetDocument (sampleDocument 10)) :: oneReadyTwoLoadingHistory)
  ++ [(5, OpThumbnailGenerated 1 (Pixmap 120 160)); (6, OpSetCacheSize 1);
      (7, OpRequestThumbnail 4); (40000, OpCleanupCache); (40001, OpSetMemoryLimit 0);
      (40002, OpSetViewportRange 2 5 1); (40003, OpPriorityUpdateTimer);
      (40004, OpRequestThumbnailRange 0 9); (40005, OpPreloadVisibleRange 3 4)].

(** The same history from the construction of the model on. *)
Definition fromConstructionHistory : list (Z * Op) :=
  (0, OpSetDocument (sampleDocument 10)) :: oneReadyTwoLoadingHistory.

(** * Properties *)

(** ** Machine arithmetic *)

Lemma wrap32_range z : - 2 ^ 31 <= wrap32 z < 2 ^ 31.
Proof.
  unfold wrap32, wrap. change (32 - 1) with 31.
  pose proof (Z.mod_pos_bound (z + 2 ^ 31) (2 ^ 32) ltac:(lia)). lia.
Qed.

Lemma wrap32_small z : - 2 ^ 31 <= z < 2 ^ 31 -> wrap32 z = z.
Proof.
  intros H. unfold wrap32, wrap. change (32 - 1) with 31.
  rewrite Z.mod_small; lia.
Qed.

Lemma wrap32_succ_ge z : z < INT_MAX -> z <= wrap32 (z + 1).
Proof.
  unfold INT_MAX. intros H.
  destruct (Z_le_gt_dec (- 2 ^ 31) (z + 1)) as [Hlo | Hlo].
  - rewrite wrap32_small; lia.
  - pose proof (wrap32_range (z + 1)). lia.
Qed.

(** ** The recency scan *)

Lemma lruStep_shape e0 x :
  lruStep (e0, lastAccessed e0.2) x
  = (if lastAccessed x.2 <? lastAccessed e0.2 then x else e0,
     lastAccessed (if lastAccessed x.2 <? lastAccessed e0.2 then x else e0).2).
Proof. unfold lruStep. simpl. destruct (_ <? _); reflexivity. Qed.

Lemma lru_fold_spec (l : list (Z * ThumbnailItem)) : forall e0,
  let r := (foldl lruStep (e0, lastAccessed e0.2) l).1 in
  (r = e0 \/ r ∈ l)
  /\ lastAccessed r.2 <= lastAccessed e0.2
  /\ forall x, x ∈ l -> lastAccessed r.2 <= lastAccessed x.2.
Proof.
  induction l as [| x l IH]; intros e0; simpl.
  - split; [by left |]. split; [lia |]. intros x Hx. by apply elem_of_nil in Hx.
  - rewrite lruStep_shape.
    destruct (IH (if lastAccessed x.2 <? lastAccessed e0.2 then x else e0))
      as (Hin & Hle & Hall).
    destruct (Z.ltb_spec (lastAccessed x.2) (lastAccessed e0.2)) as [Hlt | Hge].
    + split; [| split].
      * right. destruct Hin as [-> | Hin]; [apply list_elem_of_here | by apply list_elem_of_further].
      * lia.
      * intros y Hy. apply elem_of_cons in Hy as [-> | Hy]; [exact Hle | by apply Hall].
    + split; [| split].
      * destruct Hin as [-> | Hin]; [by left | right; by apply list_elem_of_further].
      * exact Hle.
      * intros y Hy. apply elem_of_cons in Hy as [-> | Hy]; [lia | by apply Hall].
Qed.

Lemma lruVictim_none (t : gmap Z ThumbnailItem) : lruVictim t = None <-> t = ∅.
Proof.
  unfold lruVictim. rewrite <- map_to_list_empty_iff.
  destruct (map_to_list t); split; intros H; congruence.
Qed.

(** The victim of the recency scan is an entry of the store, and no entry
    has been accessed earlier. *)
Lemma lruVictim_spec (t : gmap Z ThumbnailItem) k it :
  lruVictim t = Some (k, it) ->
  t !! k = Some it
  /\ forall k' it', t !! k' = Some it' -> lastAccessed it <= lastAccessed it'.
Proof.
  unfold lruVictim. destruct (map_to_list t) as [| e0 l] eqn:Hl; [discriminate |].
  intros Hr. apply (inj Some) in Hr.
  pose proof (lru_fold_spec (e0 :: l) e0) as Hspec. cbv zeta in Hspec.
  rewrite Hr in Hspec. destruct Hspec as (Hin & _ & Hall). simpl in Hall.
  split.
  - apply elem_of_map_to_list. rewrite Hl.
    destruct Hin as [<- | Hin]; [apply list_elem_of_here | exact Hin].
  - intros k' it' Hk'. apply (Hall (k', it')).
    rewrite <- Hl. by apply elem_of_map_to_list.
Qed.

(** ** The frequency scan *)

Lemma lfu_fold_spec s (l : list (Z * ThumbnailItem)) : forall acc,
  let r := foldl (lfuStep s) acc l in
  (r = acc \/ exists e, e ∈ l /\ r = (e.1, frequencyOf e.1 s, lastAccessed e.2))
  /\ lexLe (r.1.2, r.2) (acc.1.2, acc.2)
  /\ forall x, x ∈ l -> lexLe (r.1.2, r.2) (lfuKey s x).
Proof.
  induction l as [| x l IH]; intros acc; simpl.
  - split; [by left |]. split.
    + unfold lexLe; simpl. lia.
    + intros x Hx. by apply elem_of_nil in Hx.
  - destruct (IH (lfuStep s acc x)) as (Hin & Hle & Hall).
    set (r := foldl (lfuStep s) (lfuStep s acc x) l) in *.
    assert (Hstep : (lfuStep s acc x = acc /\ lexLe (acc.1.2, acc.2) (lfuKey s x))
                    \/ (lfuStep s acc x = (x.1, frequencyOf x.1 s, lastAccessed x.2)
                        /\ lexLt (lfuKey s x) (acc.1.2, acc.2))).
    { destruct acc as [[p f] tm]. unfold lfuStep, lfuKey, lexLe, lexLt. simpl.
      destruct (Z.ltb_spec (frequencyOf x.1 s) f);
        destruct (Z.eqb_spec (frequencyOf x.1 s) f);
        destruct (Z.ltb_spec (lastAccessed x.2) tm); simpl;
        first [ left; split; [reflexivity | lia] | right; split; [reflexivity | lia] ]. }
    unfold lexLe, lexLt, lfuKey in *.
    destruct Hstep as [[Heq Hacc] | [Heq Hacc]]; rewrite Heq in Hin, Hle; simpl in *.
    + split; [| split].
      * destruct Hin as [Hin | (e & He & Hr)]; [by left |].
        right. exists e. split; [by apply list_elem_of_further | exact Hr].
      * exact Hle.
      * intros y Hy. apply elem_of_cons in Hy as [-> | Hy]; [simpl; lia | by apply Hall].
    + split; [| split].
      * right. destruct Hin as [Hin | (e & He & Hr)].
        -- exists x. split; [apply list_elem_of_here | exact Hin].
        -- exists e. split; [by apply list_elem_of_further | exact Hr].
      * lia.
      * intros y Hy. apply elem_of_cons in Hy as [-> | Hy]; [simpl; lia | by apply Hall].
Qed.

Lemma storeInRange_lookup s k it :
  storeInRange s = true -> m_thumbnails s !! k = Some it ->
  0 <= k /\ lastAccessed it < LLONG_MAX /\ frequencyOf k s <= INT_MAX.
Proof.
  unfold storeInRange. rewrite forallb_forall. intros Hall Hk.
  apply elem_of_map_to_list, list_elem_of_In, Hall in Hk. simpl in Hk.
  apply andb_true_iff in Hk as [Hk H3]. apply andb_true_iff in Hk as [H1 H2].
  lia.
Qed.

(** On a non-empty store in range, the frequency scan ends on a page of the
    store whose (count, timestamp) pair is least. *)
Lemma lfuScan_spec s :
  storeInRange s = true -> m_thumbnails s ≠ ∅ ->
  exists k it,
    (lfuScan s).1.1 = k /\ 0 <= k /\ m_thumbnails s !! k = Some it
    /\ forall k' it', m_thumbnails s !! k' = Some it' ->
         lexLe (frequencyOf k s, lastAccessed it) (frequencyOf k' s, lastAccessed it').
Proof.
  intros Hrange Hne. unfold lfuScan.
  destruct (lfu_fold_spec s (map_to_list (m_thumbnails s)) (-1, INT_MAX, LLONG_MAX))
    as (Hin & _ & Hall).
  set (r := foldl (lfuStep s) (-1, INT_MAX, LLONG_MAX) (map_to_list (m_thumbnails s))) in *.
  destruct Hin as [Hr | ((k & it) & He & Hr)].
  - exfalso. apply Hne, map_to_list_empty_iff.
    destruct (map_to_list (m_thumbnails s)) as [| [k0 it0] l] eqn:Hl; [reflexivity |].
    assert (Hk0 : m_thumbnails s !! k0 = Some it0).
    { apply elem_of_map_to_list. rewrite Hl. apply list_elem_of_here. }
    destruct (storeInRange_lookup _ _ _ Hrange Hk0) as (_ & Ht & Hf).
    specialize (Hall (k0, it0) (list_elem_of_here _ _)).
    rewrite Hr in Hall. unfold lexLe, lfuKey in Hall. simpl in Hall. lia.
  - apply elem_of_map_to_list in He. simpl in Hr.
    exists k, it. rewrite Hr. simpl.
    destruct (storeInRange_lookup _ _ _ Hrange He) as (Hk & _ & _).
    repeat split; try done.
    intros k' it' Hk'. apply elem_of_map_to_list in Hk'.
    specialize (Hall _ Hk'). rewrite Hr in Hall. exact Hall.
Qed.

(** ** One eviction step *)

Lemma isEmpty_true {A} (t : gmap Z A) : isEmpty t = true <-> t = ∅.
Proof. unfold isEmpty. rewrite Nat.eqb_eq. apply map_size_empty_iff. Qed.

Lemma isEmpty_false {A} (t : gmap Z A) : isEmpty t = false <-> t ≠ ∅.
Proof.
  rewrite <- isEmpty_true. destruct (isEmpty t); split; congruence.
Qed.

Lemma evictLeastRecentlyUsed_spec s :
  m_thumbnails s ≠ ∅ ->
  exists k it,
    m_thumbnails s !! k = Some it
    /\ evictLeastRecentlyUsed s = eraseEntry k it s
    /\ forall k' it', m_thumbnails s !! k' = Some it' ->
         lastAccessed it <= lastAccessed it'.
Proof.
  intros Hne. unfold evictLeastRecentlyUsed.
  destruct (lruVictim (m_thumbnails s)) as [[k it] |] eqn:Hv.
  - destruct (lruVictim_spec _ _ _ Hv) as [Hk Hmin]. by exists k, it.
  - by apply lruVictim_none in Hv.
Qed.

Lemma evictLeastFrequentlyUsed_spec s :
  storeInRange s = true -> m_thumbnails s ≠ ∅ ->
  exists k it,
    m_thumbnails s !! k = Some it
    /\ evictLeastFrequentlyUsed s
       = setAccessFrequency (delete k (m_accessFrequency s)) (eraseEntry k it s)
    /\ forall k' it', m_thumbnails s !! k' = Some it' ->
         lexLe (frequencyOf k s, lastAccessed it) (frequencyOf k' s, lastAccessed it').
Proof.
  intros Hrange Hne.
  destruct (lfuScan_spec s Hrange Hne) as (k & it & Hscan & Hk0 & Hk & Hmin).
  exists k, it. split; [exact Hk |]. split; [| exact Hmin].
  unfold evictLeastFrequentlyUsed.
  apply isEmpty_false in Hne. rewrite Hne, Hscan.
  destruct (Z.geb_spec k 0); [| lia]. by rewrite Hk.
Qed.

(** An eviction step removes one entry of the store or changes nothing. *)
Lemma evict_shrinks_or_same s :
  evictByAdaptivePolicy s = s
  \/ exists k it, evicted s (evictByAdaptivePolicy s) k it.
Proof.
  assert (Hlru : evictLeastRecentlyUsed s = s
                 \/ exists k it, evicted s (evictLeastRecentlyUsed s) k it).
  { unfold evictLeastRecentlyUsed.
    destruct (lruVictim (m_thumbnails s)) as [[k it] |] eqn:Hv; [| by left].
    right. exists k, it. split; [apply (lruVictim_spec _ _ _ Hv) | by left]. }
  unfold evictByAdaptivePolicy.
  destruct (negb (m_adaptiveCaching s)); [exact Hlru |].
  destruct (0.7 <? calculateCacheEfficiency s)%float; [exact Hlru |].
  unfold evictLeastFrequentlyUsed.
  destruct (isEmpty (m_thumbnails s)); [by left |].
  destruct ((lfuScan s).1.1 >=? 0); [| by left].
  destruct (m_thumbnails s !! (lfuScan s).1.1) as [it |] eqn:Hk; [| by left].
  right. exists (lfuScan s).1.1, it. split; [exact Hk | by right].
Qed.

(** On a non-empty store in range every eviction step removes an entry. *)
Lemma evict_progress s :
  storeInRange s = true -> m_thumbnails s ≠ ∅ ->
  exists k it, evicted s (evictByAdaptivePolicy s) k it.
Proof.
  intros Hrange Hne.
  assert (Hlru : exists k it, evicted s (evictLeastRecentlyUsed s) k it).
  { destruct (evictLeastRecentlyUsed_spec s Hne) as (k & it & Hk & Heq & _).
    exists k, it. split; [exact Hk | by left]. }
  unfold evictByAdaptivePolicy.
  destruct (negb (m_adaptiveCaching s)); [exact Hlru |].
  destruct (0.7 <? calculateCacheEfficiency s)%float; [exact Hlru |].
  destruct (evictLeastFrequentlyUsed_spec s Hrange Hne) as (k & it & Hk & Heq & _).
  exists k, it. split; [exact Hk | by right].
Qed.

Lemma evicted_store s s' k it :
  evicted s s' k it -> m_thumbnails s' = delete k (m_thumbnails s).
Proof. intros [_ [-> | ->]]; reflexivity. Qed.

Lemma evicted_size s s' k it :
  evicted s s' k it -> S (size (m_thumbnails s')) = size (m_thumbnails s).
Proof.
  intros H. rewrite (evicted_store _ _ _ _ H). destruct H as [Hk _].
  rewrite map_size_delete, Hk.
  assert (size (m_thumbnails s) ≠ 0%nat); [| lia].
  apply map_size_non_empty_iff. intros Hempty.
  rewrite Hempty, lookup_empty in Hk. discriminate.
Qed.

Lemma evicted_limits s s' k it :
  evicted s s' k it ->
  m_maxCacheSize s' = m_maxCacheSize s /\ m_maxMemory s' = m_maxMemory s.
Proof. intros [_ [-> | ->]]; split; reflexivity. Qed.

Lemma evicted_frequency s s' k it p :
  evicted s s' k it ->
  frequencyOf p s' = frequencyOf p s \/ (p = k /\ frequencyOf p s' = 0).
Proof.
  intros [_ [-> | ->]]; unfold frequencyOf; simpl; [by left |].
  destruct (decide (p = k)) as [-> | Hne].
  - right. by rewrite lookup_delete_eq.
  - left. by rewrite lookup_delete_ne.
Qed.

Lemma storeInRange_intro s :
  (forall k it, m_thumbnails s !! k = Some it ->
     0 <= k /\ lastAccessed it < LLONG_MAX /\ frequencyOf k s <= INT_MAX) ->
  storeInRange s = true.
Proof.
  intros H. unfold storeInRange. apply forallb_forall. intros [k it] Hin.
  apply list_elem_of_In, elem_of_map_to_list, H in Hin. simpl.
  rewrite !andb_true_iff. lia.
Qed.

Lemma evicted_in_range s s' k it :
  evicted s s' k it -> storeInRange s = true -> storeInRange s' = true.
Proof.
  intros Hev Hrange. apply storeInRange_intro. intros k' it' Hk'.
  rewrite (evicted_store _ _ _ _ Hev) in Hk'.
  destruct (decide (k' = k)) as [-> | Hne].
  { by rewrite lookup_delete_eq in Hk'. }
  rewrite lookup_delete_ne in Hk' by done.
  destruct (storeInRange_lookup _ _ _ Hrange Hk') as (H1 & H2 & H3).
  destruct (evicted_frequency _ _ _ _ k' Hev) as [-> | [-> _]]; [done | lia].
Qed.

(** ** Eviction loops *)

Section Loops.

Variables (Inv : Model -> Prop) (cond : Model -> bool) (body : Model -> Model).

(** A loop whose body shrinks the store while the condition holds stops
    within one round per entry. *)
Lemma while_shrinking :
  (forall s, Inv s -> cond s = true ->
     Inv (body s) /\ (size (m_thumbnails (body s)) < size (m_thumbnails s))%nat) ->
  forall fuel s, Inv s -> (size (m_thumbnails s) < fuel)%nat ->
    exists s', while fuel cond body s = Some s' /\ Inv s' /\ cond s' = false.
Proof.
  intros Hbody. induction fuel as [| fuel IH]; intros s Hinv Hfuel; [lia |].
  simpl. destruct (cond s) eqn:Hc.
  - destruct (Hbody s Hinv Hc) as [Hinv' Hlt]. apply IH; [exact Hinv' | lia].
  - by exists s.
Qed.

(** Whatever a loop returns satisfies what each round preserves, and the
    condition is false there. *)
Lemma while_preserves :
  (forall s, Inv s -> cond s = true -> Inv (body s)) ->
  forall fuel s s', Inv s -> while fuel cond body s = Some s' ->
    Inv s' /\ cond s' = false.
Proof.
  intros Hbody. induction fuel as [| fuel IH]; intros s s' Hinv; simpl;
    destruct (cond s) eqn:Hc; try discriminate.
  - intros [= <-]. done.
  - intros Hw. eapply IH; [| exact Hw]. by apply Hbody.
  - intros [= <-]. done.
Qed.

(** The result of a loop does not depend on the bound, once it is enough. *)
Lemma while_more_fuel extra : forall fuel s s',
  while fuel cond body s = Some s' ->
  while (fuel + extra) cond body s = Some s'.
Proof.
  induction fuel as [| fuel IH]; intros s s'; simpl.
  - destruct (cond s) eqn:Hc; [discriminate |]. intros [= <-].
    destruct extra; simpl; by rewrite Hc.
  - destruct (cond s); [apply IH | done].
Qed.

(** A round that changes nothing while the condition holds repeats for
    ever. *)
Lemma while_stuck s :
  cond s = true -> body s = s -> forall fuel, while fuel cond body s = None.
Proof.
  intros Hc Hfix. induction fuel as [| fuel IH]; simpl; rewrite Hc; [done |].
  by rewrite Hfix.
Qed.

Hypothesis body_shrinks_or_same :
  forall s, body s = s
            \/ (size (m_thumbnails (body s)) < size (m_thumbnails s))%nat.

(** When every round removes an entry or changes nothing, a loop that is
    still running after one round per entry runs for ever: the bound
    [evictionRounds] loses no terminating run. *)
Lemma while_never_stops : forall n s,
  (size (m_thumbnails s) <= n)%nat ->
  while (S n) cond body s = None ->
  forall fuel, while fuel cond body s = None.
Proof.
  induction n as [| n IH]; intros s Hsize; simpl;
    destruct (cond s) eqn:Hc; try discriminate; intros Hnone.
  - destruct (body_shrinks_or_same s) as [Hfix | Hlt]; [| lia].
    by apply while_stuck.
  - destruct (body_shrinks_or_same s) as [Hfix | Hlt]; [by apply while_stuck |].
    intros [| fuel]; simpl; rewrite Hc; [done |].
    apply IH; [lia | exact Hnone].
Qed.

End Loops.

Lemma evictLeastRecentlyUsed_shrinks_or_same s :
  evictLeastRecentlyUsed s = s
  \/ (size (m_thumbnails (evictLeastRecentlyUsed s)) < size (m_thumbnails s))%nat.
Proof.
  unfold evictLeastRecentlyUsed.
  destruct (lruVictim (m_thumbnails s)) as [[k it] |] eqn:Hv; [| by left].
  right. apply lruVictim_spec in Hv as [Hk _].
  assert (Hev : evicted s (eraseEntry k it s) k it) by (split; [done | by left]).
  apply evicted_size in Hev. lia.
Qed.

(** [None] is divergence: an eviction loop of the model that does not return
    within [evictionRounds] does not return for any bound. *)
Lemma eviction_loop_diverges cond s :
  (while (evictionRounds s) cond evictByAdaptivePolicy s = None ->
   forall fuel, while fuel cond evictByAdaptivePolicy s = None)
  /\ (while (evictionRounds s) cond evictLeastRecentlyUsed s = None ->
      forall fuel, while fuel cond evictLeastRecentlyUsed s = None).
Proof.
  split; apply while_never_stops; try done.
  - intros s0. destruct (evict_shrinks_or_same s0) as [Hfix | (k & it & Hev)];
      [by left | right]. apply evicted_size in Hev. lia.
  - apply evictLeastRecentlyUsed_shrinks_or_same.
Qed.

(** ** The example models are reached *)

Lemma examples_are_reached :
  run page7EvictedHistory (sampleModel 10) = Some page7Evicted
  /\ run loadingOldestHistory (sampleModel 10) = Some loadingOldest
  /\ run threeReadyHistory (sampleModel 10) = Some threeReady
  /\ run thrashingHistory threeReady = Some thrashing
  /\ run loadingNewestHistory (sampleModel 10) = Some loadingNewest
  /\ run twoRequestedHistory (sampleModel 10) = Some twoRequested
  /\ run oneHugeEntryHistory (sampleModel 10) = Some oneHugeEntry
  /\ run overItemsHistory (sampleModel 10) = Some overItems
  /\ run twoCountedHistory (sampleModel 10) = Some twoCounted
  /\ run twoHotPagesHistory (sampleModel 10) = Some twoHotPages.
Proof. repeat apply conj; vm_compute; reflexivity. Qed.

(** ** Stale callbacks *)

(** C7.  A completion or a failure reported for a page that has no entry in
    the store (evicted, or cleared with the document) changes nothing: the
    model after the callback is the model before it, so the store, the
    tracked memory and every other entry are as they were and no entry is
    created for the page. *)
Theorem stale_callback_is_dropped now pageNumber pm error s :
  m_thumbnails s !! pageNumber = None ->
  onThumbnailGenerated now pageNumber pm s = Some s
  /\ onThumbnailError now pageNumber error s = s.
Proof.
  intros Habsent. unfold onThumbnailGenerated, onThumbnailError.
  rewrite Habsent. split; reflexivity.
Qed.

Lemma stale_callback_is_dropped_witness :
  m_thumbnails page7Evicted !! 7 = None
  /\ is_Some (m_thumbnails page7Evicted !! 3)
  /\ onThumbnailGenerated 5 7 (Pixmap 120 160) page7Evicted = Some page7Evicted
  /\ onThumbnailError 5 7 "decode error" page7Evicted = page7Evicted.
Proof.
  split; [vm_compute; reflexivity |].
  split; [vm_compute; eexists; reflexivity |].
  apply (stale_callback_is_dropped 5 7 (Pixmap 120 160) "decode error" page7Evicted).
  vm_compute; reflexivity.
Defined.

(** ** Invalid page indices *)

(** C9.  For a page index that is negative or not below the page count
    (every index, when there is no document), [requestThumbnail] and
    [refreshThumbnail] leave the model as it is, [data] returns the invalid
    [QVariant()] for every role and leaves the model as it is, and
    [shouldPreload] is false. *)
Theorem invalid_page_is_ignored now pageNumber role s :
  pageNumber < 0 \/ rowCount s <= pageNumber ->
  requestThumbnail now pageNumber s = s
  /\ refreshThumbnail now pageNumber s = s
  /\ data now (Index pageNumber) role s = (VInvalid, s)
  /\ shouldPreload pageNumber s = false.
Proof.
  intros Hbad.
  assert (Hno : noSuchPage pageNumber s = true).
  { unfold noSuchPage, rowCount in *. destruct (m_document s) as [d |]; [| done].
    apply orb_true_iff. rewrite Z.ltb_lt, Z.geb_le. lia. }
  unfold requestThumbnail, refreshThumbnail, shouldPreload. rewrite Hno.
  repeat split.
  unfold data, noSuchPage, rowCount in *.
  destruct (m_document s) as [d |]; [| done].
  destruct (negb (isValid (Index pageNumber))); [done |].
  simpl. simpl in Hno. by rewrite Hno.
Qed.

Lemma invalid_page_is_ignored_witness :
  (rowCount threeReady <= 10)
  /\ requestThumbnail 20 10 threeReady = threeReady
  /\ refreshThumbnail 20 10 threeReady = threeReady
  /\ data 20 (Index 10) PixmapRole threeReady = (VInvalid, threeReady)
  /\ shouldPreload 10 threeReady = false.
Proof.
  assert (H : rowCount threeReady <= 10) by (vm_compute; discriminate).
  split; [exact H |].
  apply (invalid_page_is_ignored 20 10 PixmapRole threeReady). right. exact H.
Defined.

(** ** The efficiency of a cache that was never read *)

(** C10.  [calculateCacheEfficiency] is a total function; with both counters
    at zero it returns exactly 1.0, and the adaptive policy then takes the
    recency branch: the step is the step of [evictLeastRecentlyUsed]. *)
Theorem untouched_cache_evicts_by_recency s :
  m_cacheHits s = 0 -> m_cacheMisses s = 0 ->
  calculateCacheEfficiency s = 1%float
  /\ evictByAdaptivePolicy s = evictLeastRecentlyUsed s.
Proof.
  intros Hh Hm.
  assert (He : calculateCacheEfficiency s = 1%float).
  { unfold calculateCacheEfficiency. rewrite Hh, Hm. reflexivity. }
  split; [exact He |].
  unfold evictByAdaptivePolicy. rewrite He.
  destruct (negb (m_adaptiveCaching s)); reflexivity.
Qed.

Lemma untouched_cache_evicts_by_recency_witness :
  calculateCacheEfficiency loadingOldest = 1%float
  /\ evictByAdaptivePolicy loadingOldest = evictLeastRecentlyUsed loadingOldest.
Proof.
  apply (untouched_cache_evicts_by_recency loadingOldest); vm_compute; reflexivity.
Defined.

(** ** Requests that are skipped *)

(** C5.  When the page's entry is loading or holds an image, [requestThumbnail]
    makes no call to the generator and leaves the tracked memory and every
    entry's image, flags and error as they are: the store is unchanged, or
    (for an entry with an image) only that entry's [lastAccessed] is set to
    the current time, the access being counted in the frequency table.  An
    entry that is loading and has no image leaves the whole model
    unchanged. *)
Theorem request_for_loading_or_cached_page_is_skipped now pageNumber it s :
  m_thumbnails s !! pageNumber = Some it ->
  isLoading it = true \/ isNull (pixmap it) = false ->
  let s' := requestThumbnail now pageNumber s in
  generatorRequests s' = generatorRequests s
  /\ m_currentMemory s' = m_currentMemory s
  /\ (m_thumbnails s' = m_thumbnails s
      \/ m_thumbnails s' = <[pageNumber := withLastAccessed now it]> (m_thumbnails s))
  /\ (isNull (pixmap it) = true -> s' = s).
Proof.
  intros Hk Hskip. unfold requestThumbnail.
  destruct (noSuchPage pageNumber s); [by repeat split; try left |].
  destruct (m_lazyLoadingEnabled s && negb (shouldGenerateThumbnail pageNumber s));
    [by repeat split; try left |].
  rewrite Hk. destruct (isNull (pixmap it)) eqn:Hnull; simpl.
  - destruct Hskip as [-> | ?]; [| discriminate]. by repeat split; try left.
  - unfold updateAccessFrequency. simpl.
    match goal with |- context [if ?c then _ else _] => destruct c end; simpl;
      (split; [reflexivity |]; split; [reflexivity |]; split; [by right | discriminate]).
Qed.

Lemma request_for_loading_or_cached_page_is_skipped_witness :
  generatorRequests (requestThumbnail 10 0 loadingOldest) = generatorRequests loadingOldest
  /\ requestThumbnail 10 0 loadingOldest = loadingOldest
  /\ generatorRequests (requestThumbnail 10 1 loadingOldest) = generatorRequests loadingOldest.
Proof.
  destruct (m_thumbnails loadingOldest !! 0) as [it0 |] eqn:H0; [| vm_compute in H0; discriminate].
  destruct (m_thumbnails loadingOldest !! 1) as [it1 |] eqn:H1; [| vm_compute in H1; discriminate].
  assert (L0 : isLoading it0 = true) by (vm_compute in H0; injection H0 as <-; reflexivity).
  assert (N0 : isNull (pixmap it0) = true) by (vm_compute in H0; injection H0 as <-; reflexivity).
  assert (N1 : isNull (pixmap it1) = false) by (vm_compute in H1; injection H1 as <-; reflexivity).
  pose proof (request_for_loading_or_cached_page_is_skipped 10 0 it0 loadingOldest H0 (or_introl L0)) as A.
  pose proof (request_for_loading_or_cached_page_is_skipped 10 1 it1 loadingOldest H1 (or_intror N1)) as B.
  cbv zeta in A, B.
  split; [apply A |]. split; [apply A, N0 | apply B].
Defined.

(** ** The viewport scenario *)

(** Page 8 is [m_visibleStart - m_viewportMargin]: the first page of the
    expanded range, so it is eligible. *)
Lemma page_8_is_eligible : ~ viewportScenarioAsWorded (sampleModel 100).
Proof.
  unfold viewportScenarioAsWorded. intros (_ & _ & _ & _ & H8 & _).
  vm_compute in H8. discriminate.
Qed.

Lemma priorities_after_10_15_2 s d :
  m_document s = Some d -> 18 <= numPages d <= INT_MAX ->
  m_lazyLoadingEnabled s = true ->
  m_pagePriorities (setViewportRange 10 15 2 s)
  = foldl (fun (m : gmap Z Z) i => <[i := 1]> m)
      (foldl (fun (m : gmap Z Z) i => <[i := 0]> m) ∅ [10; 11; 12; 13; 14; 15])
      [8; 9; 16; 17].
Proof.
  unfold INT_MAX. intros Hdoc Hpages Hlazy.
  unfold setViewportRange. simpl. rewrite Hlazy.
  unfold updateViewportPriorities. simpl. rewrite Hdoc.
  rewrite (wrap32_small (numPages d - 1)) by lia.
  change (wrap32 (15 + 2)) with 17.
  rewrite (Z.min_r (numPages d - 1) 17) by lia.
  simpl.
  repeat match goal with
         | |- context [?i <? numPages d] =>
             replace (i <? numPages d) with true
               by (symmetry; apply Z.ltb_lt; simpl; lia)
         end.
  reflexivity.
Qed.

(** C6 (amended).  After [setViewportRange(10, 15, 2)] on a model with lazy
    loading enabled and a document of at least 18 pages: page 12 has tier 0,
    pages 9 and 17 have tier 1, page 50 has the default tier 5; pages 8 and 9
    are eligible for generation (8 is the first page of the expanded range
    [8, 17]) and page 7 is not. *)
Theorem viewport_scenario s d :
  m_document s = Some d -> 18 <= numPages d <= INT_MAX ->
  m_lazyLoadingEnabled s = true ->
  let s' := setViewportRange 10 15 2 s in
  calculatePriority 12 s' = 0
  /\ calculatePriority 9 s' = 1
  /\ calculatePriority 17 s' = 1
  /\ calculatePriority 50 s' = 5
  /\ isInViewport 7 s' = false /\ shouldGenerateThumbnail 7 s' = false
  /\ isInViewport 8 s' = true /\ shouldGenerateThumbnail 8 s' = true
  /\ isInViewport 9 s' = true /\ shouldGenerateThumbnail 9 s' = true.
Proof.
  intros Hdoc Hpages Hlazy s'.
  pose proof (priorities_after_10_15_2 s d Hdoc Hpages Hlazy) as Hprio.
  fold s' in Hprio.
  assert (Hview : m_visibleStart s' = 10 /\ m_visibleEnd s' = 15
                  /\ m_viewportMargin s' = 2 /\ m_lazyLoadingEnabled s' = true).
  { unfold s', setViewportRange. simpl. rewrite Hlazy.
    unfold updateViewportPriorities. simpl. rewrite Hdoc. by simpl. }
  destruct Hview as (Hs & He & Hm & Hl).
  unfold calculatePriority, shouldGenerateThumbnail, isInViewport.
  rewrite Hprio, Hs, He, Hm, Hl.
  repeat split; reflexivity.
Qed.

Lemma viewport_scenario_witness :
  let s' := setViewportRange 10 15 2 (sampleModel 100) in
  calculatePriority 12 s' = 0
  /\ calculatePriority 9 s' = 1
  /\ calculatePriority 17 s' = 1
  /\ calculatePriority 50 s' = 5
  /\ isInViewport 7 s' = false /\ shouldGenerateThumbnail 7 s' = false
  /\ isInViewport 8 s' = true /\ shouldGenerateThumbnail 8 s' = true
  /\ isInViewport 9 s' = true /\ shouldGenerateThumbnail 9 s' = true.
Proof.
  apply (viewport_scenario (sampleModel 100) (mkDocument 100 (fun _ => Some (mkQSize 595 842)))).
  - reflexivity.
  - unfold INT_MAX. simpl. lia.
  - reflexivity.
Defined.

(** ** Which entry an eviction step removes *)

(** Whatever the store holds, the frequency step changes nothing or removes
    an entry whose (count, timestamp) pair is least. *)
Lemma evictLeastFrequentlyUsed_cases s :
  evictLeastFrequentlyUsed s = s
  \/ exists k it,
       m_thumbnails s !! k = Some it
       /\ evictLeastFrequentlyUsed s
          = setAccessFrequency (delete k (m_accessFrequency s)) (eraseEntry k it s)
       /\ forall k' it', m_thumbnails s !! k' = Some it' ->
            lexLe (frequencyOf k s, lastAccessed it) (frequencyOf k' s, lastAccessed it').
Proof.
  unfold evictLeastFrequentlyUsed.
  destruct (isEmpty (m_thumbnails s)); [by left |].
  destruct (lfu_fold_spec s (map_to_list (m_thumbnails s)) (-1, INT_MAX, LLONG_MAX))
    as (Hin & _ & Hall).
  fold (lfuScan s) in Hin, Hall.
  destruct Hin as [Hr | ((k & it) & He & Hr)]; rewrite Hr in *; simpl in *.
  - by left.
  - apply elem_of_map_to_list in He.
    destruct (k >=? 0); [| by left]. rewrite He. right. exists k, it.
    split; [exact He |]. split; [reflexivity |].
    intros k' it' Hk'. apply elem_of_map_to_list in Hk'.
    apply (Hall _ Hk').
Qed.

Lemma eraseEntry_keeps s k it k' :
  k' ≠ k -> m_thumbnails (eraseEntry k it s) !! k' = m_thumbnails s !! k'.
Proof. intros Hne. simpl. by rewrite lookup_delete_ne. Qed.

(** Comparing a [double] below 0.5 with the literal 0.7. *)
Lemma compare_cont_trans (m a b : positive) :
  (a < b)%positive ->
  match Pos.compare_cont Eq m a with Lt => true | _ => false end = true ->
  match Pos.compare_cont Eq b m with Lt => true | _ => false end = false.
Proof.
  change (Pos.compare_cont Eq m a) with (Pos.compare m a).
  change (Pos.compare_cont Eq b m) with (Pos.compare b m).
  intros Hab H. destruct (Pos.compare_spec m a) as [Hm | Hm | Hm]; try discriminate H.
  assert (Hbm : (m < b)%positive) by (eapply Pos.lt_trans; eassumption).
  apply Pos.compare_gt_iff in Hbm. rewrite Hbm. reflexivity.
Qed.




(** ** Loading entries and eviction *)

(** Page 0 is loading and page 1 is ready, yet the recency step, and with it
    the adaptive step, removes page 0: it has the older timestamp. *)
Lemma loading_entry_is_evicted :
  ~ loadingProtected evictLeastRecentlyUsed loadingOldest
  /\ ~ loadingProtected evictByAdaptivePolicy loadingOldest.
Proof.
  assert (Hready : exists k' it',
             m_thumbnails loadingOldest !! k' = Some it' /\ readyOrErrored it' = true).
  { exists 1. eexists. split; vm_compute; reflexivity. }
  assert (H0 : exists it, m_thumbnails loadingOldest !! 0 = Some it /\ isLoading it = true).
  { eexists. split; vm_compute; reflexivity. }
  destruct H0 as (it & H0 & Hl).
  split; intros Hprot; specialize (Hprot Hready 0 it H0 Hl);
    vm_compute in Hprot; discriminate.
Qed.

Lemma evictLeastRecentlyUsed_keeps s k it k' it' :
  m_thumbnails s !! k = Some it -> m_thumbnails s !! k' = Some it' ->
  lastAccessed it' < lastAccessed it ->
  m_thumbnails (evictLeastRecentlyUsed s) !! k = Some it.
Proof.
  intros Hk Hk' Hlt.
  assert (Hne : m_thumbnails s ≠ ∅).
  { intros Hempty. rewrite Hempty, lookup_empty in Hk. discriminate. }
  destruct (evictLeastRecentlyUsed_spec s Hne) as (v & vit & Hv & -> & Hmin).
  rewrite eraseEntry_keeps; [exact Hk |].
  intros ->. rewrite Hk in Hv. injection Hv as <-.
  specialize (Hmin k' it' Hk'). lia.
Qed.

Lemma evictLeastFrequentlyUsed_keeps s k it k' it' :
  m_thumbnails s !! k = Some it -> m_thumbnails s !! k' = Some it' ->
  lexLt (frequencyOf k' s, lastAccessed it') (frequencyOf k s, lastAccessed it) ->
  m_thumbnails (evictLeastFrequentlyUsed s) !! k = Some it.
Proof.
  intros Hk Hk' Hlt.
  destruct (evictLeastFrequentlyUsed_cases s) as [-> | (v & vit & Hv & -> & Hmin)];
    [exact Hk |].
  change (m_thumbnails (eraseEntry v vit s) !! k = Some it).
  rewrite eraseEntry_keeps; [exact Hk |].
  intros ->. rewrite Hk in Hv. injection Hv as <-.
  specialize (Hmin k' it' Hk'). unfold lexLe, lexLt in *. simpl in *. lia.
Qed.

(** C3 (amended).  No eviction step looks at [isLoading]: the victim is the
    least entry by [lastAccessed] (recency step) or by access count, then
    [lastAccessed] (frequency step).  So a loading entry stays in the store
    through a step as long as some other entry, ready, errored or not, is
    strictly smaller in that order: strictly older for the recency step,
    strictly smaller in (count, timestamp) for the frequency step, and
    strictly older with a count not above its own for the adaptive step. *)
Theorem loading_entry_survives_while_not_least s k it k' it' :
  m_thumbnails s !! k = Some it -> isLoading it = true ->
  m_thumbnails s !! k' = Some it' ->
  (lastAccessed it' < lastAccessed it ->
     m_thumbnails (evictLeastRecentlyUsed s) !! k = Some it)
  /\ (lexLt (frequencyOf k' s, lastAccessed it') (frequencyOf k s, lastAccessed it) ->
        m_thumbnails (evictLeastFrequentlyUsed s) !! k = Some it)
  /\ (lastAccessed it' < lastAccessed it -> frequencyOf k' s <= frequencyOf k s ->
        m_thumbnails (evictByAdaptivePolicy s) !! k = Some it).
Proof.
  intros Hk _ Hk'. split; [| split].
  - by apply (evictLeastRecentlyUsed_keeps s k it k' it').
  - by apply (evictLeastFrequentlyUsed_keeps s k it k' it').
  - intros Hlt Hfreq. unfold evictByAdaptivePolicy.
    destruct (negb (m_adaptiveCaching s));
      [by apply (evictLeastRecentlyUsed_keeps s k it k' it') |].
    destruct (0.7 <? calculateCacheEfficiency s)%float;
      [by apply (evictLeastRecentlyUsed_keeps s k it k' it') |].
    apply (evictLeastFrequentlyUsed_keeps s k it k' it'); [done | done |].
    unfold lexLt. simpl. lia.
Qed.

Lemma loading_entry_survives_while_not_least_witness :
  exists it,
    m_thumbnails loadingNewest !! 2 = Some it /\ isLoading it = true
    /\ m_thumbnails (evictLeastRecentlyUsed loadingNewest) !! 2 = Some it
    /\ m_thumbnails (evictLeastFrequentlyUsed loadingNewest) !! 2 = Some it
    /\ m_thumbnails (evictByAdaptivePolicy loadingNewest) !! 2 = Some it.
Proof.
  destruct (m_thumbnails loadingNewest !! 2) as [it |] eqn:H2;
    [| vm_compute in H2; discriminate].
  destruct (m_thumbnails loadingNewest !! 0) as [it' |] eqn:H0;
    [| vm_compute in H0; discriminate].
  assert (Hl : isLoading it = true)
    by (vm_compute in H2; injection H2 as <-; reflexivity).
  assert (Hold : lastAccessed it' < lastAccessed it)
    by (vm_compute in H2, H0; injection H2 as <-; injection H0 as <-; reflexivity).
  assert (Hf : frequencyOf 0 loadingNewest <= frequencyOf 2 loadingNewest)
    by (vm_compute; discriminate).
  destruct (loading_entry_survives_while_not_least loadingNewest 2 it 0 it' H2 Hl H0)
    as (A & B & C).
  exists it. split; [reflexivity |]. split; [exact Hl |].
  split; [exact (A Hold) |]. split; [| exact (C Hold Hf)].
  apply B. right. split; [vm_compute; reflexivity | exact Hold].
Defined.

(** ** The two ceilings *)

(** A completion does not enforce the item ceiling (two entries stay under a
    ceiling of one), and [cleanupCache] removes the only entry of the store
    when it is over the byte ceiling. *)
Lemma ceilings_are_not_kept :
  (exists s', onThumbnailGenerated 3 0 (Pixmap 120 160) twoRequested = Some s'
              /\ ~ ceilingsHold s')
  /\ (exists s', cleanupCache 40000 oneHugeEntry = Some s'
                 /\ storeSize oneHugeEntry = 1 /\ storeSize s' = 0).
Proof.
  split.
  - eexists. split; [vm_compute; reflexivity |].
    unfold ceilingsHold. intros [[Hsize _] | Hone].
    + vm_compute in Hsize. by apply Hsize.
    + vm_compute in Hone. discriminate.
  - eexists. split; [vm_compute; reflexivity |]. split; vm_compute; reflexivity.
Qed.

Lemma storeInRange_ext s1 s2 :
  m_thumbnails s1 = m_thumbnails s2 -> m_accessFrequency s1 = m_accessFrequency s2 ->
  storeInRange s1 = storeInRange s2.
Proof. intros Ht Hf. unfold storeInRange, frequencyOf. by rewrite Ht, Hf. Qed.

Lemma nonempty_of_size s : 0 < storeSize s -> m_thumbnails s ≠ ∅.
Proof.
  unfold storeSize. intros Hpos Hempty. rewrite Hempty, map_size_empty in Hpos. lia.
Qed.

Lemma adaptCacheSize_spec now s :
  0 <= m_maxCacheSize s <= INT_MAX - 10 ->
  let s1 := adaptCacheSize now s in
  m_thumbnails s1 = m_thumbnails s
  /\ m_accessFrequency s1 = m_accessFrequency s
  /\ 0 <= m_maxCacheSize s1.
Proof.
  unfold INT_MAX. intros Hc. unfold adaptCacheSize.
  destruct (_ <? 30000); [by repeat split; try lia |].
  cbv zeta.
  destruct (_ && _); [| destruct (_ <? 0.5)%float]; simpl; repeat split; try lia.
  rewrite wrap32_small; lia.
Qed.

(** The eviction loop of [onThumbnailGenerated] stops, keeps one entry, and
    leaves the tracked bytes under the ceiling unless one entry remains. *)
Lemma completion_loop s :
  storeInRange s = true -> 1 <= storeSize s ->
  exists s',
    while (evictionRounds s)
          (fun s => overByteCeiling s && (1 <? Z.of_nat (size (m_thumbnails s))))
          evictByAdaptivePolicy s = Some s'
    /\ 1 <= storeSize s'
    /\ (m_currentMemory s' <= m_maxMemory s' \/ storeSize s' = 1).
Proof.
  intros Hrange Hsize.
  destruct (while_shrinking
              (fun s => storeInRange s = true /\ 1 <= storeSize s)
              (fun s => overByteCeiling s && (1 <? Z.of_nat (size (m_thumbnails s))))
              evictByAdaptivePolicy) with (fuel := evictionRounds s) (s := s)
    as (s' & Hw & [_ Hone] & Hcond).
  - intros s0 [Hr Hs] Hc. apply andb_true_iff in Hc as [_ Hc]. apply Z.ltb_lt in Hc.
    destruct (evict_progress s0 Hr) as (k & it & Hev).
    { apply nonempty_of_size. unfold storeSize. lia. }
    pose proof (evicted_size _ _ _ _ Hev) as Hsz.
    split; [split |].
    + by eapply evicted_in_range.
    + unfold storeSize. lia.
    + lia.
  - by split.
  - unfold evictionRounds. lia.
  - exists s'. split; [exact Hw |]. split; [exact Hone |].
    apply andb_false_iff in Hcond as [Hc | Hc].
    + left. unfold overByteCeiling in Hc. destruct (Z.gtb_spec (m_currentMemory s') (m_maxMemory s')); [discriminate | lia].
    + right. apply Z.ltb_ge in Hc. unfold storeSize in *. lia.
Qed.

(** A loop of eviction steps under the item ceiling. *)
Lemma item_ceiling_loop s :
  storeInRange s = true -> 0 <= m_maxCacheSize s ->
  exists s',
    while (evictionRounds s) overItemCeiling evictByAdaptivePolicy s = Some s'
    /\ storeInRange s' = true
    /\ m_maxCacheSize s' = m_maxCacheSize s
    /\ storeSize s' <= m_maxCacheSize s'.
Proof.
  intros Hrange Hc.
  destruct (while_shrinking
              (fun s0 => storeInRange s0 = true /\ m_maxCacheSize s0 = m_maxCacheSize s)
              overItemCeiling evictByAdaptivePolicy)
    with (fuel := evictionRounds s) (s := s)
    as (s' & Hw & [Hr Hm] & Hcond).
  - intros s0 [Hr Hm] Hover. unfold overItemCeiling in Hover.
    destruct (Z.gtb_spec (Z.of_nat (size (m_thumbnails s0))) (m_maxCacheSize s0));
      [| discriminate].
    destruct (evict_progress s0 Hr) as (k & it & Hev).
    { apply nonempty_of_size. unfold storeSize. lia. }
    pose proof (evicted_size _ _ _ _ Hev) as Hsz.
    destruct (evicted_limits _ _ _ _ Hev) as [Hl _].
    split; [split |].
    + by eapply evicted_in_range.
    + congruence.
    + lia.
  - by split.
  - unfold evictionRounds. lia.
  - exists s'. repeat split; try done.
    unfold overItemCeiling in Hcond. unfold storeSize.
    destruct (Z.gtb_spec (Z.of_nat (size (m_thumbnails s'))) (m_maxCacheSize s'));
      [discriminate | lia].
Qed.

(** The byte-ceiling loop of [cleanupCache]. *)
Lemma byte_ceiling_loop s :
  storeInRange s = true -> storeSize s <= m_maxCacheSize s ->
  exists s',
    while (evictionRounds s)
          (fun s => overByteCeiling s && negb (isEmpty (m_thumbnails s)))
          evictByAdaptivePolicy s = Some s'
    /\ storeSize s' <= m_maxCacheSize s'
    /\ (m_currentMemory s' <= m_maxMemory s' \/ storeSize s' = 0).
Proof.
  intros Hrange Hc.
  destruct (while_shrinking
              (fun s0 => storeInRange s0 = true /\ storeSize s0 <= m_maxCacheSize s0)
              (fun s => overByteCeiling s && negb (isEmpty (m_thumbnails s)))
              evictByAdaptivePolicy)
    with (fuel := evictionRounds s) (s := s)
    as (s' & Hw & [Hr Hm] & Hcond).
  - intros s0 [Hr Hm] Hover. apply andb_true_iff in Hover as [_ Hne].
    apply negb_true_iff, isEmpty_false in Hne.
    destruct (evict_progress s0 Hr Hne) as (k & it & Hev).
    pose proof (evicted_size _ _ _ _ Hev) as Hsz.
    destruct (evicted_limits _ _ _ _ Hev) as [Hl _].
    split; [split |].
    + by eapply evicted_in_range.
    + unfold storeSize in *. lia.
    + lia.
  - by split.
  - unfold evictionRounds. lia.
  - exists s'. split; [exact Hw |]. split; [exact Hm |].
    apply andb_false_iff in Hcond as [Hcond | Hcond].
    + left. unfold overByteCeiling in Hcond.
      destruct (Z.gtb_spec (m_currentMemory s') (m_maxMemory s')); [discriminate | lia].
    + right. apply negb_false_iff, isEmpty_true in Hcond.
      unfold storeSize. by rewrite Hcond, map_size_empty.
Qed.

(** C2 (amended).  On a store whose keys, timestamps and counters are in
    their machine ranges:
    - a completion for a tracked page returns, never empties the store, and
      leaves the tracked bytes at or under [m_maxMemory] unless exactly one
      entry remains; it does not enforce the item ceiling;
    - [cleanupCache] (with the item ceiling in the range the code keeps it
      in) returns with at most [m_maxCacheSize] entries and with the tracked
      bytes at or under [m_maxMemory] unless the store is empty: its byte
      loop stops at the empty store, not at the last entry. *)
Theorem ceilings_after_completion_and_cleanup now s :
  storeInRange s = true -> now < LLONG_MAX ->
  0 <= m_maxCacheSize s <= INT_MAX - 10 ->
  (forall pageNumber pm,
     is_Some (m_thumbnails s !! pageNumber) ->
     exists s',
       onThumbnailGenerated now pageNumber pm s = Some s'
       /\ 1 <= storeSize s'
       /\ (m_currentMemory s' <= m_maxMemory s' \/ storeSize s' = 1))
  /\ (exists s',
        cleanupCache now s = Some s'
        /\ storeSize s' <= m_maxCacheSize s'
        /\ (m_currentMemory s' <= m_maxMemory s' \/ storeSize s' = 0)).
Proof.
  intros Hrange Hnow Hceil. split.
  - intros pageNumber pm [it Hk]. unfold onThumbnailGenerated. rewrite Hk.
    apply completion_loop.
    + apply storeInRange_intro. simpl. intros k it' Hlook.
      destruct (storeInRange_lookup _ _ _ Hrange Hk) as (Hp & _ & Hf).
      destruct (decide (k = pageNumber)) as [-> | Hne].
      * rewrite lookup_insert_eq in Hlook. injection Hlook as <-. simpl.
        repeat split; try done.
      * rewrite lookup_insert_ne in Hlook by done.
        apply (storeInRange_lookup _ _ _ Hrange Hlook).
    + unfold storeSize. simpl.
      assert (size (<[pageNumber := withMemorySize (calculatePixmapMemory pm)
                (withLastAccessed now
                   (withError false EmptyString (withLoading false (withPixmap pm it))))]>
                (m_thumbnails s)) ≠ 0%nat); [| lia].
      apply map_size_non_empty_iff. intros Hempty.
      apply (f_equal (fun t : gmap Z ThumbnailItem => t !! pageNumber)) in Hempty.
      by rewrite lookup_insert_eq, lookup_empty in Hempty.
  - unfold cleanupCache. destruct (isEmpty (m_thumbnails s)) eqn:Hempty.
    + exists s. split; [reflexivity |].
      apply isEmpty_true in Hempty. unfold storeSize. rewrite Hempty, map_size_empty.
      split; [lia | by right].
    + destruct (adaptCacheSize_spec now s Hceil) as (Ht & Hf & Hc).
      set (s1 := adaptCacheSize now s) in *.
      assert (Hrange1 : storeInRange s1 = true)
        by (rewrite (storeInRange_ext s1 s Ht Hf); exact Hrange).
      destruct (item_ceiling_loop s1 Hrange1 Hc) as (s2 & Hw & Hrange2 & _ & Hsize2).
      rewrite Hw. by apply byte_ceiling_loop.
Qed.

Lemma ceilings_after_completion_and_cleanup_witness :
  (exists s',
     onThumbnailGenerated 50 1 (Pixmap 600 800) overItems = Some s'
     /\ 1 <= storeSize s'
     /\ (m_currentMemory s' <= m_maxMemory s' \/ storeSize s' = 1))
  /\ (exists s',
        cleanupCache 50 overItems = Some s'
        /\ storeSize s' <= m_maxCacheSize s'
        /\ (m_currentMemory s' <= m_maxMemory s' \/ storeSize s' = 0)).
Proof.
  assert (H : storeInRange overItems = true) by (vm_compute; reflexivity).
  assert (Hnow : 50 < LLONG_MAX) by (vm_compute; reflexivity).
  assert (Hc : 0 <= m_maxCacheSize overItems <= INT_MAX - 10)
    by (split; vm_compute; discriminate).
  destruct (ceilings_after_completion_and_cleanup 50 overItems H Hnow Hc) as [A B].
  split; [| exact B].
  apply A. vm_compute. eexists. reflexivity.
Defined.

(** ** Access counters *)

(** Reading page 2 brings the table to three pages, more than twice the item
    ceiling: every counter that is at most 1 is dropped, and the counter of
    page 0 falls from 1 to 0.  A completion that puts the cache over its byte
    ceiling evicts page 0 by frequency, and its counter falls from 2 to 0. *)
Lemma counter_decreases :
  (frequencyOf 0 twoCounted = 1
   /\ exists s', step 9 (OpData (Index 2) PixmapRole) twoCounted = Some s'
                 /\ frequencyOf 0 s' = 0)
  /\ (frequencyOf 0 twoHotPages = 2
      /\ exists s', step 14 (OpThumbnailGenerated 1 (Pixmap 8000 8000)) twoHotPages = Some s'
                    /\ frequencyOf 0 s' = 0).
Proof.
  split; (split; [vm_compute; reflexivity |]);
    eexists; split; vm_compute; reflexivity.
Qed.

Lemma same_counters s s' p :
  m_accessFrequency s' = m_accessFrequency s -> counterGrowsOrResets s s' p.
Proof. intros H. left. unfold frequencyOf. rewrite H. lia. Qed.

Lemma frequencyOf_set f s p :
  frequencyOf p (setAccessFrequency f s) = default 0 (f !! p).
Proof. reflexivity. Qed.

Lemma updateAccessFrequency_counter q s p :
  frequencyOf p s < INT_MAX ->
  frequencyOf p s <= frequencyOf p (updateAccessFrequency q s)
  \/ (frequencyOf p (updateAccessFrequency q s) = 0 /\ frequencyOf p s <= 1).
Proof.
  intros Hlt. unfold updateAccessFrequency.
  set (counted := <[q := wrap32 (frequencyOf q s + 1)]> (m_accessFrequency s)).
  assert (Hge : frequencyOf p s <= default 0 (counted !! p)).
  { unfold counted. destruct (decide (p = q)) as [-> | Hne].
    - rewrite lookup_insert_eq. simpl. by apply wrap32_succ_ge.
    - rewrite lookup_insert_ne by done. unfold frequencyOf. lia. }
  destruct (Z.of_nat (size counted) >? wrap32 (m_maxCacheSize s * 2));
    rewrite !frequencyOf_set; [| by left].
  destruct (counted !! p) as [v |] eqn:Hv; simpl in Hge.
  - destruct (decide (v <= 1)) as [Hsmall | Hbig].
    + right. rewrite (proj2 (map_lookup_filter_None _ counted p)); [simpl; lia |].
      right. intros v' Hv'. simpl. rewrite Hv in Hv'. injection Hv' as <-. tauto.
    + left. rewrite (proj2 (map_lookup_filter_Some _ counted p v)); [simpl; lia |].
      split; [exact Hv | simpl; lia].
  - left. rewrite (proj2 (map_lookup_filter_None _ counted p)); [simpl; lia |].
    by left.
Qed.

Lemma markLoadingAndDispatch_counters now q s :
  m_accessFrequency (markLoadingAndDispatch now q s) = m_accessFrequency s.
Proof. reflexivity. Qed.

(** A request counts an access only when the entry holds an image. *)
Lemma requestThumbnail_no_count now q s :
  (forall it, m_thumbnails s !! q = Some it -> isNull (pixmap it) = true) ->
  m_accessFrequency (requestThumbnail now q s) = m_accessFrequency s.
Proof.
  intros Hnull. unfold requestThumbnail.
  destruct (noSuchPage q s); [reflexivity |].
  destruct (m_lazyLoadingEnabled s && negb (shouldGenerateThumbnail q s)); [reflexivity |].
  destruct (m_thumbnails s !! q) as [it |] eqn:Hq; [| reflexivity].
  rewrite (Hnull it eq_refl). simpl.
  destruct (isLoading it); [reflexivity |]. destruct (hasError it); reflexivity.
Qed.

Lemma requestThumbnail_counter now q s p :
  frequencyOf p s < INT_MAX ->
  frequencyOf p s <= frequencyOf p (requestThumbnail now q s)
  \/ (frequencyOf p (requestThumbnail now q s) = 0 /\ frequencyOf p s <= 1).
Proof.
  intros Hlt. unfold requestThumbnail.
  destruct (noSuchPage q s); [left; lia |].
  destruct (m_lazyLoadingEnabled s && negb (shouldGenerateThumbnail q s)); [left; lia |].
  destruct (m_thumbnails s !! q) as [it |] eqn:Hq; [| left; reflexivity].
  destruct (negb (isNull (pixmap it))).
  - apply (updateAccessFrequency_counter q
             (setThumbnails (<[q := withLastAccessed now it]> (m_thumbnails s)) s) p Hlt).
  - destruct (isLoading it); [left; lia |]. destruct (hasError it); left; reflexivity.
Qed.

Lemma requestThumbnailRange_counters now a b s :
  m_accessFrequency (requestThumbnailRange now a b s) = m_accessFrequency s.
Proof.
  unfold requestThumbnailRange. destruct (m_document s) as [d |]; [| reflexivity].
  generalize (pagesFromTo (Z.max 0 a) (Z.min (wrap32 (numPages d - 1)) b)).
  intros l. revert s. induction l as [| i l IH]; intros s; [reflexivity |].
  simpl. rewrite IH.
  destruct (m_thumbnails s !! i) as [it |] eqn:Hi.
  - destruct (isNull (pixmap it)) eqn:Hnull; simpl; [| reflexivity].
    destruct (negb (isLoading it)); [| reflexivity].
    apply requestThumbnail_no_count. intros it' Hit'. congruence.
  - apply requestThumbnail_no_count. intros it' Hit'. congruence.
Qed.

Lemma refreshThumbnail_counters now q s :
  m_accessFrequency (refreshThumbnail now q s) = m_accessFrequency s.
Proof.
  unfold refreshThumbnail. destruct (noSuchPage q s); [reflexivity |].
  rewrite requestThumbnail_no_count.
  - destruct (m_thumbnails s !! q); reflexivity.
  - intros it. destruct (m_thumbnails s !! q) as [it0 |] eqn:Hq; simpl.
    + by rewrite lookup_delete_eq.
    + by rewrite Hq.
Qed.

Lemma evictLeastRecentlyUsed_counters s :
  m_accessFrequency (evictLeastRecentlyUsed s) = m_accessFrequency s.
Proof.
  unfold evictLeastRecentlyUsed.
  destruct (lruVictim (m_thumbnails s)) as [[k it] |]; reflexivity.
Qed.

Lemma recency_loop_counters cond fuel : forall s s',
  while fuel cond evictLeastRecentlyUsed s = Some s' ->
  m_accessFrequency s' = m_accessFrequency s.
Proof.
  induction fuel as [| fuel IH]; intros s s'; simpl; destruct (cond s);
    try discriminate; try (by intros [= <-]).
  intros Hw. rewrite (IH _ _ Hw). apply evictLeastRecentlyUsed_counters.
Qed.

(** Through a loop of eviction steps no entry appears, and a counter is
    unchanged, or is zero for a page that had an entry and has none
    afterwards. *)
Lemma eviction_loop_counters cond fuel s s' p :
  while fuel cond evictByAdaptivePolicy s = Some s' ->
  (forall k, is_Some (m_thumbnails s' !! k) -> is_Some (m_thumbnails s !! k))
  /\ (frequencyOf p s' = frequencyOf p s
      \/ (frequencyOf p s' = 0
          /\ is_Some (m_thumbnails s !! p) /\ m_thumbnails s' !! p = None)).
Proof.
  intros Hw.
  destruct (while_preserves
              (fun s0 =>
                 (forall k, is_Some (m_thumbnails s0 !! k) -> is_Some (m_thumbnails s !! k))
                 /\ (frequencyOf p s0 = frequencyOf p s
                     \/ (frequencyOf p s0 = 0
                         /\ is_Some (m_thumbnails s !! p) /\ m_thumbnails s0 !! p = None)))
              cond evictByAdaptivePolicy) with (fuel := fuel) (s := s) (s' := s')
    as [H _]; [| by split; [| left] | exact Hw | exact H].
  intros s0 [Hsub Hp] _.
  destruct (evict_shrinks_or_same s0) as [-> | (k & it & Hev)]; [by split |].
  pose proof (evicted_store _ _ _ _ Hev) as Hstore.
  split.
  - intros k' Hk'. rewrite Hstore in Hk'. apply Hsub.
    destruct (decide (k' = k)) as [-> | Hne].
    + rewrite lookup_delete_eq in Hk'. by destruct Hk'.
    + by rewrite lookup_delete_ne in Hk'.
  - destruct (evicted_frequency _ _ _ _ p Hev) as [Hsame | [-> Hzero]].
    + rewrite Hsame. destruct Hp as [Hp | (Hz & Hin & Hout)]; [by left |].
      right. split; [exact Hz |]. split; [exact Hin |].
      rewrite Hstore. destruct (decide (p = k)) as [-> | Hne].
      * apply lookup_delete_eq.
      * by rewrite lookup_delete_ne.
    + right. split; [exact Hzero |]. split.
      * apply Hsub. destruct Hev as [Hk _]. by rewrite Hk.
      * rewrite Hstore. apply lookup_delete_eq.
Qed.

Lemma adaptCacheSize_store now s :
  m_thumbnails (adaptCacheSize now s) = m_thumbnails s
  /\ m_accessFrequency (adaptCacheSize now s) = m_accessFrequency s.
Proof.
  unfold adaptCacheSize. destruct (_ <? 30000); [done |]. cbv zeta.
  destruct (_ && _); [| destruct (_ <? 0.5)%float]; done.
Qed.

Lemma data_counter now index role s p :
  frequencyOf p s < INT_MAX ->
  frequencyOf p s <= frequencyOf p (data now index role s).2
  \/ (frequencyOf p (data now index role s).2 = 0 /\ frequencyOf p s <= 1).
Proof.
  intros Hlt. unfold data.
  destruct (m_document s) as [d |]; [| left; simpl; lia].
  destruct (negb (isValid index)); [left; simpl; lia |].
  destruct ((row index <? 0) || (row index >=? numPages d)); [left; simpl; lia |].
  destruct role; try (left; simpl; lia).
  - (* PixmapRole *)
    destruct (m_thumbnails s !! row index) as [it |] eqn:Hq.
    + set (touched := setThumbnails
                        (<[row index := withLastAccessed now it]> (m_thumbnails s)) s).
      pose proof (updateAccessFrequency_counter (row index) touched p Hlt) as Hcount.
      destruct (negb (isNull (pixmap it))) eqn:Hnull; [exact Hcount |].
      cbn [snd]. unfold frequencyOf at 2 3.
      rewrite requestThumbnail_no_count; [exact Hcount |].
      intros it'. replace (m_thumbnails _) with (m_thumbnails touched).
      * unfold touched. simpl. rewrite lookup_insert_eq. intros [= <-]. simpl.
        by apply negb_false_iff in Hnull.
      * unfold updateAccessFrequency.
        destruct (_ >? _); reflexivity.
    + cbn [snd]. unfold frequencyOf at 2 3.
      rewrite requestThumbnail_no_count; [left; unfold frequencyOf; simpl; lia |].
      intros it'. simpl. rewrite Hq. discriminate.
  - (* PageSizeRole *)
    destruct (m_thumbnails s !! row index) as [it |];
      [destruct (negb (QSize_isEmpty (pageSize it))) |]; simpl;
      try (left; lia);
      destruct (pageSizeOf d (row index)); left; unfold frequencyOf; simpl; lia.
Qed.

Lemma grows_or_pruned s s' p :
  frequencyOf p s <= frequencyOf p s'
  \/ (frequencyOf p s' = 0 /\ frequencyOf p s <= 1) ->
  counterGrowsOrResets s s' p.
Proof. intros [H | [H1 H2]]; [by left | right; split; [done | by left]]. Qed.

Lemma onPreloadTimer_counter now s p :
  frequencyOf p s < INT_MAX -> counterGrowsOrResets s (onPreloadTimer now s) p.
Proof.
  intros Hlt. apply grows_or_pruned. unfold onPreloadTimer.
  destruct (elements (m_preloadQueue s)) as [| q rest];
    [left; unfold frequencyOf; simpl; lia |].
  set (s1 := setPreload _ _ _ s).
  pose proof (requestThumbnail_counter now q s1 p Hlt) as H.
  destruct (bool_decide _); exact H.
Qed.

Lemma onThumbnailGenerated_counter now q pm s s' p :
  onThumbnailGenerated now q pm s = Some s' -> counterGrowsOrResets s s' p.
Proof.
  unfold onThumbnailGenerated.
  destruct (m_thumbnails s !! q) as [it |] eqn:Hq; [| intros [= <-]; left; lia].
  intros Hw. apply (eviction_loop_counters _ _ _ _ p) in Hw as [_ Hw].
  destruct Hw as [Hsame | (Hz & Hin & Hout)].
  - left. rewrite Hsame. unfold frequencyOf. simpl. lia.
  - right. split; [exact Hz |]. right. split; [| exact Hout].
    simpl in Hin. destruct (decide (p = q)) as [-> | Hne].
    + by rewrite Hq.
    + by rewrite lookup_insert_ne in Hin.
Qed.

Lemma cleanupCache_counter now s s' p :
  cleanupCache now s = Some s' -> counterGrowsOrResets s s' p.
Proof.
  unfold cleanupCache.
  destruct (isEmpty (m_thumbnails s)); [intros [= <-]; left; lia |].
  destruct (adaptCacheSize_store now s) as [Ht Hf].
  set (s1 := adaptCacheSize now s) in *.
  destruct (while _ overItemCeiling _ s1) as [s2 |] eqn:Hw1; [| discriminate].
  intros Hw2.
  apply (eviction_loop_counters _ _ _ _ p) in Hw1 as [Hsub1 H1].
  apply (eviction_loop_counters _ _ _ _ p) in Hw2 as [Hsub2 H2].
  assert (Hfp : frequencyOf p s1 = frequencyOf p s)
    by (unfold frequencyOf; by rewrite Hf).
  rewrite Hfp, Ht in H1. rewrite Ht in Hsub1.
  unfold counterGrowsOrResets.
  destruct H2 as [Hsame2 | (Hz2 & Hin2 & Hout2)].
  - rewrite Hsame2. destruct H1 as [Hsame1 | (Hz1 & Hin1 & Hout1)].
    + left. lia.
    + right. split; [exact Hz1 |]. right. split; [exact Hin1 |].
      destruct (m_thumbnails s' !! p) as [x |] eqn:Hx; [| reflexivity].
      destruct (Hsub2 p) as [y Hy]; [by rewrite Hx | congruence].
  - right. split; [exact Hz2 |]. right. split; [by apply Hsub1 | exact Hout2].
Qed.

(** C8 (amended).  Across any operation the access counter of a page does
    not decrease (as long as it is below the largest [int]), except that it
    may be reset to zero, in two ways.  [updateAccessFrequency] drops every
    counter that is at most 1 once the table holds more than twice
    [m_maxCacheSize] pages; the frequency eviction step removes the counter
    of the page it evicts, so the page had an entry before the operation and
    has none after it. *)
Theorem counter_grows_or_resets now op s s' p :
  step now op s = Some s' ->
  frequencyOf p s < INT_MAX ->
  frequencyOf p s <= frequencyOf p s'
  \/ (frequencyOf p s' = 0
      /\ (frequencyOf p s <= 1
          \/ (is_Some (m_thumbnails s !! p) /\ m_thumbnails s' !! p = None))).
Proof.
  intros Hstep Hlt. change (counterGrowsOrResets s s' p).
  destruct op; simpl in Hstep;
    try (injection Hstep as <-);
    try (apply same_counters; reflexivity).
  - by apply grows_or_pruned, data_counter.
  - apply same_counters. unfold setThumbnailSize. by destruct (negb _).
  - apply same_counters. unfold setThumbnailQuality. by destruct (_ <? _)%float.
  - apply same_counters. unfold setCacheSize in Hstep.
    by rewrite (recency_loop_counters _ _ _ _ Hstep).
  - apply same_counters. unfold setMemoryLimit in Hstep.
    by rewrite (recency_loop_counters _ _ _ _ Hstep).
  - by apply grows_or_pruned, requestThumbnail_counter.
  - apply same_counters, requestThumbnailRange_counters.
  - apply same_counters, refreshThumbnail_counters.
  - apply same_counters. unfold preloadVisibleRange. by destruct (m_document s).
  - by apply (onThumbnailGenerated_counter now pageNumber pm).
  - apply same_counters. unfold onThumbnailError.
    by destruct (m_thumbnails s !! pageNumber).
  - by apply onPreloadTimer_counter.
  - by apply (cleanupCache_counter now).
  - apply same_counters. unfold setViewportRange. simpl.
    destruct (m_lazyLoadingEnabled s); [| reflexivity].
    unfold updateViewportPriorities. simpl. by destruct (m_document s).
  - apply same_counters. unfold onPriorityUpdateTimer.
    destruct (m_lazyLoadingEnabled s); [| reflexivity].
    unfold updateViewportPriorities. by destruct (m_document s).
  - by apply grows_or_pruned, updateAccessFrequency_counter.
Qed.

Lemma counter_grows_or_resets_witness :
  exists s',
    step 9 (OpData (Index 1) PixmapRole) twoCounted = Some s'
    /\ (frequencyOf 1 twoCounted <= frequencyOf 1 s'
        \/ (frequencyOf 1 s' = 0
            /\ (frequencyOf 1 twoCounted <= 1
                \/ (is_Some (m_thumbnails twoCounted !! 1)
                    /\ m_thumbnails s' !! 1 = None)))).
Proof.
  eexists. split; [reflexivity |].
  apply (counter_grows_or_resets 9 (OpData (Index 1) PixmapRole) twoCounted);
    [reflexivity | vm_compute; reflexivity].
Defined.

(** ** Memory accounting *)

Lemma bytesOf_perm l1 l2 : l1 ≡ₚ l2 -> bytesOf l1 = bytesOf l2.
Proof. induction 1; simpl; lia. Qed.

Lemma storedBytes_lookup s k it :
  m_thumbnails s !! k = Some it ->
  storedBytes s = memorySize it + bytesOf (map_to_list (delete k (m_thumbnails s))).
Proof.
  intros Hk. unfold storedBytes.
  by rewrite <- (bytesOf_perm _ _ (map_to_list_delete _ _ _ Hk)).
Qed.

Lemma storedBytes_insert s k it :
  storedBytes (setThumbnails (<[k := it]> (m_thumbnails s)) s)
  = memorySize it + bytesOf (map_to_list (delete k (m_thumbnails s))).
Proof.
  rewrite (storedBytes_lookup _ k it) by (simpl; apply lookup_insert_eq).
  simpl. by rewrite delete_insert_eq.
Qed.

(** A completion that starts no eviction adds the bytes of the new image to
    the tracked total and replaces the entry's bytes in the store: the total
    runs ahead of the stored bytes by what the entry held before.  The two
    stay equal only when the entry held no bytes. *)
Lemma completion_drift now pageNumber pm it s :
  m_thumbnails s !! pageNumber = Some it ->
  - 2 ^ 63 <= m_currentMemory s + calculatePixmapMemory pm <= m_maxMemory s ->
  m_maxMemory s < 2 ^ 63 ->
  exists s',
    onThumbnailGenerated now pageNumber pm s = Some s'
    /\ m_currentMemory s' - storedBytes s'
       = m_currentMemory s - storedBytes s + memorySize it.
Proof.
  intros Hk Hfit Hmax. unfold onThumbnailGenerated. rewrite Hk.
  set (it' := withMemorySize _ _).
  set (s1 := setCurrentMemory _ _).
  assert (Hmem : m_currentMemory s1 = m_currentMemory s + calculatePixmapMemory pm).
  { unfold s1. simpl. unfold wrap64, wrap. change (64 - 1) with 63.
    rewrite Z.mod_small; lia. }
  assert (Hstop : overByteCeiling s1 = false).
  { unfold overByteCeiling. rewrite Hmem.
    change (m_maxMemory s1) with (m_maxMemory s).
    destruct (Z.gtb_spec (m_currentMemory s + calculatePixmapMemory pm) (m_maxMemory s));
      [lia | reflexivity]. }
  exists s1. split.
  - unfold evictionRounds. simpl. fold s1. by rewrite Hstop.
  - rewrite Hmem. rewrite (storedBytes_lookup s _ _ Hk).
    change (storedBytes s1)
      with (storedBytes (setThumbnails (<[pageNumber := it']> (m_thumbnails s)) s)).
    rewrite storedBytes_insert. unfold it'. simpl. lia.
Qed.

(** *** Every other path keeps the accounting *)

Lemma wrap64_congruent z : congruent64 (wrap64 z) z.
Proof.
  exists (- ((z + 2 ^ 63) / 2 ^ 64)). unfold wrap64, wrap. change (64 - 1) with 63.
  pose proof (Z.div_mod (z + 2 ^ 63) (2 ^ 64) ltac:(lia)). lia.
Qed.

(** [accounted] from the tracked total and the stored bytes of an earlier
    model and what was added to both. *)
Lemma accounted_shift s s' delta :
  accounted s ->
  congruent64 (m_currentMemory s') (m_currentMemory s + delta) ->
  storedBytes s' = storedBytes s + delta ->
  accounted s'.
Proof.
  unfold accounted. intros [k Hk] [k' Hk'] Hs. exists (k + k'). lia.
Qed.

Lemma accounted_same s s' :
  m_thumbnails s' = m_thumbnails s -> m_currentMemory s' = m_currentMemory s ->
  accounted s -> accounted s'.
Proof. unfold accounted, storedBytes. by intros -> ->. Qed.

Lemma storedBytes_absent s k :
  m_thumbnails s !! k = None ->
  storedBytes s = bytesOf (map_to_list (delete k (m_thumbnails s))).
Proof. intros Hk. unfold storedBytes. by rewrite delete_id. Qed.

(** Writing an entry changes the stored bytes by the difference between its
    bytes and those the page held before (none for a new page). *)
Lemma storedBytes_write s k it :
  storedBytes (setThumbnails (<[k := it]> (m_thumbnails s)) s)
  = storedBytes s
    + (memorySize it - memorySize (default defaultItem (m_thumbnails s !! k))).
Proof.
  rewrite storedBytes_insert.
  destruct (m_thumbnails s !! k) as [old |] eqn:Hk; simpl.
  - rewrite (storedBytes_lookup s k old Hk). lia.
  - rewrite (storedBytes_absent s k Hk). lia.
Qed.

(** Writing an entry with the bytes the page already had keeps the
    accounting. *)
Lemma accounted_write s k it :
  memorySize it = memorySize (default defaultItem (m_thumbnails s !! k)) ->
  accounted s -> accounted (setThumbnails (<[k := it]> (m_thumbnails s)) s).
Proof.
  intros Hsame Hacc. apply (accounted_shift s _ 0 Hacc).
  - exists 0. simpl. lia.
  - rewrite storedBytes_write. lia.
Qed.

Lemma accounted_erase s k it :
  m_thumbnails s !! k = Some it -> accounted s -> accounted (eraseEntry k it s).
Proof.
  intros Hk Hacc. apply (accounted_shift s _ (- memorySize it) Hacc).
  - simpl. apply wrap64_congruent.
  - rewrite (storedBytes_lookup s k it Hk). unfold storedBytes. simpl. lia.
Qed.

Lemma updateAccessFrequency_accounted q s :
  accounted s -> accounted (updateAccessFrequency q s).
Proof.
  apply accounted_same; unfold updateAccessFrequency; by destruct (_ >? _).
Qed.

Lemma markLoadingAndDispatch_accounted now q s :
  accounted s -> accounted (markLoadingAndDispatch now q s).
Proof.
  intros Hacc. unfold markLoadingAndDispatch.
  set (item' := withLastAccessed now _).
  apply (accounted_same (setThumbnails (<[q := item']> (m_thumbnails s)) s));
    [reflexivity | reflexivity |].
  by apply accounted_write.
Qed.

Lemma requestThumbnail_accounted now q s :
  accounted s -> accounted (requestThumbnail now q s).
Proof.
  intros Hacc. unfold requestThumbnail.
  destruct (noSuchPage q s); [exact Hacc |].
  destruct (m_lazyLoadingEnabled s && negb (shouldGenerateThumbnail q s)); [exact Hacc |].
  destruct (m_thumbnails s !! q) as [it |] eqn:Hq;
    [| by apply markLoadingAndDispatch_accounted].
  assert (Htouch : forall it', memorySize it' = memorySize it ->
            accounted (setThumbnails (<[q := it']> (m_thumbnails s)) s)).
  { intros it' Hsame. apply accounted_write; [by rewrite Hq | exact Hacc]. }
  destruct (negb (isNull (pixmap it))).
  - by apply updateAccessFrequency_accounted, Htouch.
  - destruct (isLoading it); [exact Hacc |].
    destruct (hasError it); apply markLoadingAndDispatch_accounted;
      [by apply Htouch | exact Hacc].
Qed.

Lemma evictLeastRecentlyUsed_accounted s :
  accounted s -> accounted (evictLeastRecentlyUsed s).
Proof.
  intros Hacc. unfold evictLeastRecentlyUsed.
  destruct (lruVictim (m_thumbnails s)) as [[k it] |] eqn:Hv; [| exact Hacc].
  apply lruVictim_spec in Hv as [Hk _]. by apply accounted_erase.
Qed.

Lemma evictByAdaptivePolicy_accounted s :
  accounted s -> accounted (evictByAdaptivePolicy s).
Proof.
  intros Hacc.
  destruct (evict_shrinks_or_same s) as [-> | (k & it & Hk & [-> | ->])];
    [exact Hacc | by apply accounted_erase |].
  apply (accounted_same (eraseEntry k it s)); [reflexivity | reflexivity |].
  by apply accounted_erase.
Qed.

Lemma while_accounted cond body fuel s s' :
  (forall s0, accounted s0 -> accounted (body s0)) ->
  accounted s -> while fuel cond body s = Some s' -> accounted s'.
Proof.
  intros Hbody Hacc Hw.
  apply (while_preserves accounted cond body) with (fuel := fuel) (s := s) (s' := s');
    [by intros s0 H0 _; apply Hbody | exact Hacc | exact Hw].
Qed.

(** The loop of [setThumbnailSize] and [setThumbnailQuality]: what it
    subtracts from the total is what it takes out of the entries. *)
Lemma clearPixmaps_fold (l : list (Z * ThumbnailItem)) : forall total,
  congruent64
    (foldl (fun total (e : Z * ThumbnailItem) =>
              if negb (isNull (pixmap e.2)) then wrap64 (total - memorySize e.2)
              else total) total l)
    (total - bytesOf l
     + bytesOf (prod_map id
                  (fun it => if negb (isNull (pixmap it))
                             then withLoading false
                                    (withMemorySize 0 (withPixmap NullPixmap it))
                             else it) <$> l)).
Proof.
  induction l as [| [k it] l IH]; intros total; csimpl.
  - exists 0. lia.
  - destruct (negb (isNull (pixmap it))); csimpl.
    + destruct (IH (wrap64 (total - memorySize it))) as [k1 H1].
      destruct (wrap64_congruent (total - memorySize it)) as [k2 H2].
      exists (k1 + k2). rewrite H1, H2. lia.
    + destruct (IH total) as [k1 H1]. exists k1. rewrite H1. lia.
Qed.

Lemma clearPixmaps_accounted s : accounted s -> accounted (clearPixmaps s).
Proof.
  intros [k Hk]. unfold accounted, clearPixmaps, storedBytes. simpl.
  rewrite map_to_list_fmap.
  destruct (clearPixmaps_fold (map_to_list (m_thumbnails s)) (m_currentMemory s))
    as [k1 H1].
  rewrite H1. unfold storedBytes in Hk. exists (k + k1). lia.
Qed.

Lemma updateMemoryUsage_fold (l : list (Z * ThumbnailItem)) : forall total,
  congruent64
    (foldl (fun total (e : Z * ThumbnailItem) => wrap64 (total + memorySize e.2))
           total l)
    (total + bytesOf l).
Proof.
  induction l as [| [k it] l IH]; intros total; simpl.
  - exists 0. lia.
  - destruct (IH (wrap64 (total + memorySize it))) as [k1 H1].
    destruct (wrap64_congruent (total + memorySize it)) as [k2 H2].
    exists (k1 + k2). rewrite H1, H2. lia.
Qed.

(** [updateMemoryUsage] establishes the accounting whatever went before. *)
Lemma updateMemoryUsage_accounted s : accounted (updateMemoryUsage s).
Proof.
  unfold accounted, updateMemoryUsage. simpl.
  apply (updateMemoryUsage_fold (map_to_list (m_thumbnails s)) 0).
Qed.

Lemma data_accounted now index role s :
  accounted s -> accounted (data now index role s).2.
Proof.
  intros Hacc. unfold data.
  destruct (m_document s) as [d |]; [| exact Hacc].
  destruct (negb (isValid index)); [exact Hacc |].
  destruct ((row index <? 0) || (row index >=? numPages d)); [exact Hacc |].
  destruct role; try exact Hacc.
  - destruct (m_thumbnails s !! row index) as [it |] eqn:Hq.
    + assert (H1 : accounted (updateAccessFrequency (row index)
                    (setThumbnails
                       (<[row index := withLastAccessed now it]> (m_thumbnails s)) s))).
      { apply updateAccessFrequency_accounted, accounted_write; [by rewrite Hq | exact Hacc]. }
      destruct (negb (isNull (pixmap it))); cbn [snd].
      * revert H1. by apply accounted_same.
      * apply requestThumbnail_accounted. revert H1. by apply accounted_same.
    + cbn [snd]. apply requestThumbnail_accounted. revert Hacc. by apply accounted_same.
  - destruct (m_thumbnails s !! row index) as [it |] eqn:Hq; simpl.
    + destruct (negb (QSize_isEmpty (pageSize it))); simpl; [exact Hacc |].
      destruct (pageSizeOf d (row index)); simpl; [| exact Hacc].
      apply accounted_write; [by rewrite Hq | exact Hacc].
    + destruct (pageSizeOf d (row index)); simpl; [| exact Hacc].
      apply accounted_write; [by rewrite Hq | exact Hacc].
Qed.

Lemma requestThumbnailRange_accounted now a b s :
  accounted s -> accounted (requestThumbnailRange now a b s).
Proof.
  intros Hacc. unfold requestThumbnailRange.
  destruct (m_document s) as [d |]; [| exact Hacc].
  generalize (pagesFromTo (Z.max 0 a) (Z.min (wrap32 (numPages d - 1)) b)).
  intros l. revert s Hacc. induction l as [| i l IH]; intros s Hacc; [exact Hacc |].
  simpl. apply IH.
  match goal with |- accounted (if ?c then _ else _) => destruct c end;
    [by apply requestThumbnail_accounted | exact Hacc].
Qed.

(** Every operation keeps the accounting, except a completion delivered to
    an entry that already holds bytes. *)
Lemma step_accounted now op s s' :
  accounted s -> step now op s = Some s' ->
  (forall pageNumber pm it,
     op = OpThumbnailGenerated pageNumber pm ->
     m_thumbnails s !! pageNumber = Some it -> memorySize it = 0) ->
  accounted s'.
Proof.
  intros Hacc Hstep Hfresh.
  assert (Hclear : forall s0, accounted (clearCache s0)) by (intros s0; by exists 0).
  destruct op; simpl in Hstep; try (injection Hstep as <-); try exact Hacc;
    try apply Hclear.
  - by apply data_accounted.
  - unfold setThumbnailSize. destruct (negb _); [| exact Hacc].
    apply clearPixmaps_accounted. revert Hacc. by apply accounted_same.
  - unfold setThumbnailQuality. destruct (_ <? _)%float; [| exact Hacc].
    apply clearPixmaps_accounted. revert Hacc. by apply accounted_same.
  - unfold setCacheSize in Hstep.
    apply (while_accounted _ _ _ _ _ evictLeastRecentlyUsed_accounted) in Hstep; [done |].
    revert Hacc. by apply accounted_same.
  - unfold setMemoryLimit in Hstep.
    apply (while_accounted _ _ _ _ _ evictLeastRecentlyUsed_accounted) in Hstep; [done |].
    revert Hacc. by apply accounted_same.
  - by apply requestThumbnail_accounted.
  - by apply requestThumbnailRange_accounted.
  - unfold refreshThumbnail. destruct (noSuchPage pageNumber s); [exact Hacc |].
    apply requestThumbnail_accounted.
    destruct (m_thumbnails s !! pageNumber) eqn:Hq; [by apply accounted_erase | exact Hacc].
  - unfold preloadVisibleRange. destruct (m_document s); [| exact Hacc].
    revert Hacc. by apply accounted_same.
  - unfold onThumbnailGenerated in Hstep.
    destruct (m_thumbnails s !! pageNumber) as [it |] eqn:Hq;
      [| by injection Hstep as <-].
    apply (while_accounted _ _ _ _ _ evictByAdaptivePolicy_accounted) in Hstep; [done |].
    set (it' := withMemorySize _ _).
    apply (accounted_shift s _ (memorySize it') Hacc).
    + simpl. apply wrap64_congruent.
    + change (storedBytes (setThumbnails (<[pageNumber := it']> (m_thumbnails s)) s)
              = storedBytes s + memorySize it').
      rewrite storedBytes_write, Hq. simpl.
      rewrite (Hfresh pageNumber pm it eq_refl Hq). lia.
  - unfold onThumbnailError.
    destruct (m_thumbnails s !! pageNumber) as [it |] eqn:Hq; [| exact Hacc].
    apply accounted_write; [by rewrite Hq | exact Hacc].
  - unfold onPreloadTimer.
    destruct (elements (m_preloadQueue s)) as [| q rest].
    + revert Hacc. by apply accounted_same.
    + set (s1 := setPreload _ _ _ s).
      assert (H1 : accounted (requestThumbnail now q s1)).
      { apply requestThumbnail_accounted. revert Hacc. by apply accounted_same. }
      destruct (bool_decide _); [| exact H1]. revert H1. by apply accounted_same.
  - unfold cleanupCache in Hstep.
    destruct (isEmpty (m_thumbnails s)); [by injection Hstep as <- |].
    destruct (while _ overItemCeiling _ _) as [s2 |] eqn:Hw1; [| discriminate].
    apply (while_accounted _ _ _ _ _ evictByAdaptivePolicy_accounted) in Hw1.
    + by apply (while_accounted _ _ _ _ _ evictByAdaptivePolicy_accounted) in Hstep.
    + unfold adaptCacheSize. destruct (_ <? 30000); [exact Hacc |]. cbv zeta.
      destruct (_ && _); [| destruct (_ <? 0.5)%float]; exact Hacc.
  - apply updateMemoryUsage_accounted.
  - unfold setViewportRange. simpl.
    destruct (m_lazyLoadingEnabled s); [| exact Hacc].
    unfold updateViewportPriorities. simpl. by destruct (m_document s).
  - unfold onPriorityUpdateTimer. destruct (m_lazyLoadingEnabled s); [| exact Hacc].
    unfold updateViewportPriorities. by destruct (m_document s).
  - by apply updateAccessFrequency_accounted.
Qed.

Lemma newModel_accounted d : accounted (newModel d).
Proof. by exists 0. Qed.

(** C1 (the code fails it).  Page 0 is requested and then refreshed while the
    first request is still in flight, so the generator has accepted two
    requests for it; both completions arrive.  After the second one the
    entries of the store hold 76800 bytes while the tracked total is 153600:
    [onThumbnailGenerated] adds the new image's bytes without giving back
    the bytes the entry already held, and the accounting invariant (which
    every other path keeps) is lost until [updateMemoryUsage] recomputes the
    total. *)
Theorem second_completion_is_counted_twice :
  exists s',
    run [(1, OpRequestThumbnail 0); (2, OpRefreshThumbnail 0);
         (3, OpThumbnailGenerated 0 (Pixmap 120 160));
         (4, OpThumbnailGenerated 0 (Pixmap 120 160))]
        (sampleModel 10) = Some s'
    /\ length (generatorRequests s') = 2%nat
    /\ storeSize s' = 1
    /\ storedBytes s' = 76800
    /\ m_currentMemory s' = 153600
    /\ ~ accounted s'
    /\ m_currentMemory (updateMemoryUsage s') = 76800.
Proof.
  eexists. split; [vm_compute; reflexivity |].
  match goal with
  | |- _ /\ _ /\ storedBytes ?s = _ /\ _ =>
      assert (Hstored : storedBytes s = 76800) by (vm_compute; reflexivity);
      assert (Htotal : m_currentMemory s = 153600) by (vm_compute; reflexivity)
  end.
  repeat split; try (vm_compute; reflexivity).
  intros [k Hk]. rewrite Hstored, Htotal in Hk. lia.
Qed.

(** ** The machine ranges are kept *)

Lemma inRange_store s : inRange s -> storeInRange s = true.
Proof.
  intros [Ht Hf]. apply storeInRange_intro. intros k it Hk.
  destruct (Ht k it Hk) as [H1 H2]. repeat split; try done.
  unfold frequencyOf. destruct (m_accessFrequency s !! k) as [v |] eqn:Hv; simpl.
  - apply (Hf k v Hv).
  - unfold INT_MAX. lia.
Qed.

Lemma inRange_same s s' :
  m_thumbnails s' = m_thumbnails s -> m_accessFrequency s' = m_accessFrequency s ->
  inRange s -> inRange s'.
Proof. unfold inRange. by intros -> ->. Qed.

(** The operation has left the store and the counters as they were. *)
Ltac same_store H := revert H; by apply inRange_same.

Lemma inRange_insert s k it :
  inRange s -> 0 <= k -> lastAccessed it < LLONG_MAX ->
  inRange (setThumbnails (<[k := it]> (m_thumbnails s)) s).
Proof.
  intros [Ht Hf] Hk Hit. split; [| exact Hf]. simpl.
  by apply map_Forall_insert_2.
Qed.

Lemma inRange_lookup s k it :
  inRange s -> m_thumbnails s !! k = Some it ->
  0 <= k /\ lastAccessed it < LLONG_MAX.
Proof. intros [Ht _] Hk. apply (Ht k it Hk). Qed.

Lemma updateAccessFrequency_inRange q s :
  inRange s -> inRange (updateAccessFrequency q s).
Proof.
  intros [Ht Hf]. unfold updateAccessFrequency.
  assert (Hc : countsOk (<[q := wrap32 (frequencyOf q s + 1)]> (m_accessFrequency s))).
  { apply map_Forall_insert_2; [| exact Hf].
    pose proof (wrap32_range (frequencyOf q s + 1)). unfold INT_MAX. lia. }
  destruct (_ >? _); split; simpl; try done.
  intros k v Hv. apply map_lookup_filter_Some_1_1 in Hv. apply (Hc k v Hv).
Qed.

Lemma noSuchPage_false q s : noSuchPage q s = false -> 0 <= q.
Proof.
  unfold noSuchPage. destruct (m_document s); [| discriminate].
  intros H. apply orb_false_iff in H as [H _]. by apply Z.ltb_ge in H.
Qed.

Lemma markLoadingAndDispatch_inRange now q s :
  inRange s -> 0 <= q -> now < LLONG_MAX -> inRange (markLoadingAndDispatch now q s).
Proof.
  intros Hr Hq Hnow. unfold markLoadingAndDispatch.
  apply (inRange_same (setThumbnails
           (<[q := withLastAccessed now
                     (withError false EmptyString
                        (withLoading true (default defaultItem (m_thumbnails s !! q))))]>
              (m_thumbnails s)) s)); [reflexivity | reflexivity |].
  by apply inRange_insert.
Qed.

Lemma requestThumbnail_inRange now q s :
  inRange s -> now < LLONG_MAX -> inRange (requestThumbnail now q s).
Proof.
  intros Hr Hnow. unfold requestThumbnail.
  destruct (noSuchPage q s) eqn:Hpage; [exact Hr |].
  apply noSuchPage_false in Hpage.
  destruct (m_lazyLoadingEnabled s && negb (shouldGenerateThumbnail q s)); [exact Hr |].
  destruct (m_thumbnails s !! q) as [it |] eqn:Hq;
    [| by apply markLoadingAndDispatch_inRange].
  destruct (inRange_lookup _ _ _ Hr Hq) as [_ Hit].
  destruct (negb (isNull (pixmap it))).
  - apply updateAccessFrequency_inRange. by apply inRange_insert.
  - destruct (isLoading it); [exact Hr |].
    destruct (hasError it); [| by apply markLoadingAndDispatch_inRange].
    apply markLoadingAndDispatch_inRange; try done. by apply inRange_insert.
Qed.

Lemma eraseEntry_inRange k it s : inRange s -> inRange (eraseEntry k it s).
Proof. intros [Ht Hf]. split; [| exact Hf]. simpl. by apply map_Forall_delete. Qed.

Lemma evictLeastRecentlyUsed_inRange s :
  inRange s -> inRange (evictLeastRecentlyUsed s).
Proof.
  intros Hr. unfold evictLeastRecentlyUsed.
  destruct (lruVictim (m_thumbnails s)) as [[k it] |]; [| exact Hr].
  by apply eraseEntry_inRange.
Qed.

Lemma evictByAdaptivePolicy_inRange s :
  inRange s -> inRange (evictByAdaptivePolicy s).
Proof.
  intros Hr.
  destruct (evict_shrinks_or_same s) as [-> | (k & it & _ & [-> | ->])]; [exact Hr | |].
  - by apply eraseEntry_inRange.
  - destruct (eraseEntry_inRange k it s Hr) as [Ht Hf]. split; [exact Ht |].
    simpl. by apply map_Forall_delete.
Qed.

Lemma while_inRange cond body fuel s s' :
  (forall s0, inRange s0 -> inRange (body s0)) ->
  inRange s -> while fuel cond body s = Some s' -> inRange s'.
Proof.
  intros Hbody Hr Hw.
  apply (while_preserves inRange cond body) with (fuel := fuel) (s := s) (s' := s');
    [by intros s0 H0 _; apply Hbody | exact Hr | exact Hw].
Qed.

Lemma data_inRange now index role s :
  inRange s -> now < LLONG_MAX -> inRange (data now index role s).2.
Proof.
  intros Hr Hnow. unfold data.
  destruct (m_document s) as [d |]; [| exact Hr].
  destruct (negb (isValid index)); [exact Hr |].
  destruct ((row index <? 0) || (row index >=? numPages d)) eqn:Hrow; [exact Hr |].
  apply orb_false_iff in Hrow as [Hrow _]. apply Z.ltb_ge in Hrow.
  destruct role; try exact Hr.
  - destruct (m_thumbnails s !! row index) as [it |] eqn:Hq.
    + assert (H1 : inRange (updateAccessFrequency (row index)
                    (setThumbnails
                       (<[row index := withLastAccessed now it]> (m_thumbnails s)) s))).
      { apply updateAccessFrequency_inRange. by apply inRange_insert. }
      destruct (negb (isNull (pixmap it))); cbn [snd].
      * same_store H1.
      * apply requestThumbnail_inRange; [| exact Hnow].
        same_store H1.
    + cbn [snd]. apply requestThumbnail_inRange; [| exact Hnow].
      same_store Hr.
  - destruct (m_thumbnails s !! row index) as [it |] eqn:Hq; simpl.
    + destruct (negb (QSize_isEmpty (pageSize it))); simpl; [exact Hr |].
      destruct (pageSizeOf d (row index)); simpl; [| exact Hr].
      apply inRange_insert; try done. simpl.
      apply (inRange_lookup _ _ _ Hr Hq).
    + destruct (pageSizeOf d (row index)); simpl; [| exact Hr].
      apply inRange_insert; try done.
Qed.

Lemma requestThumbnailRange_inRange now a b s :
  inRange s -> now < LLONG_MAX -> inRange (requestThumbnailRange now a b s).
Proof.
  intros Hr Hnow. unfold requestThumbnailRange.
  destruct (m_document s) as [d |]; [| exact Hr].
  generalize (pagesFromTo (Z.max 0 a) (Z.min (wrap32 (numPages d - 1)) b)).
  intros l. revert s Hr. induction l as [| i l IH]; intros s Hr; [exact Hr |].
  simpl. apply IH.
  match goal with |- inRange (if ?c then _ else _) => destruct c end;
    [by apply requestThumbnail_inRange | exact Hr].
Qed.

Lemma clearPixmaps_inRange s : inRange s -> inRange (clearPixmaps s).
Proof.
  intros [Ht Hf]. split; [| exact Hf]. simpl.
  intros k it. rewrite lookup_fmap.
  destruct (m_thumbnails s !! k) as [it0 |] eqn:Hk; [| discriminate].
  simpl. intros [= <-]. specialize (Ht k it0 Hk). simpl in Ht.
  by destruct (negb (isNull (pixmap it0))).
Qed.

(** Every operation keeps the ranges, as long as the clock is read below
    the largest [qint64]. *)
Lemma step_inRange now op s s' :
  inRange s -> now < LLONG_MAX -> step now op s = Some s' -> inRange s'.
Proof.
  intros Hr Hnow Hstep.
  assert (Hempty : forall s0, inRange s0 -> inRange (clearCache s0)).
  { intros s0 [_ Hf]. split; [apply map_Forall_empty | exact Hf]. }
  destruct op; simpl in Hstep; try (injection Hstep as <-); try exact Hr.
  - by apply data_inRange.
  - apply Hempty. same_store Hr.
  - unfold setThumbnailSize. destruct (negb _); [| exact Hr].
    apply clearPixmaps_inRange. same_store Hr.
  - unfold setThumbnailQuality. destruct (_ <? _)%float; [| exact Hr].
    apply clearPixmaps_inRange. same_store Hr.
  - unfold setCacheSize in Hstep.
    apply (while_inRange _ _ _ _ _ evictLeastRecentlyUsed_inRange) in Hstep; [done |].
    same_store Hr.
  - unfold setMemoryLimit in Hstep.
    apply (while_inRange _ _ _ _ _ evictLeastRecentlyUsed_inRange) in Hstep; [done |].
    same_store Hr.
  - by apply Hempty.
  - by apply requestThumbnail_inRange.
  - by apply requestThumbnailRange_inRange.
  - unfold refreshThumbnail. destruct (noSuchPage pageNumber s); [exact Hr |].
    apply requestThumbnail_inRange; [| exact Hnow].
    destruct (m_thumbnails s !! pageNumber); [by apply eraseEntry_inRange | exact Hr].
  - by apply Hempty.
  - unfold preloadVisibleRange. destruct (m_document s); [| exact Hr].
    same_store Hr.
  - unfold onThumbnailGenerated in Hstep.
    destruct (m_thumbnails s !! pageNumber) as [it |] eqn:Hq;
      [| by injection Hstep as <-].
    apply (while_inRange _ _ _ _ _ evictByAdaptivePolicy_inRange) in Hstep; [done |].
    apply (inRange_same (setThumbnails
             (<[pageNumber := withMemorySize (calculatePixmapMemory pm)
                  (withLastAccessed now
                     (withError false EmptyString
                        (withLoading false (withPixmap pm it))))]> (m_thumbnails s)) s));
      [reflexivity | reflexivity |].
    apply inRange_insert; try done. apply (inRange_lookup _ _ _ Hr Hq).
  - unfold onThumbnailError.
    destruct (m_thumbnails s !! pageNumber) as [it |] eqn:Hq; [| exact Hr].
    apply inRange_insert; try done. apply (inRange_lookup _ _ _ Hr Hq).
  - unfold onPreloadTimer.
    destruct (elements (m_preloadQueue s)) as [| q rest].
    + same_store Hr.
    + set (s1 := setPreload _ _ _ s).
      assert (H1 : inRange (requestThumbnail now q s1)).
      { apply requestThumbnail_inRange; [| exact Hnow]. same_store Hr. }
      destruct (bool_decide _); [| exact H1]. same_store H1.
  - unfold cleanupCache in Hstep.
    destruct (isEmpty (m_thumbnails s)); [by injection Hstep as <- |].
    destruct (adaptCacheSize_store now s) as [Ht Hf].
    destruct (while _ overItemCeiling _ _) as [s2 |] eqn:Hw1; [| discriminate].
    apply (while_inRange _ _ _ _ _ evictByAdaptivePolicy_inRange) in Hw1.
    + by apply (while_inRange _ _ _ _ _ evictByAdaptivePolicy_inRange) in Hstep.
    + by apply (inRange_same s).
  - unfold setViewportRange. simpl.
    destruct (m_lazyLoadingEnabled s); [| same_store Hr].
    unfold updateViewportPriorities. simpl. destruct (m_document s);
      same_store Hr.
  - unfold onPriorityUpdateTimer. destruct (m_lazyLoadingEnabled s); [| exact Hr].
    unfold updateViewportPriorities. destruct (m_document s); [| exact Hr].
    same_store Hr.
  - by apply updateAccessFrequency_inRange.
Qed.

(** Every model reached from a new one, with clock readings below the
    largest [qint64], is in range: the range hypotheses of the statements
    above hold throughout every such history. *)
Lemma reachable_inRange ops : forall s s',
  inRange s -> Forall (fun e : Z * Op => e.1 < LLONG_MAX) ops ->
  run ops s = Some s' -> storeInRange s' = true /\ inRange s'.
Proof.
  induction ops as [| [now op] ops IH]; intros s s' Hr Hclock; simpl.
  - intros [= <-]. split; [by apply inRange_store | exact Hr].
  - destruct (step now op s) as [s1 |] eqn:Hstep; [| discriminate].
    apply Forall_cons in Hclock as [Hnow Hclock]. simpl in Hnow.
    apply IH; [| exact Hclock]. by apply (step_inRange now op s).
Qed.

Lemma newModel_inRange d : inRange (newModel d).
Proof. split; apply map_Forall_empty. Qed.

(** * Further properties of the model *)

(** ** Requests, case by case *)

Lemma lazy_gate p s :
  m_lazyLoadingEnabled s && negb (shouldGenerateThumbnail p s)
  = negb (shouldGenerateThumbnail p s).
Proof. unfold shouldGenerateThumbnail. by destruct (m_lazyLoadingEnabled s). Qed.

Lemma requestThumbnail_wanted now p s :
  wantsRequest p s = true ->
  m_thumbnails (requestThumbnail now p s)
  = <[p := loadingItem now (default defaultItem (m_thumbnails s !! p))]> (m_thumbnails s)
  /\ generatorRequests (requestThumbnail now p s) = requestFor p s :: generatorRequests s
  /\ onlyStoreAndRequestsChanged s (requestThumbnail now p s).
Proof.
  unfold wantsRequest, hasCachedThumbnail, isThumbnailLoading, requestThumbnail.
  rewrite lazy_gate.
  destruct (noSuchPage p s); [discriminate |].
  destruct (shouldGenerateThumbnail p s); [| discriminate]. simpl.
  destruct (m_thumbnails s !! p) as [it |] eqn:Hp; simpl.
  - destruct (isNull (pixmap it)); [| discriminate]. simpl.
    destruct (isLoading it); [discriminate |]. intros _.
    destruct (hasError it); unfold markLoadingAndDispatch; simpl;
      rewrite ?lookup_insert_eq, ?insert_insert_eq, ?Hp; by simpl.
  - intros _. unfold markLoadingAndDispatch. simpl. rewrite Hp. by simpl.
Qed.

Lemma requestThumbnail_unwanted now p s :
  wantsRequest p s = false -> hasCachedThumbnail p s = false ->
  requestThumbnail now p s = s.
Proof.
  unfold wantsRequest, hasCachedThumbnail, isThumbnailLoading, requestThumbnail.
  rewrite lazy_gate.
  destruct (noSuchPage p s); [reflexivity |].
  destruct (shouldGenerateThumbnail p s); [| reflexivity]. simpl.
  destruct (m_thumbnails s !! p) as [it |]; [| discriminate].
  destruct (isNull (pixmap it)); [| discriminate]. simpl.
  destruct (isLoading it); [reflexivity | discriminate].
Qed.

Lemma requestThumbnail_requests_exact now p s :
  generatorRequests (requestThumbnail now p s)
  = if wantsRequest p s then requestFor p s :: generatorRequests s
    else generatorRequests s.
Proof.
  destruct (wantsRequest p s) eqn:Hwants.
  - apply (requestThumbnail_wanted now p s Hwants).
  - destruct (hasCachedThumbnail p s) eqn:Hcached;
      [| by rewrite requestThumbnail_unwanted].
    unfold requestThumbnail, hasCachedThumbnail in *.
    destruct (noSuchPage p s); [reflexivity |].
    destruct (m_lazyLoadingEnabled s && negb (shouldGenerateThumbnail p s));
      [reflexivity |].
    destruct (m_thumbnails s !! p) as [it |]; [| discriminate].
    rewrite Hcached. unfold updateAccessFrequency. by destruct (_ >? _).
Qed.

(** The preload queue and its timer play no part in a request. *)
Lemma requestThumbnail_setPreload now p range queue active s :
  requestThumbnail now p (setPreload range queue active s)
  = setPreload range queue active (requestThumbnail now p s).
Proof.
  unfold requestThumbnail.
  change (noSuchPage p (setPreload range queue active s)) with (noSuchPage p s).
  change (shouldGenerateThumbnail p (setPreload range queue active s))
    with (shouldGenerateThumbnail p s).
  simpl.
  destruct (noSuchPage p s); [reflexivity |].
  destruct (m_lazyLoadingEnabled s && negb (shouldGenerateThumbnail p s));
    [reflexivity |].
  destruct (m_thumbnails s !! p) as [it |]; [| reflexivity].
  destruct (negb (isNull (pixmap it))).
  - unfold updateAccessFrequency. simpl. by destruct (_ >? _).
  - destruct (isLoading it); [reflexivity |]. by destruct (hasError it).
Qed.


(** ** Shrinking the ceilings *)

Lemma keptMostRecent_refl s : keptMostRecent s s.
Proof.
  split; [done |]. intros k it k' it' _ H1 H2. rewrite H1 in H2. discriminate.
Qed.

(** A recency step after a run of recency steps still leaves the most
    recent entries. *)
Lemma keptMostRecent_step s s0 :
  keptMostRecent s s0 -> keptMostRecent s (evictLeastRecentlyUsed s0).
Proof.
  intros [Hsub Hold]. unfold evictLeastRecentlyUsed.
  destruct (lruVictim (m_thumbnails s0)) as [[v vit] |] eqn:Hv; [| by split].
  apply lruVictim_spec in Hv as [Hvk Hmin]. split; simpl.
  - intros k it Hk. apply Hsub.
    destruct (decide (k = v)) as [-> | Hne];
      [by rewrite lookup_delete_eq in Hk | by rewrite lookup_delete_ne in Hk].
  - intros k it k' it' Hk Hk' Hgone.
    assert (Hk0 : m_thumbnails s0 !! k = Some it).
    { destruct (decide (k = v)) as [-> | Hne];
        [by rewrite lookup_delete_eq in Hk | by rewrite lookup_delete_ne in Hk]. }
    destruct (m_thumbnails s0 !! k') as [it0 |] eqn:Hk0'.
    + destruct (decide (k' = v)) as [-> | Hne];
        [| by rewrite lookup_delete_ne, Hk0' in Hgone].
      rewrite Hvk in Hk0'. injection Hk0' as <-.
      rewrite (Hsub v vit Hvk) in Hk'. injection Hk' as <-. by apply (Hmin k it).
    + by apply (Hold k it k' it').
Qed.

Lemma onlyStoreChanged_step s s0 :
  onlyStoreChanged s s0 -> onlyStoreChanged s (evictLeastRecentlyUsed s0).
Proof.
  unfold onlyStoreChanged, evictLeastRecentlyUsed. intros H.
  destruct (lruVictim (m_thumbnails s0)) as [[v vit] |]; exact H.
Qed.

(** A loop of recency steps whose condition fails on the empty store stops;
    it leaves the most recent entries and changes nothing but the store and
    the tracked total. *)
Lemma recency_loop_spec cond (P : Model -> Prop) s :
  (forall s0, P s0 -> cond s0 = true -> m_thumbnails s0 ≠ ∅) ->
  (forall s0, P s0 -> cond s0 = true -> P (evictLeastRecentlyUsed s0)) ->
  P s ->
  exists s',
    while (evictionRounds s) cond evictLeastRecentlyUsed s = Some s'
    /\ cond s' = false /\ P s'
    /\ keptMostRecent s s' /\ onlyStoreChanged s s'
    /\ (accounted s -> accounted s').
Proof.
  intros Hne HP HPs.
  destruct (while_shrinking
              (fun s0 => P s0 /\ keptMostRecent s s0 /\ onlyStoreChanged s s0
                         /\ (accounted s -> accounted s0))
              cond evictLeastRecentlyUsed)
    with (fuel := evictionRounds s) (s := s)
    as (s' & Hw & (H1 & H2 & H3 & H4) & Hc).
  - intros s0 (H1 & H2 & H3 & H4) Hc. split; [split; [| split; [| split]] |].
    + by apply HP.
    + by apply keptMostRecent_step.
    + by apply onlyStoreChanged_step.
    + intros Hacc. by apply evictLeastRecentlyUsed_accounted, H4.
    + destruct (evictLeastRecentlyUsed_shrinks_or_same s0) as [Hfix | Hlt]; [| exact Hlt].
      exfalso. destruct (evictLeastRecentlyUsed_spec s0 (Hne s0 H1 Hc)) as (k & it & Hk & Heq & _).
      assert (Hev : evicted s0 (eraseEntry k it s0) k it) by (split; [done | by left]).
      apply evicted_size in Hev. rewrite <- Heq, Hfix in Hev. lia.
  - split; [exact HPs |]. split; [apply keptMostRecent_refl |]. by split.
  - unfold evictionRounds. lia.
  - by exists s'.
Qed.

(** X1.  [setCacheSize] always returns.  The item ceiling becomes
    [max(1, maxItems)] and the store holds at most that many entries
    afterwards.  What it drops are the least recently accessed entries: every
    entry it keeps is unchanged and was accessed no earlier than any entry it
    dropped.  Nothing but the ceiling, the store and the tracked total
    changes; a store that already fits is left as it is, a non-empty store
    stays non-empty, and the memory accounting is kept. *)
Theorem setCacheSize_keeps_most_recent maxItems s :
  exists s',
    setCacheSize maxItems s = Some s'
    /\ m_maxCacheSize s' = Z.max 1 maxItems
    /\ storeSize s' <= m_maxCacheSize s'
    /\ keptMostRecent s s'
    /\ onlyStoreChanged (setLimits (Z.max 1 maxItems) (m_maxMemory s) s) s'
    /\ (storeSize s <= Z.max 1 maxItems ->
        s' = setLimits (Z.max 1 maxItems) (m_maxMemory s) s)
    /\ (m_thumbnails s ≠ ∅ -> m_thumbnails s' ≠ ∅)
    /\ (accounted s -> accounted s').
Proof.
  unfold setCacheSize. set (s1 := setLimits (Z.max 1 maxItems) (m_maxMemory s) s).
  destruct (recency_loop_spec overItemCeiling
              (fun s0 => m_maxCacheSize s0 = Z.max 1 maxItems
                         /\ (m_thumbnails s ≠ ∅ -> m_thumbnails s0 ≠ ∅)) s1)
    as (s' & Hw & Hc & [Hmax Hne] & Hkept & Honly & Hacc).
  - intros s0 [Hmax _] Hc. unfold overItemCeiling in Hc. rewrite Hmax in Hc.
    apply nonempty_of_size. unfold storeSize.
    destruct (Z.gtb_spec (Z.of_nat (size (m_thumbnails s0))) (Z.max 1 maxItems));
      [lia | discriminate].
  - intros s0 [Hmax Hne] Hc. split.
    + rewrite <- Hmax. unfold evictLeastRecentlyUsed.
      by destruct (lruVictim (m_thumbnails s0)) as [[k it] |].
    + intros Hs. unfold overItemCeiling in Hc. rewrite Hmax in Hc.
      destruct (Z.gtb_spec (Z.of_nat (size (m_thumbnails s0))) (Z.max 1 maxItems));
        [| discriminate].
      destruct (evictLeastRecentlyUsed_spec s0 (Hne Hs)) as (k & it & Hk & -> & _).
      assert (Hev : evicted s0 (eraseEntry k it s0) k it) by (split; [done | by left]).
      apply evicted_size in Hev. apply nonempty_of_size. unfold storeSize. lia.
  - by split.
  - exists s'. split; [exact Hw |]. split; [exact Hmax |].
    split.
    { unfold overItemCeiling in Hc. unfold storeSize.
      destruct (Z.gtb_spec (Z.of_nat (size (m_thumbnails s'))) (m_maxCacheSize s'));
        [discriminate | lia]. }
    split; [exact Hkept |]. split; [exact Honly |].
    split; [| split; [exact Hne | exact Hacc]].
    intros Hfits. unfold evictionRounds in Hw. simpl in Hw.
    assert (Hstop : overItemCeiling s1 = false).
    { unfold overItemCeiling, s1. simpl. unfold storeSize in Hfits.
      destruct (Z.gtb_spec (Z.of_nat (size (m_thumbnails s))) (Z.max 1 maxItems));
        [lia | reflexivity]. }
    rewrite Hstop in Hw. by injection Hw as <-.
Qed.


(** X2.  [setMemoryLimit] always returns.  The byte ceiling becomes
    [max(1 MB, maxMemory)]; afterwards the tracked total is at or under it,
    or the store is empty (the loop does not spare the last entry).  What it
    drops are the least recently accessed entries; nothing but the ceiling,
    the store and the tracked total changes, and a total that already fits
    leaves the store as it is. *)
Theorem setMemoryLimit_keeps_most_recent maxMemory s :
  exists s',
    setMemoryLimit maxMemory s = Some s'
    /\ m_maxMemory s' = Z.max (1024 * 1024) maxMemory
    /\ (m_currentMemory s' <= m_maxMemory s' \/ m_thumbnails s' = ∅)
    /\ keptMostRecent s s'
    /\ onlyStoreChanged
         (setLimits (m_maxCacheSize s) (Z.max (1024 * 1024) maxMemory) s) s'
    /\ (m_currentMemory s <= Z.max (1024 * 1024) maxMemory ->
        s' = setLimits (m_maxCacheSize s) (Z.max (1024 * 1024) maxMemory) s)
    /\ (accounted s -> accounted s').
Proof.
  unfold setMemoryLimit.
  set (s1 := setLimits (m_maxCacheSize s) (Z.max (1024 * 1024) maxMemory) s).
  destruct (recency_loop_spec
              (fun s0 => overByteCeiling s0 && negb (isEmpty (m_thumbnails s0)))
              (fun s0 => m_maxMemory s0 = Z.max (1024 * 1024) maxMemory) s1)
    as (s' & Hw & Hc & Hmax & Hkept & Honly & Hacc).
  - intros s0 _ Hc. apply andb_true_iff in Hc as [_ Hc].
    by apply negb_true_iff, isEmpty_false in Hc.
  - intros s0 Hmax _. rewrite <- Hmax. unfold evictLeastRecentlyUsed.
    by destruct (lruVictim (m_thumbnails s0)) as [[k it] |].
  - reflexivity.
  - exists s'. split; [exact Hw |]. split; [exact Hmax |].
    split.
    { apply andb_false_iff in Hc as [Hc | Hc].
      - left. unfold overByteCeiling in Hc.
        destruct (Z.gtb_spec (m_currentMemory s') (m_maxMemory s')); [discriminate | lia].
      - right. by apply negb_false_iff, isEmpty_true in Hc. }
    split; [exact Hkept |]. split; [exact Honly |]. split; [| exact Hacc].
    intros Hfits. unfold evictionRounds in Hw. simpl in Hw.
    assert (Hstop : overByteCeiling s1 = false).
    { unfold overByteCeiling, s1. simpl.
      destruct (Z.gtb_spec (m_currentMemory s) (Z.max (1024 * 1024) maxMemory));
        [lia | reflexivity]. }
    rewrite Hstop in Hw. simpl in Hw. by injection Hw as <-.
Qed.

(** ** Replacing the document *)


(** ** Changing the render parameters *)

(** What [setThumbnailSize] and [setThumbnailQuality] do to one entry. *)
Lemma clearPixmaps_lookup s p :
  m_thumbnails (clearPixmaps s) !! p
  = (fun it => if negb (isNull (pixmap it))
               then withLoading false (withMemorySize 0 (withPixmap NullPixmap it))
               else it) <$> (m_thumbnails s !! p).
Proof. simpl. apply lookup_fmap. Qed.

Lemma clearPixmaps_spec s0 s :
  m_thumbnails s0 = m_thumbnails s ->
  generatorRequests s0 = generatorRequests s ->
  m_accessFrequency s0 = m_accessFrequency s ->
  imagesDropped s (clearPixmaps s0).
Proof.
  intros Ht Hg Hf. unfold imagesDropped, storeSize.
  rewrite <- Ht, <- Hg, <- Hf. repeat apply conj; try reflexivity.
  - intros p. unfold hasCachedThumbnail. rewrite clearPixmaps_lookup.
    destruct (m_thumbnails s0 !! p) as [it |]; simpl; [| reflexivity].
    destruct (isNull (pixmap it)) eqn:Hnull; simpl; [by rewrite Hnull | reflexivity].
  - simpl. by rewrite map_size_fmap.
  - intros p Hp. by rewrite clearPixmaps_lookup, Hp.
  - intros p it Hp Hnull. rewrite clearPixmaps_lookup, Hp. simpl. by rewrite Hnull.
  - intros p it Hp Hnull. rewrite clearPixmaps_lookup, Hp. simpl. by rewrite Hnull.
Qed.

Lemma requestThumbnail_in_flight now p it s :
  m_thumbnails s !! p = Some it -> isNull (pixmap it) = true -> isLoading it = true ->
  requestThumbnail now p s = s.
Proof.
  intros Hp Hnull Hload. unfold requestThumbnail.
  destruct (noSuchPage p s); [reflexivity |].
  destruct (m_lazyLoadingEnabled s && negb (shouldGenerateThumbnail p s)); [reflexivity |].
  by rewrite Hp, Hnull, Hload.
Qed.

(** X4.  [setThumbnailSize] with the size already set changes nothing, and
    so does [setThumbnailQuality] with a quality within 0.001 of the one
    set.  Otherwise the new parameter is stored and every image is dropped:
    no page has an image afterwards, the store holds the same pages, entries
    without an image are untouched, entries that had one keep page size,
    error and timestamp with zero bytes, no request is made and the memory
    accounting is kept.  A request in flight stays in flight: asking again
    for such a page dispatches nothing, so the image that arrives for it was
    rendered with the old parameters. *)
Theorem render_parameter_change_drops_images s :
  (forall size,
     if QSize_eqb (m_thumbnailSize s) size
     then setThumbnailSize size s = s
     else m_thumbnailSize (setThumbnailSize size s) = size
          /\ imagesDropped s (setThumbnailSize size s)
          /\ (accounted s -> accounted (setThumbnailSize size s)))
  /\ (forall quality,
        if (0.001 <? abs (m_thumbnailQuality s - quality))%float
        then m_thumbnailQuality (setThumbnailQuality quality s) = quality
             /\ imagesDropped s (setThumbnailQuality quality s)
             /\ (accounted s -> accounted (setThumbnailQuality quality s))
        else setThumbnailQuality quality s = s)
  /\ (forall s' now p it,
        imagesDropped s s' ->
        m_thumbnails s !! p = Some it ->
        isNull (pixmap it) = true -> isLoading it = true ->
        requestThumbnail now p s' = s').
Proof.
  split; [| split].
  - intros size. unfold setThumbnailSize.
    destruct (QSize_eqb (m_thumbnailSize s) size); simpl; [reflexivity |].
    split; [reflexivity |]. split; [by apply clearPixmaps_spec |].
    intros Hacc. apply clearPixmaps_accounted. revert Hacc. by apply accounted_same.
  - intros quality. unfold setThumbnailQuality.
    destruct (0.001 <? abs (m_thumbnailQuality s - quality))%float; [| reflexivity].
    split; [reflexivity |]. split; [by apply clearPixmaps_spec |].
    intros Hacc. apply clearPixmaps_accounted. revert Hacc. by apply accounted_same.
  - intros s' now p it (_ & _ & _ & Hkeep & _) Hp Hnull Hload.
    apply (requestThumbnail_in_flight now p it); [by apply Hkeep | done | done].
Qed.

(** ** What a completion leaves *)

Lemma evictByAdaptivePolicy_onlyCacheChanged s :
  onlyCacheChanged s (evictByAdaptivePolicy s).
Proof.
  destruct (evict_shrinks_or_same s) as [-> | (k & it & _ & [-> | ->])]; reflexivity.
Qed.

Lemma evictByAdaptivePolicy_only_deletes s k it :
  m_thumbnails (evictByAdaptivePolicy s) !! k = Some it -> m_thumbnails s !! k = Some it.
Proof.
  destruct (evict_shrinks_or_same s) as [-> | (v & vit & Hev)]; [done |].
  rewrite (evicted_store _ _ _ _ Hev).
  destruct (decide (k = v)) as [-> | Hne];
    [by rewrite lookup_delete_eq | by rewrite lookup_delete_ne].
Qed.

(** An eviction loop only deletes entries, and changes nothing outside the
    store, the tracked total and the access counters. *)
Lemma eviction_loop_only_deletes cond fuel s s' :
  while fuel cond evictByAdaptivePolicy s = Some s' ->
  (forall k it, m_thumbnails s' !! k = Some it -> m_thumbnails s !! k = Some it)
  /\ onlyCacheChanged s s'.
Proof.
  intros Hw.
  apply (while_preserves
           (fun s0 => (forall k it, m_thumbnails s0 !! k = Some it ->
                                    m_thumbnails s !! k = Some it)
                      /\ onlyCacheChanged s s0)
           cond evictByAdaptivePolicy) with (fuel := fuel) (s := s) (s' := s');
    [| by split | exact Hw].
  intros s0 [Hsub Honly] _. split.
  - intros k it Hk. by apply Hsub, evictByAdaptivePolicy_only_deletes.
  - unfold onlyCacheChanged in *. rewrite <- Honly.
    apply evictByAdaptivePolicy_onlyCacheChanged.
Qed.

(** X5.  When a completion for a tracked page returns, the page's entry, if
    it is still in the store, holds the delivered image, is neither loading
    nor in error, has the time of the completion as [lastAccessed] and
    [width * height * 4] bytes, and keeps its page size; every other entry
    still in the store is unchanged, no entry is created, and nothing
    outside the store, the tracked total and the access counters changes.
    When the new total is at or under the byte ceiling nothing is evicted. *)
Theorem completion_makes_entry_ready now pageNumber pm it s s' :
  m_thumbnails s !! pageNumber = Some it ->
  onThumbnailGenerated now pageNumber pm s = Some s' ->
  (forall it', m_thumbnails s' !! pageNumber = Some it' -> it' = readyItem now pm it)
  /\ (forall k it', k ≠ pageNumber -> m_thumbnails s' !! k = Some it' ->
        m_thumbnails s !! k = Some it')
  /\ (forall k, m_thumbnails s !! k = None -> m_thumbnails s' !! k = None)
  /\ onlyCacheChanged s s'
  /\ (wrap64 (m_currentMemory s + calculatePixmapMemory pm) <= m_maxMemory s ->
      m_thumbnails s' = <[pageNumber := readyItem now pm it]> (m_thumbnails s)
      /\ m_accessFrequency s' = m_accessFrequency s).
Proof.
  intros Hp. unfold onThumbnailGenerated. rewrite Hp.
  set (s1 := setCurrentMemory _ _). intros Hw.
  assert (Hs1 : m_thumbnails s1 = <[pageNumber := readyItem now pm it]> (m_thumbnails s))
    by reflexivity.
  destruct (eviction_loop_only_deletes _ _ _ _ Hw) as [Hsub Honly].
  split; [| split; [| split; [| split]]].
  - intros it' Hit'. apply Hsub in Hit'. rewrite Hs1, lookup_insert_eq in Hit'. congruence.
  - intros k it' Hne Hit'. apply Hsub in Hit'.
    by rewrite Hs1, lookup_insert_ne in Hit'.
  - intros k Hk. destruct (m_thumbnails s' !! k) as [it' |] eqn:Hk'; [| reflexivity].
    apply Hsub in Hk'. rewrite Hs1 in Hk'.
    destruct (decide (k = pageNumber)) as [-> | Hne]; [congruence |].
    rewrite lookup_insert_ne in Hk' by done. congruence.
  - exact Honly.
  - intros Hfits. unfold evictionRounds in Hw. simpl in Hw.
    assert (Hstop : overByteCeiling s1 = false).
    { unfold overByteCeiling, s1. simpl.
      match goal with |- (?a >? ?b) = false => destruct (Z.gtb_spec a b) end;
        [lia | reflexivity]. }
    rewrite Hstop in Hw. simpl in Hw. by injection Hw as <-.
Qed.

Lemma completion_makes_entry_ready_witness :
  exists it s',
    m_thumbnails overItems !! 1 = Some it
    /\ onThumbnailGenerated 50 1 (Pixmap 600 800) overItems = Some s'
    /\ m_thumbnails s' !! 1 = Some (readyItem 50 (Pixmap 600 800) it)
    /\ (forall k it', k ≠ 1 -> m_thumbnails s' !! k = Some it' ->
          m_thumbnails overItems !! k = Some it')
    /\ onlyCacheChanged overItems s'.
Proof.
  destruct (m_thumbnails overItems !! 1) as [it |] eqn:H1;
    [| vm_compute in H1; discriminate].
  destruct (onThumbnailGenerated 50 1 (Pixmap 600 800) overItems) as [s' |] eqn:Hc;
    [| vm_compute in Hc; discriminate].
  destruct (completion_makes_entry_ready 50 1 (Pixmap 600 800) it overItems s' H1 Hc)
    as (A & B & _ & D & _).
  exists it, s'. split; [reflexivity |]. split; [reflexivity |].
  split; [| split; [exact B | exact D]].
  destruct (m_thumbnails s' !! 1) as [it' |] eqn:H1';
    [by rewrite (A it' eq_refl) |].
  vm_compute in Hc. injection Hc as <-. vm_compute in H1'. discriminate.
Defined.

(** ** The priority map in general *)

Lemma foldl_insert_lookup (v : Z) (l : list Z) : forall (m : gmap Z Z) p,
  foldl (fun (m : gmap Z Z) i => <[i := v]> m) m l !! p
  = if bool_decide (p ∈ l) then Some v else m !! p.
Proof.
  induction l as [| i l IH]; intros m p; simpl; [reflexivity |].
  rewrite IH. destruct (decide (p = i)) as [-> | Hne].
  - rewrite lookup_insert_eq. rewrite (bool_decide_eq_true_2 (i ∈ i :: l)) by left.
    by destruct (bool_decide (i ∈ l)).
  - rewrite lookup_insert_ne by done.
    destruct (bool_decide (p ∈ l)) eqn:Hin.
    + apply bool_decide_eq_true_1 in Hin.
      by rewrite (bool_decide_eq_true_2 (p ∈ i :: l)) by (by right).
    + apply bool_decide_eq_false_1 in Hin.
      rewrite (bool_decide_eq_false_2 (p ∈ i :: l)); [done |].
      intros Hc. apply elem_of_cons in Hc as [? | ?]; done.
Qed.

Lemma foldl_guarded_insert_lookup (g : Z -> bool) (v : Z) (l : list Z) :
  forall (m : gmap Z Z) p,
  foldl (fun (m : gmap Z Z) i => if g i then <[i := v]> m else m) m l !! p
  = if bool_decide (p ∈ l) && g p then Some v else m !! p.
Proof.
  induction l as [| i l IH]; intros m p; simpl; [reflexivity |].
  rewrite IH. destruct (decide (p = i)) as [-> | Hne].
  - rewrite (bool_decide_eq_true_2 (i ∈ i :: l)) by left. simpl.
    destruct (g i); [rewrite lookup_insert_eq |];
      by destruct (bool_decide (i ∈ l)).
  - assert (Hsame : bool_decide (p ∈ i :: l) = bool_decide (p ∈ l)).
    { apply bool_decide_ext. rewrite elem_of_cons. tauto. }
    rewrite Hsame. destruct (bool_decide (p ∈ l) && g p); [reflexivity |].
    destruct (g i); [by rewrite lookup_insert_ne |]. reflexivity.
Qed.

Lemma pagesFromTo_elem first last p :
  bool_decide (p ∈ pagesFromTo first last) = (first <=? p) && (p <=? last).
Proof.
  unfold pagesFromTo.
  destruct ((first <=? p) && (p <=? last)) eqn:Hb.
  - apply bool_decide_eq_true_2, elem_of_seqZ.
    apply andb_true_iff in Hb as [H1 H2]. apply Z.leb_le in H1, H2. lia.
  - apply bool_decide_eq_false_2. rewrite elem_of_seqZ. intros [H1 H2].
    apply andb_false_iff in Hb as [Hb | Hb]; apply Z.leb_gt in Hb; lia.
Qed.

(** X6.  For a visible range [start..end_] inside the document and a margin
    that does not overflow, [setViewportRange] with lazy loading on rebuilds
    the priorities as follows: a page has tier 0 exactly when it is visible;
    tier 1 exactly when it lies within the margin before the range (not
    below page 0) or after it (not beyond the last page); every other page
    has the default tier 5.  A page is eligible for generation exactly when
    it lies between [max(0, start - margin)] and [end_ + margin]; so every
    page with tier 0 or 1 is eligible.  The previous priorities play no
    part. *)
Theorem viewport_priorities start end_ margin d s :
  m_document s = Some d -> m_lazyLoadingEnabled s = true ->
  0 <= start <= end_ -> end_ < numPages d <= INT_MAX ->
  0 <= margin -> end_ + margin <= INT_MAX ->
  let s' := setViewportRange start end_ margin s in
  (forall p,
     calculatePriority p s'
     = if (start <=? p) && (p <=? end_) then 0
       else if ((Z.max 0 (start - margin) <=? p) && (p <? start))
               || ((end_ <? p) && (p <=? Z.min (numPages d - 1) (end_ + margin)))
            then 1 else 5)
  /\ (forall p,
        isInViewport p s'
        = (Z.max 0 (start - margin) <=? p) && (p <=? end_ + margin))
  /\ (forall p, calculatePriority p s' < 5 -> shouldGenerateThumbnail p s' = true).
Proof.
  unfold INT_MAX. intros Hdoc Hlazy Hrange Hpages Hmargin Hnowrap.
  assert (Hw1 : wrap32 (start - margin) = start - margin) by (apply wrap32_small; lia).
  assert (Hw2 : wrap32 (end_ + margin) = end_ + margin) by (apply wrap32_small; lia).
  assert (Hw3 : wrap32 (numPages d - 1) = numPages d - 1) by (apply wrap32_small; lia).
  assert (Hprio : forall p,
     calculatePriority p (setViewportRange start end_ margin s)
     = if (start <=? p) && (p <=? end_) then 0
       else if ((Z.max 0 (start - margin) <=? p) && (p <? start))
               || ((end_ <? p) && (p <=? Z.min (numPages d - 1) (end_ + margin)))
            then 1 else 5).
  { intros p. unfold calculatePriority, setViewportRange. simpl. rewrite Hlazy.
    unfold updateViewportPriorities. cbn [m_document setViewport m_visibleStart
      m_visibleEnd m_viewportMargin m_pagePriorities setPagePriorities].
    rewrite Hdoc, Hw1, Hw2, Hw3. unfold setPagePriorities. cbn [m_pagePriorities].
    rewrite !foldl_insert_lookup, foldl_guarded_insert_lookup, !pagesFromTo_elem.
    rewrite lookup_empty.
    destruct (Z.leb_spec start p); destruct (Z.leb_spec p end_);
      destruct (Z.leb_spec (Z.max 0 (start - margin)) p);
      destruct (Z.ltb_spec p start); destruct (Z.ltb_spec end_ p);
      destruct (Z.leb_spec p (Z.min (numPages d - 1) (end_ + margin)));
      destruct (Z.leb_spec (end_ + 1) p); destruct (Z.leb_spec p (start - 1));
      destruct (Z.geb_spec p 0); destruct (Z.ltb_spec p (numPages d));
      simpl; try reflexivity; lia. }
  assert (Hview : forall p,
     isInViewport p (setViewportRange start end_ margin s)
     = (Z.max 0 (start - margin) <=? p) && (p <=? end_ + margin)).
  { intros p. unfold isInViewport, setViewportRange. simpl. rewrite Hlazy.
    unfold updateViewportPriorities. simpl. rewrite Hdoc. simpl.
    rewrite Hw1, Hw2.
    destruct (Z.ltb_spec start 0); [lia |]. destruct (Z.ltb_spec end_ 0); [lia |].
    simpl. by rewrite Z.geb_leb. }
  split; [exact Hprio |]. split; [exact Hview |].
  intros p Hlt. unfold shouldGenerateThumbnail.
  assert (Hl : m_lazyLoadingEnabled (setViewportRange start end_ margin s) = true).
  { unfold setViewportRange. simpl. rewrite Hlazy.
    unfold updateViewportPriorities. simpl. by rewrite Hdoc. }
  rewrite Hl, Hview. simpl. rewrite Hprio in Hlt.
  destruct (Z.leb_spec start p); destruct (Z.leb_spec p end_);
    destruct (Z.leb_spec (Z.max 0 (start - margin)) p);
    destruct (Z.ltb_spec p start); destruct (Z.ltb_spec end_ p);
    destruct (Z.leb_spec p (Z.min (numPages d - 1) (end_ + margin)));
    destruct (Z.leb_spec p (end_ + margin));
    simpl in *; try reflexivity; lia.
Qed.

Lemma viewport_priorities_witness :
  let s' := setViewportRange 2 4 3 (sampleModel 6) in
  (forall p,
     calculatePriority p s'
     = if (2 <=? p) && (p <=? 4) then 0
       else if ((Z.max 0 (2 - 3) <=? p) && (p <? 2))
               || ((4 <? p) && (p <=? Z.min (6 - 1) (4 + 3)))
            then 1 else 5)
  /\ (forall p, isInViewport p s' = (Z.max 0 (2 - 3) <=? p) && (p <=? 4 + 3))
  /\ (forall p, calculatePriority p s' < 5 -> shouldGenerateThumbnail p s' = true).
Proof.
  apply (viewport_priorities 2 4 3 (mkDocument 6 (fun _ => Some (mkQSize 595 842)))
           (sampleModel 6)); try reflexivity; unfold INT_MAX; simpl; lia.
Defined.

(** ** When a request is dispatched *)

(** X7.  [requestThumbnail] makes exactly one call to the generator when the
    page exists in the document, is eligible (lazy loading off, viewport
    unset, or page within the expanded viewport), has no image and is not
    loading; otherwise it makes none.  The call carries the page, the size
    and quality set at that moment and the page's priority.  The entry
    (created if the page had none) is then loading, with the error cleared
    and [lastAccessed] set to the time of the request; image, bytes and page
    size are kept, and neither the tracked total nor the access counters
    change. *)
Theorem requestThumbnail_dispatch now pageNumber s :
  let s' := requestThumbnail now pageNumber s in
  let old := default defaultItem (m_thumbnails s !! pageNumber) in
  if negb (noSuchPage pageNumber s) && shouldGenerateThumbnail pageNumber s
     && negb (hasCachedThumbnail pageNumber s)
     && negb (isThumbnailLoading pageNumber s)
  then generatorRequests s'
       = mkRequest pageNumber (m_thumbnailSize s) (m_thumbnailQuality s)
                   (calculatePriority pageNumber s) :: generatorRequests s
       /\ m_thumbnails s'
          = <[pageNumber := mkItem (pixmap old) true false EmptyString now
                                   (memorySize old) (pageSize old)]> (m_thumbnails s)
       /\ m_currentMemory s' = m_currentMemory s
       /\ m_accessFrequency s' = m_accessFrequency s
  else generatorRequests s' = generatorRequests s.
Proof.
  cbv zeta. unfold requestThumbnail, hasCachedThumbnail, isThumbnailLoading.
  destruct (noSuchPage pageNumber s); simpl; [reflexivity |].
  assert (Hlazy : m_lazyLoadingEnabled s && negb (shouldGenerateThumbnail pageNumber s)
                  = negb (shouldGenerateThumbnail pageNumber s)).
  { unfold shouldGenerateThumbnail. by destruct (m_lazyLoadingEnabled s). }
  rewrite Hlazy. destruct (shouldGenerateThumbnail pageNumber s); simpl; [| reflexivity].
  destruct (m_thumbnails s !! pageNumber) as [it |] eqn:Hp; simpl.
  - destruct (isNull (pixmap it)); simpl.
    + destruct (isLoading it); simpl; [reflexivity |].
      destruct (hasError it); unfold markLoadingAndDispatch; simpl;
        rewrite ?lookup_insert_eq, ?insert_insert_eq, ?Hp; by simpl.
    + unfold updateAccessFrequency. by destruct (_ >? _).
  - unfold markLoadingAndDispatch. simpl. rewrite Hp. by simpl.
Qed.

(** ** The preload queue *)

Lemma preload_fold_elem (g : Z -> bool) (l : list Z) : forall (q : gset Z) p,
  p ∈ foldl (fun (q : gset Z) i => if g i then {[ i ]} ∪ q else q) q l
  <-> p ∈ q \/ (p ∈ l /\ g p = true).
Proof.
  induction l as [| i l IH]; intros q p; simpl.
  - rewrite elem_of_nil. tauto.
  - rewrite IH, elem_of_cons. destruct (g i) eqn:Hg.
    + rewrite elem_of_union, elem_of_singleton. split.
      * intros [[-> | ?] | [? ?]]; auto.
      * intros [? | [[-> | ?] ?]]; auto.
    + split.
      * intros [? | [? ?]]; auto.
      * intros [? | [[-> | ?] ?]]; auto. congruence.
Qed.

(** X8.  [preloadVisibleRange] queues exactly the pages between
    [max(0, firstVisible - m_preloadRange)] and
    [min(numPages - 1, lastVisible + m_preloadRange)] for which
    [shouldPreload] holds, beside what was queued already: a queued page is
    never queued twice, and every page it adds exists in the document, has
    no image, is not loading and is not in error.  The timer runs afterwards
    if it ran before or the queue is not empty.  The store is untouched and
    nothing is requested yet; without a document nothing changes. *)
Theorem preloadVisibleRange_queue firstVisible lastVisible s :
  let s' := preloadVisibleRange firstVisible lastVisible s in
  match m_document s with
  | None => s' = s
  | Some d =>
      let startPage := Z.max 0 (wrap32 (firstVisible - m_preloadRange s)) in
      let endPage :=
        Z.min (wrap32 (numPages d - 1)) (wrap32 (lastVisible + m_preloadRange s)) in
      (forall p, p ∈ m_preloadQueue s'
                 <-> p ∈ m_preloadQueue s
                     \/ (startPage <= p <= endPage /\ shouldPreload p s = true))
      /\ (forall p, p ∈ m_preloadQueue s' -> p ∉ m_preloadQueue s ->
            noSuchPage p s = false /\ hasCachedThumbnail p s = false
            /\ pageIsLoading p s = false /\ pageHasError p s = false)
      /\ m_preloadTimerActive s'
         = m_preloadTimerActive s || negb (bool_decide (m_preloadQueue s' = ∅))
      /\ m_thumbnails s' = m_thumbnails s
      /\ m_currentMemory s' = m_currentMemory s
      /\ generatorRequests s' = generatorRequests s
  end.
Proof.
  cbv zeta. unfold preloadVisibleRange.
  destruct (m_document s) as [d |] eqn:Hdoc; [| reflexivity].
  set (startPage := Z.max 0 _). set (endPage := Z.min _ _).
  assert (Helem : forall p,
            p ∈ foldl (fun (q : gset Z) i => if shouldPreload i s then {[ i ]} ∪ q else q)
                  (m_preloadQueue s) (pagesFromTo startPage endPage)
            <-> p ∈ m_preloadQueue s
                \/ (startPage <= p <= endPage /\ shouldPreload p s = true)).
  { intros p. rewrite (preload_fold_elem (fun i => shouldPreload i s)).
    unfold pagesFromTo. rewrite elem_of_seqZ.
    split; (intros [? | [? ?]]; [by left | right; split; [lia | done]]). }
  simpl. split; [exact Helem |]. split; [| split; [| done]].
  - intros p Hin Hnot. apply Helem in Hin as [? | [_ Hpre]]; [done |].
    unfold shouldPreload in Hpre.
    unfold hasCachedThumbnail, pageIsLoading, pageHasError.
    destruct (noSuchPage p s); [discriminate |].
    destruct (m_thumbnails s !! p) as [it |]; [| done].
    destruct (isNull (pixmap it)); simpl in *; [| discriminate].
    destruct (isLoading it); simpl in *; [discriminate |].
    by destruct (hasError it).
  - destruct (bool_decide _); destruct (m_preloadTimerActive s); reflexivity.
Qed.

Lemma requestThumbnail_preload now p s :
  m_preloadQueue (requestThumbnail now p s) = m_preloadQueue s
  /\ m_preloadTimerActive (requestThumbnail now p s) = m_preloadTimerActive s
  /\ m_preloadRange (requestThumbnail now p s) = m_preloadRange s.
Proof.
  unfold requestThumbnail.
  destruct (noSuchPage p s); [done |].
  destruct (m_lazyLoadingEnabled s && negb (shouldGenerateThumbnail p s)); [done |].
  destruct (m_thumbnails s !! p) as [it |]; [| done].
  destruct (negb (isNull (pixmap it))).
  - unfold updateAccessFrequency. by destruct (_ >? _).
  - destruct (isLoading it); [done |]. by destruct (hasError it).
Qed.

(** A request adds at most one call to the generator, in front of those
    made before. *)
Lemma requestThumbnail_requests now p s :
  generatorRequests (requestThumbnail now p s) = generatorRequests s
  \/ exists r, reqPage r = p
               /\ generatorRequests (requestThumbnail now p s) = r :: generatorRequests s.
Proof.
  unfold requestThumbnail.
  destruct (noSuchPage p s); [by left |].
  destruct (m_lazyLoadingEnabled s && negb (shouldGenerateThumbnail p s)); [by left |].
  destruct (m_thumbnails s !! p) as [it |];
    [| right; eexists; split; [| reflexivity]; reflexivity].
  destruct (negb (isNull (pixmap it))).
  - left. unfold updateAccessFrequency. by destruct (_ >? _).
  - destruct (isLoading it); [by left |].
    destruct (hasError it); right; eexists; (split; [| reflexivity]); reflexivity.
Qed.

(** One tick: an empty queue stops the timer; otherwise one queued page
    leaves the queue and is requested, and the timer stops when that was the
    last one. *)
Lemma onPreloadTimer_spec now s :
  let s' := onPreloadTimer now s in
  (m_preloadQueue s = ∅ ->
     m_preloadQueue s' = ∅ /\ m_preloadTimerActive s' = false
     /\ generatorRequests s' = generatorRequests s)
  /\ (m_preloadQueue s ≠ ∅ ->
        exists p, p ∈ m_preloadQueue s
          /\ m_preloadQueue s' = m_preloadQueue s ∖ {[ p ]}
          /\ S (size (m_preloadQueue s')) = size (m_preloadQueue s)
          /\ m_preloadTimerActive s'
             = (if bool_decide (m_preloadQueue s' = ∅) then false
                else m_preloadTimerActive s)
          /\ (generatorRequests s' = generatorRequests s
              \/ exists r, reqPage r = p
                           /\ generatorRequests s' = r :: generatorRequests s)).
Proof.
  cbv zeta. unfold onPreloadTimer.
  destruct (elements (m_preloadQueue s)) as [| p rest] eqn:Hel.
  - apply elements_empty_iff, leibniz_equiv in Hel. split; [| done].
    intros _. simpl. by rewrite Hel.
  - split.
    { intros Hempty. rewrite Hempty, elements_empty in Hel. discriminate. }
    intros _. exists p.
    assert (Hin : p ∈ m_preloadQueue s).
    { apply elem_of_elements. rewrite Hel. left. }
    set (s1 := setPreload _ _ _ s).
    destruct (requestThumbnail_preload now p s1) as (Hq & Ht & _).
    assert (Hq' : m_preloadQueue
                    (if bool_decide (m_preloadQueue s ∖ {[p]} = ∅)
                     then setPreload (m_preloadRange (requestThumbnail now p s1))
                            (m_preloadQueue (requestThumbnail now p s1)) false
                            (requestThumbnail now p s1)
                     else requestThumbnail now p s1)
                  = m_preloadQueue s ∖ {[ p ]}).
    { destruct (bool_decide _); simpl; by rewrite Hq. }
    split; [exact Hin |]. split; [exact Hq' |]. split; [| split].
    + rewrite Hq'. rewrite size_difference by (by apply singleton_subseteq_l).
      rewrite size_singleton.
      assert (size (m_preloadQueue s) ≠ 0%nat); [| lia].
      intros Hz. apply size_empty_inv in Hz. rewrite Hz in Hin.
      by apply not_elem_of_empty in Hin.
    + rewrite Hq'. destruct (bool_decide _); simpl; [reflexivity | by rewrite Ht].
    + destruct (requestThumbnail_requests now p s1) as [H | H];
        destruct (bool_decide _); simpl; [by left | by left | by right | by right].
Qed.

Lemma preload_ticks_drain clock : forall s,
  (size (m_preloadQueue s) <= length clock)%nat -> clock ≠ [] ->
  let s' := preloadTicks clock s in
  m_preloadQueue s' = ∅
  /\ m_preloadTimerActive s' = false
  /\ exists new, generatorRequests s' = new ++ generatorRequests s
                 /\ (length new <= size (m_preloadQueue s))%nat
                 /\ forall r, r ∈ new -> reqPage r ∈ m_preloadQueue s.
Proof.
  induction clock as [| now clock IH]; intros s Hsize Hne; [done |].
  cbv zeta. unfold preloadTicks. simpl. fold (preloadTicks clock (onPreloadTimer now s)).
  destruct (onPreloadTimer_spec now s) as [Hempty Hstep].
  destruct (decide (m_preloadQueue s = ∅)) as [Hq | Hq].
  - destruct (Hempty Hq) as (Hq1 & Ht1 & Hr1).
    destruct clock as [| now' clock].
    + simpl. split; [exact Hq1 |]. split; [exact Ht1 |].
      exists []. rewrite Hr1. split; [done |]. split; [simpl; lia |].
      intros r Hr. by apply elem_of_nil in Hr.
    + destruct (IH (onPreloadTimer now s)) as (A & B & new & Hnew & Hlen & Hpages);
        [rewrite Hq1, size_empty; simpl; lia | done |].
      split; [exact A |]. split; [exact B |].
      exists new. rewrite Hnew, Hr1. split; [done |].
      rewrite Hq1, size_empty in Hlen. split; [lia |].
      intros r Hr. destruct new; [by apply elem_of_nil in Hr | simpl in Hlen; lia].
  - destruct (Hstep Hq) as (p & Hin & Hq1 & Hs1 & Ht1 & Hr1).
    simpl in Hsize.
    destruct clock as [| now' clock].
    + simpl. assert (Hz : m_preloadQueue (onPreloadTimer now s) = ∅).
      { apply leibniz_equiv, size_empty_inv. simpl in Hsize. lia. }
      split; [exact Hz |]. split; [by rewrite Ht1, Hz, bool_decide_eq_true_2 |].
      destruct Hr1 as [Hr1 | (r & Hrp & Hr1)].
      * exists []. rewrite Hr1. split; [done |]. split; [simpl; lia |].
        intros r Hr. by apply elem_of_nil in Hr.
      * exists [r]. rewrite Hr1. split; [done |]. split; [simpl; lia |].
        intros r' Hr'. apply list_elem_of_singleton in Hr' as ->. by rewrite Hrp.
    + destruct (IH (onPreloadTimer now s)) as (A & B & new & Hnew & Hlen & Hpages);
        [simpl in *; lia | done |].
      split; [exact A |]. split; [exact B |].
      assert (Hsub : forall r, r ∈ new -> reqPage r ∈ m_preloadQueue s).
      { intros r Hr. apply Hpages in Hr. rewrite Hq1 in Hr.
        by apply elem_of_difference in Hr as [Hr _]. }
      destruct Hr1 as [Hr1 | (r & Hrp & Hr1)].
      * exists new. rewrite Hnew, Hr1. split; [done |]. split; [lia | exact Hsub].
      * exists (new ++ [r]). rewrite Hnew, Hr1, <- app_assoc. split; [done |].
        split; [rewrite length_app; simpl; lia |].
        intros r' Hr'. apply elem_of_app in Hr' as [Hr' | Hr']; [by apply Hsub |].
        apply list_elem_of_singleton in Hr' as ->. by rewrite Hrp.
Qed.

(** X9.  The preload timer drains the queue one page per tick.  A tick on an
    empty queue stops the timer and changes nothing else.  A tick on a
    non-empty queue takes exactly one queued page out and hands it to
    [requestThumbnail]: the store and the access counters afterwards are
    those [requestThumbnail] leaves for that page, one call goes to the
    generator exactly when the page exists, is eligible, has no image and is
    not loading, and the timer stops when the queue has become empty.  A
    tick never queues anything.  After as many ticks as there were queued
    pages (at least one) the queue is empty and the timer has stopped; the
    ticks have added at most one request per queued page, each for a page
    that was queued, in front of the requests made before. *)
Theorem preload_timer_drains_queue :
  (forall now s,
     let s' := onPreloadTimer now s in
     (m_preloadQueue s = ∅ ->
        m_preloadQueue s' = ∅ /\ m_preloadTimerActive s' = false
        /\ generatorRequests s' = generatorRequests s
        /\ m_thumbnails s' = m_thumbnails s
        /\ m_accessFrequency s' = m_accessFrequency s)
     /\ (m_preloadQueue s ≠ ∅ ->
           exists p, p ∈ m_preloadQueue s
             /\ m_preloadQueue s' = m_preloadQueue s ∖ {[ p ]}
             /\ m_thumbnails s' = m_thumbnails (requestThumbnail now p s)
             /\ m_accessFrequency s' = m_accessFrequency (requestThumbnail now p s)
             /\ generatorRequests s'
                = (if wantsRequest p s then requestFor p s :: generatorRequests s
                   else generatorRequests s)
             /\ m_preloadTimerActive s'
                = (if bool_decide (m_preloadQueue s' = ∅) then false
                   else m_preloadTimerActive s)))
  /\ (forall clock s,
        (size (m_preloadQueue s) <= length clock)%nat -> clock ≠ [] ->
        let s' := preloadTicks clock s in
        m_preloadQueue s' = ∅
        /\ m_preloadTimerActive s' = false
        /\ exists new, generatorRequests s' = new ++ generatorRequests s
                       /\ (length new <= size (m_preloadQueue s))%nat
                       /\ forall r, r ∈ new -> reqPage r ∈ m_preloadQueue s).
Proof.
  split; [| intros clock s; apply preload_ticks_drain].
  intros now s. cbv zeta. unfold onPreloadTimer.
  destruct (elements (m_preloadQueue s)) as [| p rest] eqn:Hel.
  - apply elements_empty_iff, leibniz_equiv in Hel. split; [| done].
    intros _. simpl. by rewrite Hel.
  - split.
    { intros Hempty. rewrite Hempty, elements_empty in Hel. discriminate. }
    intros _. exists p. split.
    { apply elem_of_elements. rewrite Hel. left. }
    rewrite requestThumbnail_setPreload.
    rewrite <- (requestThumbnail_requests_exact now p s).
    destruct (bool_decide (m_preloadQueue s ∖ {[p]} = ∅)) eqn:Hlast; simpl;
      rewrite Hlast; repeat apply conj; reflexivity.
Qed.

Lemma preload_timer_drains_queue_witness :
  let s' := preloadTicks [1; 2; 3; 4; 5; 6; 7; 8; 9] ninePagesQueued in
  size (m_preloadQueue ninePagesQueued) = 9%nat
  /\ length (generatorRequests (onPreloadTimer 1 ninePagesQueued)) = 1%nat
  /\ (exists p, p ∈ m_preloadQueue ninePagesQueued
         /\ m_preloadQueue (onPreloadTimer 1 ninePagesQueued)
            = m_preloadQueue ninePagesQueued ∖ {[ p ]}
         /\ m_thumbnails (onPreloadTimer 1 ninePagesQueued)
            = m_thumbnails (requestThumbnail 1 p ninePagesQueued))
  /\ m_preloadQueue s' = ∅
  /\ m_preloadTimerActive s' = false
  /\ exists new, generatorRequests s' = new ++ generatorRequests ninePagesQueued
                 /\ (length new <= size (m_preloadQueue ninePagesQueued))%nat
                 /\ forall r, r ∈ new -> reqPage r ∈ m_preloadQueue ninePagesQueued.
Proof.
  assert (Hsize : size (m_preloadQueue ninePagesQueued) = 9%nat)
    by (vm_compute; reflexivity).
  assert (Hone : length (generatorRequests (onPreloadTimer 1 ninePagesQueued)) = 1%nat)
    by (vm_compute; reflexivity).
  assert (Hne : m_preloadQueue ninePagesQueued ≠ ∅).
  { intros Hq. rewrite Hq, size_empty in Hsize. discriminate. }
  destruct preload_timer_drains_queue as [Htick Hdrain].
  destruct (Htick 1 ninePagesQueued) as [_ Hstep].
  destruct (Hstep Hne) as (p & Hin & Hq & Ht & _).
  split; [exact Hsize |]. split; [exact Hone |].
  split; [exact (ex_intro _ p (conj Hin (conj Hq Ht))) |].
  apply (Hdrain [1; 2; 3; 4; 5; 6; 7; 8; 9] ninePagesQueued).
  - rewrite Hsize. simpl. lia.
  - discriminate.
Defined.

(** ** A failed generation *)

Lemma preloadVisibleRange_elem a b s p :
  p ∈ m_preloadQueue (preloadVisibleRange a b s) ->
  p ∈ m_preloadQueue s \/ shouldPreload p s = true.
Proof.
  unfold preloadVisibleRange. destruct (m_document s) as [d |]; [| by left].
  simpl. rewrite (preload_fold_elem (fun i => shouldPreload i s)).
  intros [? | [_ ?]]; [by left | by right].
Qed.

Lemma retry_after_failure now pageNumber it s :
  noSuchPage pageNumber s = false ->
  shouldGenerateThumbnail pageNumber s = true ->
  m_thumbnails s !! pageNumber = Some it ->
  isNull (pixmap it) = true -> isLoading it = false -> hasError it = true ->
  requestThumbnail now pageNumber s
  = markLoadingAndDispatch now pageNumber
      (setThumbnails (<[pageNumber := withError false EmptyString it]> (m_thumbnails s)) s).
Proof.
  intros Hv Hg Hp Hn Hl He. unfold requestThumbnail.
  rewrite Hv, Hg, andb_false_r, Hp, Hn, Hl, He. reflexivity.
Qed.

(** X10.  A failure reported for a tracked page marks its entry as failed
    with the message, not loading, accessed at the time of the failure; it
    keeps the image and bytes the entry may hold (a page that failed after
    it had succeeded is still served), evicts nothing and leaves the tracked
    total and the preload queue alone.  The failed page is not queued anew:
    [shouldPreload] is false for it and [preloadVisibleRange] adds it to no
    queue.  It is retried all the same (when valid, eligible and without
    image) by whatever reaches [requestThumbnail]: a direct request, and
    also the preload timer, when the page was in the queue already before it
    failed and is the page the tick takes.  Either clears the error, marks
    the entry as loading and dispatches one more request. *)
Theorem failure_is_recorded_and_retried_on_request now pageNumber error it s :
  m_thumbnails s !! pageNumber = Some it ->
  let s' := onThumbnailError now pageNumber error s in
  m_thumbnails s'
  = <[pageNumber := mkItem (pixmap it) false true error now (memorySize it)
                           (pageSize it)]> (m_thumbnails s)
  /\ onlyStoreChanged s s'
  /\ m_currentMemory s' = m_currentMemory s
  /\ m_preloadQueue s' = m_preloadQueue s
  /\ hasCachedThumbnail pageNumber s' = hasCachedThumbnail pageNumber s
  /\ pageHasError pageNumber s' = true
  /\ pageErrorMessage pageNumber s' = error
  /\ shouldPreload pageNumber s' = false
  /\ (forall a b, pageNumber ∈ m_preloadQueue (preloadVisibleRange a b s') ->
        pageNumber ∈ m_preloadQueue s)
  /\ (forall now',
        noSuchPage pageNumber s = false ->
        shouldGenerateThumbnail pageNumber s = true ->
        isNull (pixmap it) = true ->
        let s'' := requestThumbnail now' pageNumber s' in
        pageHasError pageNumber s'' = false
        /\ pageErrorMessage pageNumber s'' = EmptyString
        /\ pageIsLoading pageNumber s'' = true
        /\ generatorRequests s'' = requestFor pageNumber s :: generatorRequests s)
  /\ (forall now' rest,
        elements (m_preloadQueue s) = pageNumber :: rest ->
        noSuchPage pageNumber s = false ->
        shouldGenerateThumbnail pageNumber s = true ->
        isNull (pixmap it) = true ->
        let s'' := onPreloadTimer now' s' in
        pageHasError pageNumber s'' = false
        /\ pageIsLoading pageNumber s'' = true
        /\ generatorRequests s'' = requestFor pageNumber s :: generatorRequests s).
Proof.
  intros Hp. cbv zeta. unfold onThumbnailError. rewrite Hp.
  set (failed := mkItem (pixmap it) false true error now (memorySize it) (pageSize it)).
  set (s' := setThumbnails _ s).
  assert (Hlook : m_thumbnails s' !! pageNumber = Some failed)
    by (simpl; apply lookup_insert_eq).
  assert (Hpre : shouldPreload pageNumber s' = false).
  { unfold shouldPreload. destruct (noSuchPage pageNumber s'); [done |].
    rewrite Hlook. simpl. by destruct (isNull (pixmap it)). }
  assert (Hretry : forall now',
            noSuchPage pageNumber s = false ->
            shouldGenerateThumbnail pageNumber s = true ->
            isNull (pixmap it) = true ->
            m_thumbnails (requestThumbnail now' pageNumber s') !! pageNumber
            = Some (mkItem (pixmap it) true false EmptyString now' (memorySize it)
                           (pageSize it))
            /\ generatorRequests (requestThumbnail now' pageNumber s')
               = requestFor pageNumber s :: generatorRequests s).
  { intros now' Hv Hg Hn.
    rewrite (retry_after_failure now' pageNumber failed s' Hv Hg Hlook Hn eq_refl eq_refl).
    unfold markLoadingAndDispatch. simpl. rewrite !lookup_insert_eq. simpl.
    by rewrite ?lookup_insert_eq. }
  repeat apply conj; try reflexivity.
  - unfold hasCachedThumbnail. by rewrite Hlook, Hp.
  - unfold pageHasError. by rewrite Hlook.
  - unfold pageErrorMessage. by rewrite Hlook.
  - exact Hpre.
  - intros a b Hin. destruct (preloadVisibleRange_elem a b s' pageNumber Hin) as [H | H];
      [exact H | congruence].
  - intros now' Hv Hg Hn. cbv zeta.
    destruct (Hretry now' Hv Hg Hn) as [Hentry Hreq].
    unfold pageHasError, pageErrorMessage, pageIsLoading. by rewrite Hentry, Hreq.
  - intros now' rest Hnext Hv Hg Hn. cbv zeta.
    destruct (Hretry now' Hv Hg Hn) as [Hentry Hreq].
    unfold onPreloadTimer.
    change (m_preloadQueue s') with (m_preloadQueue s). rewrite Hnext.
    rewrite requestThumbnail_setPreload.
    unfold pageHasError, pageIsLoading.
    destruct (bool_decide (m_preloadQueue s ∖ {[pageNumber]} = ∅)); simpl;
      by rewrite Hentry, Hreq.
Qed.

Lemma failure_is_recorded_and_retried_on_request_witness :
  exists it,
    m_thumbnails queuedThenRequested !! 0 = Some it
    /\ elements (m_preloadQueue queuedThenRequested) = [0]
    /\ length (generatorRequests queuedThenRequested) = 1%nat
    /\ let s' := onThumbnailError 5 0 "decode error" queuedThenRequested in
       pageHasError 0 s' = true
       /\ shouldPreload 0 s' = false
       /\ m_currentMemory s' = m_currentMemory queuedThenRequested
       /\ pageIsLoading 0 (requestThumbnail 6 0 s') = true
       /\ pageIsLoading 0 (onPreloadTimer 6 s') = true
       /\ generatorRequests (onPreloadTimer 6 s')
          = requestFor 0 queuedThenRequested :: generatorRequests queuedThenRequested.
Proof.
  destruct (m_thumbnails queuedThenRequested !! 0) as [it |] eqn:H1;
    [| vm_compute in H1; discriminate].
  assert (Hnext : elements (m_preloadQueue queuedThenRequested) = [0])
    by (vm_compute; reflexivity).
  assert (Hreq : length (generatorRequests queuedThenRequested) = 1%nat)
    by (vm_compute; reflexivity).
  assert (Hv : noSuchPage 0 queuedThenRequested = false) by (vm_compute; reflexivity).
  assert (Hg : shouldGenerateThumbnail 0 queuedThenRequested = true)
    by (vm_compute; reflexivity).
  assert (Hn : isNull (pixmap it) = true)
    by (vm_compute in H1; injection H1 as <-; reflexivity).
  exists it. split; [reflexivity |]. split; [exact Hnext |]. split; [exact Hreq |].
  destruct (failure_is_recorded_and_retried_on_request
              5 0 "decode error" it queuedThenRequested H1)
    as (_ & _ & M & _ & _ & E & _ & P & _ & R & T).
  destruct (R 6 Hv Hg Hn) as (_ & _ & L & _).
  destruct (T 6 [] Hnext Hv Hg Hn) as (_ & L' & G').
  exact (conj E (conj P (conj M (conj L (conj L' G'))))).
Defined.

(** ** Reading through [data] *)

Lemma requestThumbnail_statistics now p s :
  m_cacheHits (requestThumbnail now p s) = m_cacheHits s
  /\ m_cacheMisses (requestThumbnail now p s) = m_cacheMisses s
  /\ m_currentMemory (requestThumbnail now p s) = m_currentMemory s.
Proof.
  unfold requestThumbnail.
  destruct (noSuchPage p s); [done |].
  destruct (m_lazyLoadingEnabled s && negb (shouldGenerateThumbnail p s)); [done |].
  destruct (m_thumbnails s !! p) as [it |]; [| done].
  destruct (negb (isNull (pixmap it))).
  - unfold updateAccessFrequency. by destruct (_ >? _).
  - destruct (isLoading it); [done |]. by destruct (hasError it).
Qed.

Lemma updateAccessFrequency_fields q s :
  m_thumbnails (updateAccessFrequency q s) = m_thumbnails s
  /\ m_cacheHits (updateAccessFrequency q s) = m_cacheHits s
  /\ m_cacheMisses (updateAccessFrequency q s) = m_cacheMisses s
  /\ m_currentMemory (updateAccessFrequency q s) = m_currentMemory s
  /\ generatorRequests (updateAccessFrequency q s) = generatorRequests s
  /\ m_document (updateAccessFrequency q s) = m_document s.
Proof. unfold updateAccessFrequency. by destruct (_ >? _). Qed.

Lemma updateAccessFrequency_own_counter q s :
  let counted := <[q := wrap32 (frequencyOf q s + 1)]> (m_accessFrequency s) in
  frequencyOf q (updateAccessFrequency q s)
  = if (Z.of_nat (size counted) >? wrap32 (m_maxCacheSize s * 2))
       && (wrap32 (frequencyOf q s + 1) <=? 1)
    then 0 else wrap32 (frequencyOf q s + 1).
Proof.
  cbv zeta. unfold updateAccessFrequency.
  set (counted := <[q := wrap32 (frequencyOf q s + 1)]> (m_accessFrequency s)).
  assert (Hq : counted !! q = Some (wrap32 (frequencyOf q s + 1)))
    by apply lookup_insert_eq.
  destruct (Z.of_nat (size counted) >? wrap32 (m_maxCacheSize s * 2)); simpl;
    rewrite frequencyOf_set; [| by rewrite Hq].
  destruct (Z.leb_spec (wrap32 (frequencyOf q s + 1)) 1) as [Hle | Hgt].
  - rewrite map_lookup_filter_None_2; [reflexivity |].
    right. intros x Hx. rewrite Hq in Hx. injection Hx as <-. simpl. lia.
  - rewrite (map_lookup_filter_Some_2 _ _ _ _ Hq); [reflexivity |]. simpl. lia.
Qed.

Lemma pixmap_read_spec now index d s :
  m_document s = Some d -> isValid index = true -> 0 <= row index < numPages d ->
  let p := row index in
  let r := data now index PixmapRole s in
  m_currentMemory r.2 = m_currentMemory s
  /\ m_accessFrequency r.2
     = match m_thumbnails s !! p with
       | Some _ => m_accessFrequency (updateAccessFrequency p s)
       | None => m_accessFrequency s
       end
  /\ if hasCachedThumbnail p s
     then (exists it, m_thumbnails s !! p = Some it /\ r.1 = VPixmap (pixmap it)
             /\ m_thumbnails r.2 = <[p := withLastAccessed now it]> (m_thumbnails s))
          /\ m_cacheHits r.2 = wrap32 (m_cacheHits s + 1)
          /\ m_cacheMisses r.2 = m_cacheMisses s
          /\ generatorRequests r.2 = generatorRequests s
     else r.1 = VInvalid
          /\ m_cacheHits r.2 = m_cacheHits s
          /\ m_cacheMisses r.2 = wrap32 (m_cacheMisses s + 1)
          /\ (isThumbnailLoading p s = true ->
              generatorRequests r.2 = generatorRequests s
              /\ forall k, k ≠ p -> m_thumbnails r.2 !! k = m_thumbnails s !! k).
Proof.
  intros Hdoc Hvalid Hrow. cbv zeta. unfold data. rewrite Hdoc, Hvalid. simpl.
  assert (Hin : (row index <? 0) || (row index >=? numPages d) = false).
  { apply orb_false_iff. split; [apply Z.ltb_ge | rewrite Z.geb_leb; apply Z.leb_gt]; lia. }
  rewrite Hin. unfold hasCachedThumbnail, isThumbnailLoading.
  destruct (m_thumbnails s !! row index) as [it |] eqn:Hp.
  - set (touched := setThumbnails (<[row index := withLastAccessed now it]> (m_thumbnails s)) s).
    destruct (updateAccessFrequency_fields (row index) touched) as (Ut & Uh & Um & Uc & Ur & _).
    assert (Hfreq : m_accessFrequency (updateAccessFrequency (row index) touched)
                    = m_accessFrequency (updateAccessFrequency (row index) s))
      by (unfold updateAccessFrequency; simpl; by destruct (_ >? _)).
    destruct (isNull (pixmap it)) eqn:Hnull; simpl.
    + set (s2 := setHitsMisses _ _ _).
      destruct (requestThumbnail_statistics now (row index) s2) as (Rh & Rm & Rc).
      rewrite Rh, Rm, Rc. simpl. rewrite Uh, Um, Uc.
      assert (Hnull2 : forall it', m_thumbnails s2 !! row index = Some it' ->
                isNull (pixmap it') = true).
      { intros it'. simpl. rewrite Ut. simpl. rewrite lookup_insert_eq.
        by intros [= <-]. }
      rewrite (requestThumbnail_no_count now (row index) s2 Hnull2). simpl.
      rewrite Hfreq. repeat apply conj; try reflexivity.
      intros Hload.
      assert (Hsame : requestThumbnail now (row index) s2 = s2).
      { apply (requestThumbnail_in_flight now (row index) (withLastAccessed now it));
          [simpl; rewrite Ut; simpl; apply lookup_insert_eq | exact Hnull | exact Hload]. }
      rewrite Hsame. simpl. rewrite Ur, Ut. simpl. split; [reflexivity |].
      intros k Hk. by rewrite lookup_insert_ne.
    + rewrite Uh, Um, Uc, Ur, Ut, Hfreq. simpl.
      repeat apply conj; try reflexivity. by exists it.
  - simpl. set (s2 := setHitsMisses _ _ _).
    destruct (requestThumbnail_statistics now (row index) s2) as (Rh & Rm & Rc).
    rewrite Rh, Rm, Rc. simpl.
    assert (Hnull2 : forall it', m_thumbnails s2 !! row index = Some it' ->
              isNull (pixmap it') = true)
      by (intros it'; simpl; rewrite Hp; discriminate).
    rewrite (requestThumbnail_no_count now (row index) s2 Hnull2). simpl.
    repeat apply conj; try reflexivity. discriminate.
Qed.

(** X11.  Reading the image of an existing page through [data] counts
    exactly one hit or one miss.  With an image in the store it is a hit:
    the image is returned, the entry's [lastAccessed] becomes the time of the
    read, nothing is requested and the miss counter stands.  Without one it
    is a miss: the invalid value is returned and the hit counter stands; the
    miss is counted also when the page is already loading and nothing is
    dispatched.  In both cases the tracked total is unchanged.  The table of
    access counters is left alone when the page had no entry; when it had
    one, the table is the one [updateAccessFrequency] leaves: the page's
    counter is one higher as long as the table, with the page in it, holds
    at most twice the item ceiling of pages, and otherwise the table is
    pruned of every counter that is at most 1, which takes the page's own
    counter back to 0 when it had just reached 1. *)
Theorem pixmap_read_counts_hit_or_miss now index d s :
  m_document s = Some d -> isValid index = true -> 0 <= row index < numPages d ->
  let p := row index in
  let r := data now index PixmapRole s in
  let counted := <[p := wrap32 (frequencyOf p s + 1)]> (m_accessFrequency s) in
  m_currentMemory r.2 = m_currentMemory s
  /\ m_accessFrequency r.2
     = match m_thumbnails s !! p with
       | Some _ => m_accessFrequency (updateAccessFrequency p s)
       | None => m_accessFrequency s
       end
  /\ (is_Some (m_thumbnails s !! p) ->
      frequencyOf p r.2
      = if (Z.of_nat (size counted) >? wrap32 (m_maxCacheSize s * 2))
           && (wrap32 (frequencyOf p s + 1) <=? 1)
        then 0 else wrap32 (frequencyOf p s + 1))
  /\ if hasCachedThumbnail p s
     then (exists it, m_thumbnails s !! p = Some it /\ r.1 = VPixmap (pixmap it)
             /\ m_thumbnails r.2 = <[p := withLastAccessed now it]> (m_thumbnails s))
          /\ m_cacheHits r.2 = wrap32 (m_cacheHits s + 1)
          /\ m_cacheMisses r.2 = m_cacheMisses s
          /\ generatorRequests r.2 = generatorRequests s
     else r.1 = VInvalid
          /\ m_cacheHits r.2 = m_cacheHits s
          /\ m_cacheMisses r.2 = wrap32 (m_cacheMisses s + 1)
          /\ (isThumbnailLoading p s = true ->
              generatorRequests r.2 = generatorRequests s
              /\ forall k, k ≠ p -> m_thumbnails r.2 !! k = m_thumbnails s !! k).
Proof.
  intros Hdoc Hvalid Hrow. cbv zeta.
  destruct (pixmap_read_spec now index d s Hdoc Hvalid Hrow) as (Hmem & Hfreq & Hrest).
  split; [exact Hmem |]. split; [exact Hfreq |]. split; [| exact Hrest].
  intros [it Hp]. rewrite Hp in Hfreq. unfold frequencyOf at 1. rewrite Hfreq.
  apply (updateAccessFrequency_own_counter (row index) s).
Qed.

Lemma pixmap_read_counts_hit_or_miss_witness :
  (let r := data 9 (Index 2) PixmapRole oneReadyTwoLoading in
   m_document oneReadyTwoLoading = sampleDocument 10
   /\ isThumbnailLoading 2 oneReadyTwoLoading = true
   /\ r.1 = VInvalid
   /\ m_cacheMisses r.2 = wrap32 (m_cacheMisses oneReadyTwoLoading + 1)
   /\ generatorRequests r.2 = generatorRequests oneReadyTwoLoading)
  /\ (let r := data 9 (Index 2) PixmapRole twoCounted in
      hasCachedThumbnail 2 twoCounted = true
      /\ frequencyOf 2 twoCounted = 0
      /\ m_cacheHits r.2 = wrap32 (m_cacheHits twoCounted + 1)
      /\ frequencyOf 2 r.2 = 0).
Proof.
  assert (Hdoc : m_document oneReadyTwoLoading
                 = Some (mkDocument 10 (fun _ => Some (mkQSize 595 842))))
    by (vm_compute; reflexivity).
  assert (Hload : isThumbnailLoading 2 oneReadyTwoLoading = true)
    by (vm_compute; reflexivity).
  assert (Hcached : hasCachedThumbnail 2 oneReadyTwoLoading = false)
    by (vm_compute; reflexivity).
  assert (Hdoc' : m_document twoCounted
                  = Some (mkDocument 10 (fun _ => Some (mkQSize 595 842))))
    by (vm_compute; reflexivity).
  assert (Hcached' : hasCachedThumbnail 2 twoCounted = true)
    by (vm_compute; reflexivity).
  assert (Hzero : frequencyOf 2 twoCounted = 0) by (vm_compute; reflexivity).
  assert (Htracked : is_Some (m_thumbnails twoCounted !! 2))
    by (eexists; vm_compute; reflexivity).
  assert (Hpruned :
            (Z.of_nat (size (<[2 := wrap32 (frequencyOf 2 twoCounted + 1)]>
                               (m_accessFrequency twoCounted)))
             >? wrap32 (m_maxCacheSize twoCounted * 2))
            && (wrap32 (frequencyOf 2 twoCounted + 1) <=? 1) = true)
    by (vm_compute; reflexivity).
  split.
  - pose proof (pixmap_read_counts_hit_or_miss 9 (Index 2) _ oneReadyTwoLoading
                  Hdoc eq_refl ltac:(simpl; lia)) as (_ & _ & _ & H).
    change (row (Index 2)) with 2 in H. rewrite Hcached in H.
    destruct H as (V & _ & M & R).
    exact (conj Hdoc (conj Hload (conj V (conj M (proj1 (R Hload)))))).
  - pose proof (pixmap_read_counts_hit_or_miss 9 (Index 2) _ twoCounted
                  Hdoc' eq_refl ltac:(simpl; lia)) as (_ & _ & C & H).
    change (row (Index 2)) with 2 in C, H. rewrite Hcached' in H.
    destruct H as (_ & Hhit & _).
    specialize (C Htracked). rewrite Hpruned in C.
    exact (conj Hcached' (conj Hzero (conj Hhit C))).
Defined.

Lemma data_pageSize now index d s :
  m_document s = Some d -> isValid index = true -> 0 <= row index < numPages d ->
  data now index PageSizeRole s
  = match cachedPageSize (row index) s with
    | Some known => (VSize known, s)
    | None =>
        match pageSizeOf d (row index) with
        | Some sz =>
            (VSize sz,
             setThumbnails
               (<[row index := withPageSize sz
                                 (default defaultItem (m_thumbnails s !! row index))]>
                  (m_thumbnails s)) s)
        | None => (VInvalid, s)
        end
    end.
Proof.
  intros Hdoc Hvalid Hrow. unfold data, cachedPageSize. rewrite Hdoc, Hvalid. simpl.
  assert (Hin : (row index <? 0) || (row index >=? numPages d) = false).
  { apply orb_false_iff. split; [apply Z.ltb_ge | rewrite Z.geb_leb; apply Z.leb_gt]; lia. }
  by rewrite Hin.
Qed.

(** X12.  Reading the page size through [data] answers from the store when
    the entry has a non-empty size, and then changes nothing.  Otherwise it
    asks the document; the size the document gives is returned and written
    into the page's entry, which is created when the page had none.  Such a
    created entry has no image, is not loading, costs no bytes and so keeps
    the accounting, but it does count as an item of the store, and the page
    is still a candidate for preloading.  Nothing but the store changes.  A
    second read of a non-empty size is answered from the store: same value,
    model unchanged. *)
Theorem page_size_read_is_cached now now' index d sz s :
  m_document s = Some d -> isValid index = true -> 0 <= row index < numPages d ->
  pageSizeOf d (row index) = Some sz ->
  let p := row index in
  let r := data now index PageSizeRole s in
  match cachedPageSize p s with
  | Some known => r = (VSize known, s)
  | None =>
      r.1 = VSize sz
      /\ m_thumbnails r.2
         = <[p := withPageSize sz (default defaultItem (m_thumbnails s !! p))]>
             (m_thumbnails s)
      /\ onlyStoreChanged s r.2
      /\ m_currentMemory r.2 = m_currentMemory s
      /\ (accounted s -> accounted r.2)
      /\ (m_thumbnails s !! p = None ->
          storeSize r.2 = storeSize s + 1
          /\ hasCachedThumbnail p r.2 = false
          /\ pageIsLoading p r.2 = false
          /\ shouldPreload p r.2 = true)
      /\ (QSize_isEmpty sz = false ->
          data now' index PageSizeRole r.2 = (VSize sz, r.2))
  end.
Proof.
  intros Hdoc Hvalid Hrow Hsize. cbv zeta.
  rewrite (data_pageSize now index d s Hdoc Hvalid Hrow).
  destruct (cachedPageSize (row index) s) as [known |] eqn:Hcached; [reflexivity |].
  rewrite Hsize. simpl.
  set (item := withPageSize sz (default defaultItem (m_thumbnails s !! row index))).
  set (s' := setThumbnails (<[row index := item]> (m_thumbnails s)) s).
  repeat apply conj; try reflexivity.
  - apply accounted_write. reflexivity.
  - intros Hnone. unfold storeSize, hasCachedThumbnail, pageIsLoading, shouldPreload.
    assert (Hpage : noSuchPage (row index) s' = false).
    { unfold noSuchPage. simpl. rewrite Hdoc.
      apply orb_false_iff. split; [apply Z.ltb_ge | rewrite Z.geb_leb; apply Z.leb_gt]; lia. }
    rewrite Hpage. simpl. rewrite lookup_insert_eq.
    rewrite map_size_insert_None by exact Hnone.
    unfold item. rewrite Hnone. simpl. repeat apply conj; try reflexivity. lia.
  - intros Hne. rewrite (data_pageSize now' index d s' Hdoc Hvalid Hrow).
    unfold cachedPageSize. simpl. rewrite lookup_insert_eq. simpl. by rewrite Hne.
Qed.

Lemma page_size_read_is_cached_witness :
  let r := data 9 (Index 7) PageSizeRole oneReadyTwoLoading in
  cachedPageSize 7 oneReadyTwoLoading = None
  /\ r.1 = VSize (mkQSize 595 842)
  /\ storeSize r.2 = storeSize oneReadyTwoLoading + 1
  /\ m_currentMemory r.2 = m_currentMemory oneReadyTwoLoading
  /\ data 10 (Index 7) PageSizeRole r.2 = (VSize (mkQSize 595 842), r.2).
Proof.
  assert (Hdoc : m_document oneReadyTwoLoading
                 = Some (mkDocument 10 (fun _ => Some (mkQSize 595 842))))
    by (vm_compute; reflexivity).
  assert (Hnone : m_thumbnails oneReadyTwoLoading !! 7 = None)
    by (vm_compute; reflexivity).
  assert (Hcached : cachedPageSize 7 oneReadyTwoLoading = None)
    by (vm_compute; reflexivity).
  pose proof (page_size_read_is_cached 9 10 (Index 7) _ (mkQSize 595 842)
                oneReadyTwoLoading Hdoc eq_refl ltac:(simpl; lia) eq_refl) as H.
  change (row (Index 7)) with 7 in H. cbv zeta in H. rewrite Hcached in H.
  destruct H as (V & _ & _ & M & _ & N & R).
  cbv zeta. split; [exact Hcached |]. split; [exact V |].
  split; [exact (proj1 (N Hnone)) |]. split; [exact M |]. exact (R eq_refl).
Defined.

(** X13.  The roles that report status are pure reads and agree with the
    model's own queries.  For an index without item flags (an invalid one)
    and for a role that [roleNames] does not list, [data] answers the invalid
    value and changes nothing.  Only the image role and the page-size role
    can change the model.  For a page of the document, the page-number role
    answers the row, and the loading, error and error-message roles answer
    what [isLoading], [hasError] and [errorMessage] answer for that page. *)
Theorem status_roles_are_pure_reads now index role s :
  (flags index = [] -> data now index role s = (VInvalid, s))
  /\ (role ∉ roleNames.*1 -> data now index role s = (VInvalid, s))
  /\ (role ≠ PixmapRole -> role ≠ PageSizeRole -> (data now index role s).2 = s)
  /\ (noSuchPage (row index) s = false ->
      isValid index = true
      /\ flags index = [ItemIsEnabled; ItemIsSelectable]
      /\ data now index PageNumberRole s = (VInt (row index), s)
      /\ data now index LoadingRole s = (VBool (pageIsLoading (row index) s), s)
      /\ data now index ErrorRole s = (VBool (pageHasError (row index) s), s)
      /\ data now index ErrorMessageRole s
         = (VString (pageErrorMessage (row index) s), s)).
Proof.
  repeat apply conj.
  - unfold flags, data. destruct (isValid index); simpl; [discriminate |].
    by destruct (m_document s).
  - intros Hrole. unfold data.
    destruct (m_document s) as [d |]; [| reflexivity].
    destruct (negb (isValid index)); [reflexivity |].
    destruct (_ || _); [reflexivity |].
    destruct role; try reflexivity; exfalso; apply Hrole; unfold roleNames; simpl;
      repeat (first [apply list_elem_of_here | apply list_elem_of_further]).
  - intros Hp Hs. unfold data.
    destruct (m_document s) as [d |]; [| reflexivity].
    destruct (negb (isValid index)); [reflexivity |].
    destruct (_ || _); [reflexivity |].
    destruct role; try reflexivity; congruence.
  - intros Hpage. unfold noSuchPage in Hpage. unfold flags, data.
    unfold pageIsLoading, pageHasError, pageErrorMessage.
    destruct (m_document s) as [d |]; [| discriminate]. rewrite Hpage.
    apply orb_false_iff in Hpage as [Hlow _]. apply Z.ltb_ge in Hlow.
    assert (Hvalid : isValid index = true).
    { destruct index; simpl in *; [lia |]. by apply Z.leb_le. }
    by rewrite Hvalid.
Qed.

(** ** Adapting the item ceiling *)

(** Comparing a [double] below 0.5 with the literal 0.8. *)
Lemma below_half_is_not_above_growth (e : float) :
  (e <? 0.5)%float = true -> (0.8 <? e)%float = false.
Proof.
  rewrite !ltb_spec. generalize (Prim2SF e). intros sf.
  let a := eval vm_compute in (Prim2SF 0.5) in change (Prim2SF 0.5) with a.
  let a := eval vm_compute in (Prim2SF 0.8) in change (Prim2SF 0.8) with a.
  unfold SFltb.
  destruct sf as [sg | sg | | sg m ex].
  1-3: try destruct sg; intros H; first [reflexivity | discriminate H].
  destruct sg; [intros _; reflexivity |].
  cbv beta iota delta [SFcompare].
  rewrite (Z.compare_antisym ex (-53)).
  destruct (Z.compare_spec ex (-53)) as [Hex | Hex | Hex];
    cbv beta iota delta [CompOpp]; try (intros H; first [reflexivity | discriminate H]).
  apply compare_cont_trans. vm_compute. reflexivity.
Qed.

(** X14.  [adaptCacheSize] touches the item ceiling and the time of the last
    adjustment only.  Called less than 30000 ms after the last adjustment it
    does nothing; otherwise it records the time, so that a second call at
    the same time does nothing.  A ceiling between 50 and 300 stays between
    50 and 300 and moves by at most 10 up or 5 down.  Outside that band the
    two clamps work against the adjustment: a low hit rate (below 0.5), which
    is meant to shrink the cache, raises a ceiling below 50 to 50. *)
Theorem adaptCacheSize_rate_limit_and_band now s :
  let s' := adaptCacheSize now s in
  let elapsed := wrap64 (now - m_lastCleanupTime s) in
  onlyItemCeilingChanged s s'
  /\ (elapsed < 30000 -> s' = s)
  /\ (30000 <= elapsed -> m_lastCleanupTime s' = now /\ adaptCacheSize now s' = s')
  /\ (50 <= m_maxCacheSize s <= 300 ->
      50 <= m_maxCacheSize s' <= 300
      /\ m_maxCacheSize s - 5 <= m_maxCacheSize s' <= m_maxCacheSize s + 10)
  /\ (30000 <= elapsed -> (calculateCacheEfficiency s <? 0.5)%float = true ->
      0 <= m_maxCacheSize s < 50 -> m_maxCacheSize s' = 50).
Proof.
  cbv zeta. unfold adaptCacheSize, onlyItemCeilingChanged.
  assert (Hzero : forall t, (wrap64 (t - t) <? 30000) = true)
    by (intros t; rewrite Z.sub_diag; reflexivity).
  destruct (wrap64 (now - m_lastCleanupTime s) <? 30000) eqn:Hwait.
  - apply Z.ltb_lt in Hwait. repeat apply conj; try reflexivity; lia.
  - apply Z.ltb_ge in Hwait. cbv zeta.
    change (calculateCacheEfficiency (setLastCleanupTime now s))
      with (calculateCacheEfficiency s).
    destruct (_ && _) eqn:Hgrow; [| destruct (_ <? 0.5)%float eqn:Hlow];
      (split; [reflexivity |]); (split; [lia |]);
      (split; [intros _; split; [reflexivity |]; simpl; by rewrite Hzero |]);
      simpl; split.
    + intros Hband. rewrite wrap32_small by lia. lia.
    + intros _ Hbelow. apply below_half_is_not_above_growth in Hbelow.
      apply andb_true_iff in Hgrow as [Hgrow _]. congruence.
    + intros Hband. rewrite wrap32_small by lia. lia.
    + intros _ _ Hband. rewrite wrap32_small by lia. lia.
    + lia.
    + intros _ Hbelow. congruence.
Qed.

(** ** What every history keeps *)

Lemma noSuchPage_doc s s' k :
  m_document s' = m_document s -> noSuchPage k s' = noSuchPage k s.
Proof. intros H. unfold noSuchPage. by rewrite H. Qed.

Lemma coherent_sub s s' :
  m_document s' = m_document s ->
  (forall k it, m_thumbnails s' !! k = Some it -> m_thumbnails s !! k = Some it) ->
  (forall p, p ∈ m_preloadQueue s' -> p ∈ m_preloadQueue s) ->
  coherent s -> coherent s'.
Proof.
  intros Hdoc Hsub Hqueue [Ht Hq]. split.
  - intros k it Hk. rewrite (noSuchPage_doc s s' k Hdoc). by apply Ht, Hsub.
  - intros p Hp. rewrite (noSuchPage_doc s s' p Hdoc). by apply Hq, Hqueue.
Qed.

(** The operation has left the document, the store and the queue alone. *)
Ltac same_pages H :=
  revert H; apply coherent_sub; [reflexivity | by intros | by intros].

Lemma coherent_insert s k it :
  coherent s -> noSuchPage k s = false -> coherentItem it ->
  coherent (setThumbnails (<[k := it]> (m_thumbnails s)) s).
Proof.
  intros [Ht Hq] Hk Hit. split; [| exact Hq].
  intros k' it'. simpl. destruct (decide (k' = k)) as [-> | Hne].
  - rewrite lookup_insert_eq. by intros [= <-].
  - rewrite lookup_insert_ne by done. apply Ht.
Qed.

Lemma coherentItem_default : coherentItem defaultItem.
Proof. by split. Qed.

Lemma coherentItem_touched now it :
  coherentItem it -> coherentItem (withLastAccessed now it).
Proof. intros H. exact H. Qed.

Lemma coherentItem_loading now it :
  coherentItem it -> isNull (pixmap it) = true ->
  coherentItem (withLastAccessed now (withError false EmptyString (withLoading true it))).
Proof. intros (Hbytes & _ & _) Hnull. by split. Qed.

Lemma coherentItem_ready now pm it :
  coherentItem
    (withMemorySize (calculatePixmapMemory pm)
       (withLastAccessed now
          (withError false EmptyString (withLoading false (withPixmap pm it))))).
Proof.
  split; [| by split]. simpl. intros Hnull.
  destruct pm as [| w h]; [reflexivity |]. unfold calculatePixmapMemory. by rewrite Hnull.
Qed.

Lemma coherentItem_failed now error it :
  coherentItem it ->
  coherentItem (withLastAccessed now (withError true error (withLoading false it))).
Proof. intros (Hbytes & _ & _). by split. Qed.

Lemma coherentItem_cleared it :
  coherentItem it ->
  coherentItem (if negb (isNull (pixmap it))
                then withLoading false (withMemorySize 0 (withPixmap NullPixmap it))
                else it).
Proof.
  intros H. destruct (negb (isNull (pixmap it))); [| exact H].
  destruct H as (_ & _ & Hmsg). by split.
Qed.

Lemma coherentItem_sized sz it : coherentItem it -> coherentItem (withPageSize sz it).
Proof. intros H. exact H. Qed.

Lemma markLoadingAndDispatch_coherent now q s :
  coherent s -> noSuchPage q s = false ->
  (forall it, m_thumbnails s !! q = Some it -> isNull (pixmap it) = true) ->
  coherent (markLoadingAndDispatch now q s).
Proof.
  intros Hc Hq Hnull. unfold markLoadingAndDispatch.
  set (item' := withLastAccessed now _).
  assert (H1 : coherent (setThumbnails (<[q := item']> (m_thumbnails s)) s)).
  { apply coherent_insert; [exact Hc | exact Hq |]. unfold item'.
    destruct (m_thumbnails s !! q) as [it |] eqn:Hlook; simpl.
    - apply coherentItem_loading; [apply (proj1 Hc q it Hlook) | by apply Hnull].
    - by apply coherentItem_loading. }
  same_pages H1.
Qed.

Lemma updateAccessFrequency_coherent q s :
  coherent s -> coherent (updateAccessFrequency q s).
Proof.
  intros Hc. unfold updateAccessFrequency. destruct (_ >? _); same_pages Hc.
Qed.

Lemma requestThumbnail_coherent now q s :
  coherent s -> coherent (requestThumbnail now q s).
Proof.
  intros Hc. unfold requestThumbnail.
  destruct (noSuchPage q s) eqn:Hq; [exact Hc |].
  destruct (m_lazyLoadingEnabled s && negb (shouldGenerateThumbnail q s)); [exact Hc |].
  destruct (m_thumbnails s !! q) as [it |] eqn:Hlook.
  - destruct (proj1 Hc q it Hlook) as [_ Hit].
    destruct (negb (isNull (pixmap it))) eqn:Hnull.
    + apply updateAccessFrequency_coherent. by apply coherent_insert.
    + apply negb_false_iff in Hnull.
      destruct (isLoading it); [exact Hc |].
      destruct (hasError it).
      * apply markLoadingAndDispatch_coherent; [| exact Hq |].
        -- apply coherent_insert; [exact Hc | exact Hq |].
           destruct Hit as (Hbytes & Hload & _). by split.
        -- intros it'. simpl. rewrite lookup_insert_eq. by intros [= <-].
      * apply markLoadingAndDispatch_coherent; [exact Hc | exact Hq |].
        intros it'. rewrite Hlook. by intros [= <-].
  - apply markLoadingAndDispatch_coherent; [exact Hc | exact Hq |].
    intros it'. by rewrite Hlook.
Qed.

Lemma requestThumbnailRange_coherent now a b s :
  coherent s -> coherent (requestThumbnailRange now a b s).
Proof.
  intros Hc. unfold requestThumbnailRange.
  destruct (m_document s) as [d |]; [| exact Hc].
  generalize (pagesFromTo (Z.max 0 a) (Z.min (wrap32 (numPages d - 1)) b)).
  intros l. revert s Hc. induction l as [| i l IH]; intros s Hc; [exact Hc |].
  simpl. apply IH.
  match goal with |- coherent (if ?c then _ else _) => destruct c end;
    [by apply requestThumbnail_coherent | exact Hc].
Qed.

Lemma eraseEntry_coherent k it s : coherent s -> coherent (eraseEntry k it s).
Proof.
  apply coherent_sub; [reflexivity | | by intros].
  intros k' it'. simpl. destruct (decide (k' = k)) as [-> | Hne];
    [by rewrite lookup_delete_eq | by rewrite lookup_delete_ne].
Qed.

Lemma evictLeastRecentlyUsed_coherent s :
  coherent s -> coherent (evictLeastRecentlyUsed s).
Proof.
  intros Hc. unfold evictLeastRecentlyUsed.
  destruct (lruVictim (m_thumbnails s)) as [[k it] |]; [| exact Hc].
  by apply eraseEntry_coherent.
Qed.

Lemma evictByAdaptivePolicy_coherent s :
  coherent s -> coherent (evictByAdaptivePolicy s).
Proof.
  intros Hc.
  destruct (evict_shrinks_or_same s) as [-> | (k & it & _ & [-> | ->])]; [exact Hc | |].
  - by apply eraseEntry_coherent.
  - assert (H1 : coherent (eraseEntry k it s)) by (by apply eraseEntry_coherent).
    same_pages H1.
Qed.

Lemma clearPixmaps_coherent s : coherent s -> coherent (clearPixmaps s).
Proof.
  intros [Ht Hq]. split; [| exact Hq].
  intros k it. simpl. rewrite lookup_fmap.
  destruct (m_thumbnails s !! k) as [it0 |] eqn:Hk; [| discriminate].
  simpl. intros [= <-]. destruct (Ht k it0 Hk) as [Hpage Hit].
  split; [exact Hpage | by apply coherentItem_cleared].
Qed.

Lemma while_coherent cond body fuel s s' :
  (forall s0, coherent s0 -> coherent (body s0)) ->
  coherent s -> while fuel cond body s = Some s' -> coherent s'.
Proof.
  intros Hbody Hc Hw.
  apply (while_preserves coherent cond body) with (fuel := fuel) (s := s) (s' := s');
    [by intros s0 H0 _; apply Hbody | exact Hc | exact Hw].
Qed.

Lemma data_coherent now index role s :
  coherent s -> coherent (data now index role s).2.
Proof.
  intros Hc. unfold data.
  destruct (m_document s) as [d |] eqn:Hdoc; [| exact Hc].
  destruct (negb (isValid index)); [exact Hc |].
  destruct ((row index <? 0) || (row index >=? numPages d)) eqn:Hrow; [exact Hc |].
  assert (Hpage : noSuchPage (row index) s = false)
    by (unfold noSuchPage; by rewrite Hdoc).
  destruct role; try exact Hc.
  - destruct (m_thumbnails s !! row index) as [it |] eqn:Hq.
    + assert (H1 : coherent (updateAccessFrequency (row index)
                    (setThumbnails
                       (<[row index := withLastAccessed now it]> (m_thumbnails s)) s))).
      { apply updateAccessFrequency_coherent. apply coherent_insert; try done.
        apply coherentItem_touched, (proj1 Hc _ _ Hq). }
      destruct (negb (isNull (pixmap it))); cbn [snd].
      * same_pages H1.
      * apply requestThumbnail_coherent. same_pages H1.
    + cbn [snd]. apply requestThumbnail_coherent. same_pages Hc.
  - destruct (m_thumbnails s !! row index) as [it |] eqn:Hq; simpl.
    + destruct (negb (QSize_isEmpty (pageSize it))); simpl; [exact Hc |].
      destruct (pageSizeOf d (row index)); simpl; [| exact Hc].
      apply coherent_insert; try done.
      apply coherentItem_sized, (proj1 Hc _ _ Hq).
    + destruct (pageSizeOf d (row index)); simpl; [| exact Hc].
      apply coherent_insert; try done.
Qed.

Lemma clearCache_coherent s : coherent (clearCache s).
Proof.
  split.
  - intros k it. simpl. by rewrite lookup_empty.
  - intros p. simpl. by rewrite elem_of_empty.
Qed.

Lemma shouldPreload_page p s : shouldPreload p s = true -> noSuchPage p s = false.
Proof. unfold shouldPreload. by destruct (noSuchPage p s). Qed.

(** Every operation keeps the store and the queue coherent. *)
Lemma step_coherent now op s s' :
  coherent s -> step now op s = Some s' -> coherent s'.
Proof.
  intros Hc Hstep.
  destruct op; simpl in Hstep; try (injection Hstep as <-); try exact Hc.
  - by apply data_coherent.
  - apply clearCache_coherent.
  - unfold setThumbnailSize. destruct (negb _); [| exact Hc].
    apply clearPixmaps_coherent. same_pages Hc.
  - unfold setThumbnailQuality. destruct (_ <? _)%float; [| exact Hc].
    apply clearPixmaps_coherent. same_pages Hc.
  - unfold setCacheSize in Hstep.
    apply (while_coherent _ _ _ _ _ evictLeastRecentlyUsed_coherent) in Hstep; [done |].
    same_pages Hc.
  - unfold setMemoryLimit in Hstep.
    apply (while_coherent _ _ _ _ _ evictLeastRecentlyUsed_coherent) in Hstep; [done |].
    same_pages Hc.
  - apply clearCache_coherent.
  - by apply requestThumbnail_coherent.
  - by apply requestThumbnailRange_coherent.
  - unfold refreshThumbnail. destruct (noSuchPage pageNumber s); [exact Hc |].
    apply requestThumbnail_coherent.
    destruct (m_thumbnails s !! pageNumber); [by apply eraseEntry_coherent | exact Hc].
  - apply clearCache_coherent.
  - unfold preloadVisibleRange. destruct (m_document s) as [d |] eqn:Hdoc; [| exact Hc].
    destruct Hc as [Ht Hq]. split; [exact Ht |].
    intros p. simpl. rewrite (preload_fold_elem (fun i => shouldPreload i s)).
    intros [Hp | [_ Hp]].
    + rewrite <- (Hq p Hp). apply noSuchPage_doc. reflexivity.
    + rewrite <- (shouldPreload_page p s Hp). apply noSuchPage_doc. reflexivity.
  - unfold onThumbnailGenerated in Hstep.
    destruct (m_thumbnails s !! pageNumber) as [it |] eqn:Hq;
      [| by injection Hstep as <-].
    apply (while_coherent _ _ _ _ _ evictByAdaptivePolicy_coherent) in Hstep; [done |].
    assert (H1 : coherent (setThumbnails
             (<[pageNumber := withMemorySize (calculatePixmapMemory pm)
                  (withLastAccessed now
                     (withError false EmptyString
                        (withLoading false (withPixmap pm it))))]> (m_thumbnails s)) s)).
    { apply coherent_insert; [exact Hc | apply (proj1 Hc _ _ Hq) |].
      apply coherentItem_ready. }
    same_pages H1.
  - unfold onThumbnailError.
    destruct (m_thumbnails s !! pageNumber) as [it |] eqn:Hq; [| exact Hc].
    destruct (proj1 Hc _ _ Hq) as [Hpage Hit].
    apply coherent_insert; try done. by apply coherentItem_failed.
  - unfold onPreloadTimer.
    destruct (elements (m_preloadQueue s)) as [| q rest].
    + same_pages Hc.
    + set (s1 := setPreload _ _ _ s).
      assert (H1 : coherent (requestThumbnail now q s1)).
      { apply requestThumbnail_coherent. revert Hc.
        apply coherent_sub; [reflexivity | by intros |].
        intros p. simpl. rewrite elem_of_difference. by intros [? _]. }
      destruct (bool_decide _); [| exact H1]. same_pages H1.
  - unfold cleanupCache in Hstep.
    destruct (isEmpty (m_thumbnails s)); [by injection Hstep as <- |].
    destruct (while _ overItemCeiling _ _) as [s2 |] eqn:Hw1; [| discriminate].
    apply (while_coherent _ _ _ _ _ evictByAdaptivePolicy_coherent) in Hw1.
    + by apply (while_coherent _ _ _ _ _ evictByAdaptivePolicy_coherent) in Hstep.
    + revert Hc. apply coherent_sub.
      * unfold adaptCacheSize. destruct (_ <? 30000); [done |]. cbv zeta.
        destruct (_ && _); [| destruct (_ <? 0.5)%float]; done.
      * intros k it. by rewrite (proj1 (adaptCacheSize_store now s)).
      * unfold adaptCacheSize. destruct (_ <? 30000); [done |]. cbv zeta.
        destruct (_ && _); [| destruct (_ <? 0.5)%float]; done.
  - unfold setViewportRange. simpl.
    destruct (m_lazyLoadingEnabled s); [| same_pages Hc].
    unfold updateViewportPriorities. simpl. destruct (m_document s) eqn:Hdoc;
      same_pages Hc.
  - unfold onPriorityUpdateTimer. destruct (m_lazyLoadingEnabled s); [| exact Hc].
    unfold updateViewportPriorities. destruct (m_document s); [| exact Hc].
    same_pages Hc.
  - by apply updateAccessFrequency_coherent.
Qed.

Lemma newModel_coherent d : coherent (newModel d).
Proof.
  split.
  - intros k it. simpl. by rewrite lookup_empty.
  - intros p. simpl. by rewrite elem_of_empty.
Qed.

Lemma run_coherent ops : forall s s',
  coherent s -> run ops s = Some s' -> coherent s'.
Proof.
  induction ops as [| [now op] ops IH]; intros s s' Hc; simpl.
  - by intros [= <-].
  - destruct (step now op s) as [s1 |] eqn:Hstep; [| discriminate].
    apply IH. by apply (step_coherent now op s).
Qed.

Lemma run_accounted ops : forall s s',
  coherent s -> accounted s -> completionsAreFirst ops s = true ->
  run ops s = Some s' -> accounted s'.
Proof.
  induction ops as [| [now op] ops IH]; intros s s' Hc Hacc; simpl.
  - by intros _ [= <-].
  - intros Hfirst. apply andb_true_iff in Hfirst as [Hfirst Hrest].
    destruct (step now op s) as [s1 |] eqn:Hstep; [| discriminate].
    apply IH; [by apply (step_coherent now op s) | | exact Hrest].
    apply (step_accounted now op s s1 Hacc Hstep).
    intros pageNumber pm it -> Hlook.
    apply (proj2 (proj1 Hc pageNumber it Hlook)).
    apply negb_true_iff in Hfirst. unfold hasCachedThumbnail in Hfirst.
    rewrite Hlook in Hfirst. by apply negb_false_iff.
Qed.

(** X15.  In every model reached from a newly constructed one, by any
    history of operations at any clock readings, every tracked page and every
    queued page is a page of the current document (so without a document the
    store and the queue are empty); a loading page has no image and is not in
    error; a page that is not in error has no error message; and an entry
    without image costs no bytes. *)
Theorem reachable_models_are_coherent ops d s' :
  run ops (newModel d) = Some s' ->
  coherent s'
  /\ (m_document s' = None -> m_thumbnails s' = ∅ /\ m_preloadQueue s' = ∅)
  /\ (forall p, pageIsLoading p s' = true ->
        hasCachedThumbnail p s' = false /\ pageHasError p s' = false)
  /\ (forall p, pageHasError p s' = false -> pageErrorMessage p s' = EmptyString)
  /\ (forall p it, m_thumbnails s' !! p = Some it -> hasCachedThumbnail p s' = false ->
        memorySize it = 0).
Proof.
  intros Hrun.
  assert (Hc : coherent s') by (apply (run_coherent ops _ _ (newModel_coherent d) Hrun)).
  split; [exact Hc |]. destruct Hc as [Ht Hq]. repeat apply conj.
  - intros Hdoc. split.
    + apply map_empty. intros k.
      destruct (m_thumbnails s' !! k) as [it |] eqn:Hk; [| reflexivity].
      destruct (Ht k it Hk) as [Hpage _]. unfold noSuchPage in Hpage.
      rewrite Hdoc in Hpage. discriminate.
    + apply set_eq. intros p. rewrite elem_of_empty. split; [| done].
      intros Hp. specialize (Hq p Hp). unfold noSuchPage in Hq.
      rewrite Hdoc in Hq. discriminate.
  - intros p. unfold pageIsLoading, hasCachedThumbnail, pageHasError.
    destruct (m_thumbnails s' !! p) as [it |] eqn:Hk; [| discriminate].
    intros Hload. destruct (Ht p it Hk) as (_ & _ & Hl & _).
    destruct (Hl Hload) as [-> ->]. done.
  - intros p. unfold pageHasError, pageErrorMessage.
    destruct (m_thumbnails s' !! p) as [it |] eqn:Hk; [| reflexivity].
    apply (Ht p it Hk).
  - intros p it Hk. unfold hasCachedThumbnail. rewrite Hk. intros Hnull.
    apply (Ht p it Hk). by apply negb_false_iff.
Qed.

Lemma reachable_models_are_coherent_witness :
  run fromConstructionHistory (newModel sampleDefaults) = Some oneReadyTwoLoading
  /\ coherent oneReadyTwoLoading
  /\ forall p, pageIsLoading p oneReadyTwoLoading = true ->
       hasCachedThumbnail p oneReadyTwoLoading = false
       /\ pageHasError p oneReadyTwoLoading = false.
Proof.
  assert (Hrun : run fromConstructionHistory (newModel sampleDefaults)
                 = Some oneReadyTwoLoading) by (vm_compute; reflexivity).
  split; [exact Hrun |].
  destruct (reachable_models_are_coherent fromConstructionHistory sampleDefaults
              oneReadyTwoLoading Hrun) as (C & _ & L & _).
  split; [exact C | exact L].
Defined.

(** X16.  The tracked total agrees with the bytes of the stored entries (as
    [qint64] values) in every model reached from a newly constructed one by
    a history in which no completion arrives for a page that already has an
    image.  (A completion for a page that has one is the only way to lose
    the agreement: every other operation keeps it.) *)
Theorem accounting_holds_while_completions_are_first ops d s' :
  completionsAreFirst ops (newModel d) = true ->
  run ops (newModel d) = Some s' ->
  accounted s'.
Proof.
  apply run_accounted; [apply newModel_coherent | apply newModel_accounted].
Qed.

Lemma accounting_holds_while_completions_are_first_witness :
  completionsAreFirst fromConstructionHistory (newModel sampleDefaults) = true
  /\ run fromConstructionHistory (newModel sampleDefaults) = Some oneReadyTwoLoading
  /\ accounted oneReadyTwoLoading.
Proof.
  assert (Hfirst : completionsAreFirst fromConstructionHistory (newModel sampleDefaults)
                   = true) by (vm_compute; reflexivity).
  assert (Hrun : run fromConstructionHistory (newModel sampleDefaults)
                 = Some oneReadyTwoLoading) by (vm_compute; reflexivity).
  split; [exact Hfirst |]. split; [exact Hrun |].
  exact (accounting_holds_while_completions_are_first fromConstructionHistory
           sampleDefaults oneReadyTwoLoading Hfirst Hrun).
Defined.

(** ** Requests by page and by range *)

(** X17.  [refreshThumbnail] of a page of the document forgets the page's
    entry altogether (image, error, page size) and gives its bytes back,
    whatever state the entry was in, also when a request for the page is in
    flight.  If the page is eligible a fresh entry is created, loading, and
    one request goes out; if it is not (lazy loading, page outside the
    expanded viewport), the page is left without entry and nothing is
    requested.  Other pages are untouched and the accounting is kept. *)
Theorem refreshThumbnail_starts_over now pageNumber s :
  let s' := refreshThumbnail now pageNumber s in
  if noSuchPage pageNumber s then s' = s
  else
    m_currentMemory s'
    = match m_thumbnails s !! pageNumber with
      | Some it => wrap64 (m_currentMemory s - memorySize it)
      | None => m_currentMemory s
      end
    /\ (forall k, k ≠ pageNumber -> m_thumbnails s' !! k = m_thumbnails s !! k)
    /\ (accounted s -> accounted s')
    /\ if shouldGenerateThumbnail pageNumber s
       then m_thumbnails s' !! pageNumber = Some (loadingItem now defaultItem)
            /\ generatorRequests s' = requestFor pageNumber s :: generatorRequests s
       else m_thumbnails s' !! pageNumber = None
            /\ generatorRequests s' = generatorRequests s.
Proof.
  cbv zeta. unfold refreshThumbnail.
  destruct (noSuchPage pageNumber s) eqn:Hpage; [reflexivity |].
  set (s1 := match m_thumbnails s !! pageNumber with
             | Some it => eraseEntry pageNumber it s
             | None => s
             end).
  assert (Hgone : m_thumbnails s1 !! pageNumber = None).
  { unfold s1. destruct (m_thumbnails s !! pageNumber) eqn:Hp; [| exact Hp].
    simpl. apply lookup_delete_eq. }
  assert (Hother : forall k, k ≠ pageNumber -> m_thumbnails s1 !! k = m_thumbnails s !! k).
  { intros k Hk. unfold s1. destruct (m_thumbnails s !! pageNumber); [| reflexivity].
    simpl. by apply lookup_delete_ne. }
  assert (Hmem : m_currentMemory s1
                 = match m_thumbnails s !! pageNumber with
                   | Some it => wrap64 (m_currentMemory s - memorySize it)
                   | None => m_currentMemory s
                   end)
    by (unfold s1; by destruct (m_thumbnails s !! pageNumber)).
  assert (Hacc : accounted s -> accounted s1).
  { intros Hacc. unfold s1. destruct (m_thumbnails s !! pageNumber) eqn:Hp; [| exact Hacc].
    by apply accounted_erase. }
  assert (Hstatic : noSuchPage pageNumber s1 = noSuchPage pageNumber s
                    /\ shouldGenerateThumbnail pageNumber s1
                       = shouldGenerateThumbnail pageNumber s
                    /\ requestFor pageNumber s1 = requestFor pageNumber s
                    /\ generatorRequests s1 = generatorRequests s)
    by (unfold s1; by destruct (m_thumbnails s !! pageNumber)).
  destruct Hstatic as (Sp & Sg & Sr & Sq).
  destruct (requestThumbnail_statistics now pageNumber s1) as (_ & _ & Rc).
  rewrite Rc, Hmem. split; [reflexivity |].
  assert (Hcached : hasCachedThumbnail pageNumber s1 = false)
    by (unfold hasCachedThumbnail; by rewrite Hgone).
  destruct (wantsRequest pageNumber s1) eqn:Hwants.
  - destruct (requestThumbnail_wanted now pageNumber s1 Hwants) as (Ht & Hr & _).
    rewrite Ht, Hr, Hgone, Sr, Sq. simpl.
    assert (Hg : shouldGenerateThumbnail pageNumber s = true).
    { unfold wantsRequest in Hwants. rewrite Sg in Hwants.
      by destruct (shouldGenerateThumbnail pageNumber s);
        [| rewrite andb_false_r in Hwants]. }
    rewrite Hg. repeat apply conj; try reflexivity.
    + intros k Hk. rewrite lookup_insert_ne by done. by apply Hother.
    + intros Hacc0. apply requestThumbnail_accounted. by apply Hacc.
    + apply lookup_insert_eq.
  - rewrite (requestThumbnail_unwanted now pageNumber s1 Hwants Hcached).
    assert (Hg : shouldGenerateThumbnail pageNumber s = false).
    { unfold wantsRequest, isThumbnailLoading in Hwants.
      rewrite Sp, Hpage, Sg, Hcached, Hgone in Hwants. simpl in Hwants.
      by rewrite !andb_true_r in Hwants. }
    rewrite Hg. repeat apply conj; try done.
Qed.

(** ** Recomputing the tracked total *)

Lemma wrap64_range z : - 2 ^ 63 <= wrap64 z < 2 ^ 63.
Proof.
  unfold wrap64, wrap. change (64 - 1) with 63.
  pose proof (Z.mod_pos_bound (z + 2 ^ 63) (2 ^ 64) ltac:(lia)). lia.
Qed.

Lemma updateMemoryUsage_fold_range (l : list (Z * ThumbnailItem)) : forall total,
  - 2 ^ 63 <= total < 2 ^ 63 ->
  - 2 ^ 63
  <= foldl (fun total (e : Z * ThumbnailItem) => wrap64 (total + memorySize e.2)) total l
  < 2 ^ 63.
Proof.
  induction l as [| e l IH]; intros total Ht; simpl; [exact Ht |].
  apply IH, wrap64_range.
Qed.

(** X18.  [updateMemoryUsage] sets the tracked total to the sum of the
    entries' bytes, added up as [qint64] values: afterwards the accounting
    holds whatever the total was before (a total that ran ahead after a
    repeated completion is repaired), and the total is the exact sum when
    that sum fits a [qint64].  Nothing but the total changes, a second call
    changes nothing, and a total that was right and in range is left as it
    was. *)
Theorem updateMemoryUsage_repairs_accounting s :
  let s' := updateMemoryUsage s in
  accounted s'
  /\ m_thumbnails s' = m_thumbnails s
  /\ onlyStoreChanged s s'
  /\ updateMemoryUsage s' = s'
  /\ (- 2 ^ 63 <= storedBytes s < 2 ^ 63 -> m_currentMemory s' = storedBytes s)
  /\ (accounted s -> - 2 ^ 63 <= m_currentMemory s < 2 ^ 63 ->
      m_currentMemory s' = m_currentMemory s).
Proof.
  cbv zeta.
  pose proof (updateMemoryUsage_fold (map_to_list (m_thumbnails s)) 0) as Hfold.
  pose proof (updateMemoryUsage_fold_range (map_to_list (m_thumbnails s)) 0
                ltac:(lia)) as Hrange.
  assert (Hacc : accounted (updateMemoryUsage s)).
  { destruct Hfold as [k Hk]. exists k. unfold storedBytes. simpl.
    simpl in Hk. rewrite Hk. lia. }
  repeat apply conj; try reflexivity; try exact Hacc.
  - intros Hfits. destruct Hacc as [k Hk]. simpl in *.
    unfold storedBytes in *. simpl in Hk. rewrite Hk in Hrange |- *. lia.
  - intros [k0 Hk0] Hfits. destruct Hacc as [k Hk]. simpl in *.
    unfold storedBytes in *. simpl in Hk. rewrite Hk in Hrange |- *. lia.
Qed.

Lemma static_of_store_and_requests s s' p :
  onlyStoreAndRequestsChanged s s' ->
  noSuchPage p s' = noSuchPage p s
  /\ shouldGenerateThumbnail p s' = shouldGenerateThumbnail p s
  /\ requestFor p s' = requestFor p s.
Proof.
  unfold onlyStoreAndRequestsChanged. intros H.
  pose proof (f_equal m_document H) as Hdoc.
  pose proof (f_equal m_lazyLoadingEnabled H) as Hlazy.
  pose proof (f_equal m_visibleStart H) as Hstart.
  pose proof (f_equal m_visibleEnd H) as Hend.
  pose proof (f_equal m_viewportMargin H) as Hmargin.
  pose proof (f_equal m_thumbnailSize H) as Hsize.
  pose proof (f_equal m_thumbnailQuality H) as Hquality.
  pose proof (f_equal m_pagePriorities H) as Hprio.
  simpl in *.
  unfold noSuchPage, shouldGenerateThumbnail, isInViewport, requestFor, calculatePriority.
  by rewrite Hdoc, Hlazy, Hstart, Hend, Hmargin, Hsize, Hquality, Hprio.
Qed.

(** One round of the loop of [requestThumbnailRange]. *)
Lemma range_round now i s :
  (if match m_thumbnails s !! i with
      | None => true
      | Some it => isNull (pixmap it) && negb (isLoading it)
      end
   then requestThumbnail now i s else s)
  = if wantsRequest i s then requestThumbnail now i s else s.
Proof.
  destruct (wantsRequest i s) eqn:Hwants.
  - unfold wantsRequest, hasCachedThumbnail, isThumbnailLoading in Hwants.
    destruct (m_thumbnails s !! i) as [it |]; [| reflexivity].
    destruct (isNull (pixmap it)); simpl in *;
      [| by rewrite andb_false_r in Hwants].
    destruct (isLoading it); simpl in *; [by rewrite andb_false_r in Hwants | reflexivity].
  - destruct (m_thumbnails s !! i) as [it |] eqn:Hi.
    + destruct (isNull (pixmap it)) eqn:Hnull; [| reflexivity].
      destruct (isLoading it); [reflexivity |]. simpl.
      apply requestThumbnail_unwanted; [exact Hwants |].
      unfold hasCachedThumbnail. by rewrite Hi, Hnull.
    + apply requestThumbnail_unwanted; [exact Hwants |].
      unfold hasCachedThumbnail. by rewrite Hi.
Qed.

Lemma range_loop now (l : list Z) : forall s,
  NoDup l ->
  let s' :=
    foldl (fun s i =>
             let needRequest :=
               match m_thumbnails s !! i with
               | None => true
               | Some it => isNull (pixmap it) && negb (isLoading it)
               end in
             if needRequest then requestThumbnail now i s else s) s l in
  generatorRequests s'
  = rev (map (fun p => requestFor p s) (List.filter (fun p => wantsRequest p s) l))
    ++ generatorRequests s
  /\ (forall p, m_thumbnails s' !! p
                = if bool_decide (p ∈ l) && wantsRequest p s
                  then Some (loadingItem now (default defaultItem (m_thumbnails s !! p)))
                  else m_thumbnails s !! p)
  /\ onlyStoreAndRequestsChanged s s'.
Proof.
  induction l as [| i l IH]; intros s Hnodup; cbv zeta.
  - simpl. repeat apply conj; try reflexivity.
  - apply NoDup_cons in Hnodup as [Hfresh Hnodup]. simpl foldl.
    rewrite range_round.
    set (s1 := if wantsRequest i s then requestThumbnail now i s else s).
    assert (H1 : generatorRequests s1
                 = (if wantsRequest i s then [requestFor i s] else [])
                   ++ generatorRequests s
                 /\ m_thumbnails s1
                    = (if wantsRequest i s
                       then <[i := loadingItem now
                                     (default defaultItem (m_thumbnails s !! i))]>
                              (m_thumbnails s)
                       else m_thumbnails s)
                 /\ onlyStoreAndRequestsChanged s s1).
    { unfold s1. destruct (wantsRequest i s) eqn:Hwants; [| done].
      destruct (requestThumbnail_wanted now i s Hwants) as (Ht & Hr & Hs).
      by rewrite Ht, Hr. }
    destruct H1 as (Hr1 & Ht1 & Hs1).
    assert (Hother : forall p, p ≠ i ->
              m_thumbnails s1 !! p = m_thumbnails s !! p
              /\ wantsRequest p s1 = wantsRequest p s
              /\ requestFor p s1 = requestFor p s).
    { intros p Hp.
      assert (Hlook : m_thumbnails s1 !! p = m_thumbnails s !! p).
      { rewrite Ht1. destruct (wantsRequest i s); [| reflexivity].
        by rewrite lookup_insert_ne. }
      destruct (static_of_store_and_requests s s1 p Hs1) as (Sp & Sg & Sr).
      split; [exact Hlook |]. split; [| exact Sr].
      unfold wantsRequest, hasCachedThumbnail, isThumbnailLoading.
      by rewrite Sp, Sg, Hlook. }
    destruct (IH s1 Hnodup) as (Hr & Ht & Hs). cbv zeta in Hr, Ht, Hs.
    repeat apply conj.
    + rewrite Hr, Hr1.
      rewrite (filter_ext_in (fun p => wantsRequest p s1) (fun p => wantsRequest p s) l).
      2: { intros p Hp. apply list_elem_of_In in Hp. apply Hother. by intros ->. }
      rewrite (map_ext_in (fun p => requestFor p s1) (fun p => requestFor p s)).
      2: { intros p Hp. apply filter_In in Hp as [Hp _].
           apply list_elem_of_In in Hp. apply Hother. by intros ->. }
      simpl. destruct (wantsRequest i s); simpl; [| reflexivity].
      by rewrite <- app_assoc.
    + intros p. rewrite Ht. destruct (decide (p = i)) as [-> | Hne].
      * rewrite (bool_decide_eq_false_2 (i ∈ l)) by exact Hfresh.
        rewrite (bool_decide_eq_true_2 (i ∈ i :: l)) by apply list_elem_of_here.
        simpl. rewrite Ht1. destruct (wantsRequest i s); [| reflexivity].
        apply lookup_insert_eq.
      * destruct (Hother p Hne) as (Hlook & Hwants & _).
        rewrite Hlook, Hwants.
        assert (Hmem : bool_decide (p ∈ i :: l) = bool_decide (p ∈ l)).
        { apply bool_decide_ext. rewrite elem_of_cons.
          split; [by intros [? | ?] | by right]. }
        by rewrite Hmem.
    + unfold onlyStoreAndRequestsChanged in *. by rewrite Hs.
Qed.

(** X19.  [requestThumbnailRange] asks the generator for exactly the pages of
    the range, clamped to the document, that [requestThumbnail] would ask
    for: existing, eligible, without image and not loading.  The calls go out
    in ascending page order, each with the size, quality and priority of the
    moment, and each such page's entry becomes loading.  Every other entry is
    left as it is: unlike a direct [requestThumbnail], the range request does
    not touch [lastAccessed] or the access counter of a page that has an
    image.  Nothing but the store and the generator is affected; without a
    document nothing happens. *)
Theorem requestThumbnailRange_requests_wanted_pages now startPage endPage s :
  let s' := requestThumbnailRange now startPage endPage s in
  match m_document s with
  | None => s' = s
  | Some d =>
      let pages :=
        pagesFromTo (Z.max 0 startPage) (Z.min (wrap32 (numPages d - 1)) endPage) in
      generatorRequests s'
      = rev (map (fun p => requestFor p s)
                 (List.filter (fun p => wantsRequest p s) pages))
        ++ generatorRequests s
      /\ (forall p, m_thumbnails s' !! p
                    = if bool_decide (p ∈ pages) && wantsRequest p s
                      then Some (loadingItem now
                                   (default defaultItem (m_thumbnails s !! p)))
                      else m_thumbnails s !! p)
      /\ onlyStoreAndRequestsChanged s s'
  end.
Proof.
  cbv zeta. unfold requestThumbnailRange.
  destruct (m_document s) as [d |]; [| reflexivity].
  apply (range_loop now _ s). apply NoDup_seqZ.
Qed.

(** ** Lazy loading *)

Lemma requestThumbnail_not_eligible now p s :
  shouldGenerateThumbnail p s = false -> requestThumbnail now p s = s.
Proof.
  intros Hg. unfold requestThumbnail. rewrite lazy_gate, Hg.
  by destruct (noSuchPage p s).
Qed.

(** X20.  A page that is not eligible (which takes lazy loading to be on and
    a viewport to be set) is never requested: [requestThumbnail] for it
    changes nothing, also when the page has an image (neither its
    [lastAccessed] nor its access counter moves); a read of its image that
    finds none counts a miss and requests nothing; and when the preload
    timer takes it from the queue, the page leaves the queue with no request
    made and the store as it was. *)
Theorem ineligible_page_is_never_requested now p s :
  shouldGenerateThumbnail p s = false ->
  m_lazyLoadingEnabled s = true
  /\ (0 <= m_visibleStart s /\ 0 <= m_visibleEnd s)
  /\ requestThumbnail now p s = s
  /\ (noSuchPage p s = false -> hasCachedThumbnail p s = false ->
      let r := data now (Index p) PixmapRole s in
      r.1 = VInvalid
      /\ generatorRequests r.2 = generatorRequests s
      /\ m_cacheMisses r.2 = wrap32 (m_cacheMisses s + 1))
  /\ (forall rest, elements (m_preloadQueue s) = p :: rest ->
      let s' := onPreloadTimer now s in
      (p ∉ m_preloadQueue s')
      /\ generatorRequests s' = generatorRequests s
      /\ m_thumbnails s' = m_thumbnails s
      /\ m_accessFrequency s' = m_accessFrequency s).
Proof.
  intros Hg.
  assert (Hlazy : m_lazyLoadingEnabled s = true
                  /\ 0 <= m_visibleStart s /\ 0 <= m_visibleEnd s).
  { unfold shouldGenerateThumbnail, isInViewport in Hg.
    destruct (m_lazyLoadingEnabled s); [| discriminate]. simpl in Hg.
    destruct (m_visibleStart s <? 0) eqn:Hs; [discriminate |].
    destruct (m_visibleEnd s <? 0) eqn:He; [discriminate |].
    apply Z.ltb_ge in Hs, He. done. }
  destruct Hlazy as (Hlazy & Hs & He).
  split; [done |]. split; [done |].
  split; [by apply requestThumbnail_not_eligible |]. split.
  - intros Hpage Hcached. cbv zeta. unfold data.
    unfold noSuchPage in Hpage. destruct (m_document s) as [d |]; [| discriminate].
    assert (Hvalid : isValid (Index p) = true).
    { apply orb_false_iff in Hpage as [Hlow _]. apply Z.ltb_ge in Hlow.
      by apply Z.leb_le. }
    rewrite Hvalid. simpl. rewrite Hpage.
    unfold hasCachedThumbnail in Hcached.
    destruct (m_thumbnails s !! p) as [it |] eqn:Hp.
    + apply negb_false_iff in Hcached. rewrite Hcached. simpl.
      rewrite requestThumbnail_not_eligible.
      * simpl.
        destruct (updateAccessFrequency_fields p
                    (setThumbnails (<[p := withLastAccessed now it]> (m_thumbnails s)) s))
          as (_ & _ & Um & _ & Ur & _).
        by rewrite Ur, Um.
      * unfold updateAccessFrequency. by destruct (_ >? _).
    + simpl. by rewrite requestThumbnail_not_eligible.
  - intros rest Hnext. cbv zeta. unfold onPreloadTimer. rewrite Hnext.
    rewrite requestThumbnail_not_eligible by exact Hg.
    assert (Hout : p ∉ m_preloadQueue s ∖ {[p]}).
    { rewrite elem_of_difference, elem_of_singleton. by intros [_ ?]. }
    by destruct (bool_decide _).
Qed.

Lemma ineligible_page_is_never_requested_witness :
  shouldGenerateThumbnail 50 lazyViewport = false
  /\ requestThumbnail 7 50 lazyViewport = lazyViewport
  /\ let r := data 7 (Index 50) PixmapRole lazyViewport in
     r.1 = VInvalid /\ generatorRequests r.2 = generatorRequests lazyViewport.
Proof.
  assert (Hg : shouldGenerateThumbnail 50 lazyViewport = false)
    by (vm_compute; reflexivity).
  destruct (ineligible_page_is_never_requested 7 50 lazyViewport Hg)
    as (_ & _ & R & D & _).
  split; [exact Hg |]. split; [exact R |].
  destruct (D ltac:(vm_compute; reflexivity) ltac:(vm_compute; reflexivity))
    as (V & G & _).
  cbv zeta. split; [exact V | exact G].
Defined.

Lemma requestThumbnail_settings now p s :
  settingsOf (requestThumbnail now p s) = settingsOf s.
Proof.
  unfold requestThumbnail.
  destruct (noSuchPage p s); [done |].
  destruct (m_lazyLoadingEnabled s && negb (shouldGenerateThumbnail p s)); [done |].
  destruct (m_thumbnails s !! p) as [it |]; [| done].
  destruct (negb (isNull (pixmap it))).
  - unfold updateAccessFrequency. by destruct (_ >? _).
  - destruct (isLoading it); [done |]. by destruct (hasError it).
Qed.

Lemma requestThumbnailRange_settings now a b s :
  settingsOf (requestThumbnailRange now a b s) = settingsOf s.
Proof.
  unfold requestThumbnailRange. destruct (m_document s) as [d |]; [| reflexivity].
  generalize (pagesFromTo (Z.max 0 a) (Z.min (wrap32 (numPages d - 1)) b)).
  intros l. revert s. induction l as [| i l IH]; intros s; [reflexivity |].
  simpl. rewrite IH.
  match goal with |- settingsOf (if ?c then _ else _) = _ => destruct c end;
    [apply requestThumbnail_settings | reflexivity].
Qed.

Lemma data_settings now index role s :
  settingsOf (data now index role s).2 = settingsOf s.
Proof.
  unfold data.
  destruct (m_document s) as [d |] eqn:Hdoc; [| reflexivity].
  destruct (negb (isValid index)); [reflexivity |].
  destruct (_ || _); [reflexivity |].
  destruct role; try reflexivity.
  - destruct (m_thumbnails s !! row index) as [it |].
    + destruct (negb (isNull (pixmap it))); cbn [snd];
        rewrite ?requestThumbnail_settings;
        unfold updateAccessFrequency; by destruct (_ >? _).
    + cbn [snd]. by rewrite requestThumbnail_settings.
  - destruct (m_thumbnails s !! row index) as [it |]; simpl.
    + destruct (negb (QSize_isEmpty (pageSize it))); simpl; [reflexivity |].
      by destruct (pageSizeOf d (row index)).
    + by destruct (pageSizeOf d (row index)).
Qed.

Lemma evictLeastRecentlyUsed_settings s :
  settingsOf (evictLeastRecentlyUsed s) = settingsOf s.
Proof.
  unfold evictLeastRecentlyUsed. by destruct (lruVictim (m_thumbnails s)) as [[k it] |].
Qed.

Lemma evictByAdaptivePolicy_settings s :
  settingsOf (evictByAdaptivePolicy s) = settingsOf s.
Proof.
  destruct (evict_shrinks_or_same s) as [-> | (k & it & _ & [-> | ->])]; reflexivity.
Qed.

Lemma while_settings cond body fuel s s' :
  (forall s0, settingsOf (body s0) = settingsOf s0) ->
  while fuel cond body s = Some s' -> settingsOf s' = settingsOf s.
Proof.
  intros Hbody Hw.
  apply (while_preserves (fun s0 => settingsOf s0 = settingsOf s) cond body)
    with (fuel := fuel) (s := s) (s' := s'); [| reflexivity | exact Hw].
  intros s0 H0 _. by rewrite Hbody.
Qed.

(** What each operation does to the document, the priorities, the viewport
    and the lazy-loading flags. *)
Lemma step_settings now op s s' :
  step now op s = Some s' ->
  settingsOf s'
  = match op with
    | OpSetDocument document =>
        (document, m_pagePriorities s,
         (m_visibleStart s, m_visibleEnd s, m_viewportMargin s),
         (m_lazyLoadingEnabled s, m_priorityTimerActive s))
    | OpSetLazyLoadingEnabled enabled =>
        (m_document s, m_pagePriorities s,
         (m_visibleStart s, m_visibleEnd s, m_viewportMargin s), (enabled, enabled))
    | OpSetViewportRange start end_ margin =>
        (m_document s,
         (if m_lazyLoadingEnabled s
          then m_pagePriorities (updateViewportPriorities (setViewport start end_ margin s))
          else m_pagePriorities s),
         (start, end_, margin),
         (m_lazyLoadingEnabled s, m_priorityTimerActive s))
    | OpPriorityUpdateTimer =>
        (m_document s,
         (if m_lazyLoadingEnabled s then m_pagePriorities (updateViewportPriorities s)
          else m_pagePriorities s),
         (m_visibleStart s, m_visibleEnd s, m_viewportMargin s),
         (m_lazyLoadingEnabled s, m_priorityTimerActive s))
    | _ => settingsOf s
    end.
Proof.
  intros Hstep.
  destruct op; simpl in Hstep; try (injection Hstep as <-); try reflexivity.
  - apply data_settings.
  - unfold setThumbnailSize. by destruct (negb _).
  - unfold setThumbnailQuality. by destruct (_ <? _)%float.
  - unfold setCacheSize in Hstep.
    by rewrite (while_settings _ _ _ _ _ evictLeastRecentlyUsed_settings Hstep).
  - unfold setMemoryLimit in Hstep.
    by rewrite (while_settings _ _ _ _ _ evictLeastRecentlyUsed_settings Hstep).
  - apply requestThumbnail_settings.
  - apply requestThumbnailRange_settings.
  - unfold refreshThumbnail. destruct (noSuchPage pageNumber s); [reflexivity |].
    rewrite requestThumbnail_settings. by destruct (m_thumbnails s !! pageNumber).
  - unfold preloadVisibleRange. by destruct (m_document s).
  - unfold onThumbnailGenerated in Hstep.
    destruct (m_thumbnails s !! pageNumber) as [it |];
      [| by injection Hstep as <-].
    by rewrite (while_settings _ _ _ _ _ evictByAdaptivePolicy_settings Hstep).
  - unfold onThumbnailError. by destruct (m_thumbnails s !! pageNumber).
  - unfold onPreloadTimer. destruct (elements (m_preloadQueue s)) as [| q rest];
      [reflexivity |].
    rewrite requestThumbnail_setPreload.
    pose proof (requestThumbnail_settings now q s) as Hq.
    by destruct (bool_decide _).
  - unfold cleanupCache in Hstep.
    destruct (isEmpty (m_thumbnails s)); [by injection Hstep as <- |].
    destruct (while _ overItemCeiling _ _) as [s2 |] eqn:Hw1; [| discriminate].
    rewrite (while_settings _ _ _ _ _ evictByAdaptivePolicy_settings Hstep).
    rewrite (while_settings _ _ _ _ _ evictByAdaptivePolicy_settings Hw1).
    unfold adaptCacheSize. destruct (_ <? 30000); [reflexivity |]. cbv zeta.
    destruct (_ && _); [| destruct (_ <? 0.5)%float]; reflexivity.
  - unfold setViewportRange. simpl. destruct (m_lazyLoadingEnabled s) eqn:Hlazy;
      [| unfold settingsOf; simpl; by rewrite Hlazy].
    unfold settingsOf, updateViewportPriorities. simpl.
    destruct (m_document s) eqn:Hdoc; simpl; by rewrite ?Hlazy, ?Hdoc.
  - unfold onPriorityUpdateTimer. destruct (m_lazyLoadingEnabled s) eqn:Hlazy;
      [| unfold settingsOf; by rewrite Hlazy].
    unfold settingsOf, updateViewportPriorities. destruct (m_document s) eqn:Hdoc;
      simpl; by rewrite ?Hlazy, ?Hdoc.
  - unfold updateAccessFrequency. by destruct (_ >? _).
Qed.

(** X21.  Of all the operations of the model, only [setViewportRange] and
    the priority timer change the priorities, and only with lazy loading on:
    the priorities are then the ones [updateViewportPriorities] computes
    from the viewport in force.  Only [setViewportRange] changes the stored
    viewport; it stores start, end and margin whether lazy loading is on or
    not (with lazy loading off the priorities keep their old values).  Only
    [setLazyLoadingEnabled] changes the lazy-loading flag and the flag of
    the priority timer, both to its argument; it leaves the priorities and
    the viewport as they were.  With lazy loading off every page is
    eligible, whatever the viewport.  A timer tick right after
    [setViewportRange] recomputes the same priorities. *)
Theorem priorities_follow_viewport_under_lazy_loading now op s s' :
  step now op s = Some s' ->
  m_pagePriorities s'
  = (match op with
     | OpSetViewportRange start end_ margin =>
         if m_lazyLoadingEnabled s
         then m_pagePriorities
                (updateViewportPriorities (setViewport start end_ margin s))
         else m_pagePriorities s
     | OpPriorityUpdateTimer =>
         if m_lazyLoadingEnabled s then m_pagePriorities (updateViewportPriorities s)
         else m_pagePriorities s
     | _ => m_pagePriorities s
     end)
  /\ (m_visibleStart s', m_visibleEnd s', m_viewportMargin s')
     = (match op with
        | OpSetViewportRange start end_ margin => (start, end_, margin)
        | _ => (m_visibleStart s, m_visibleEnd s, m_viewportMargin s)
        end)
  /\ (m_lazyLoadingEnabled s', m_priorityTimerActive s')
     = (match op with
        | OpSetLazyLoadingEnabled enabled => (enabled, enabled)
        | _ => (m_lazyLoadingEnabled s, m_priorityTimerActive s)
        end)
  /\ (m_lazyLoadingEnabled s' = false -> forall p, shouldGenerateThumbnail p s' = true)
  /\ (forall start end_ margin,
        m_pagePriorities (onPriorityUpdateTimer (setViewportRange start end_ margin s'))
        = m_pagePriorities (setViewportRange start end_ margin s')).
Proof.
  intros Hstep. pose proof (step_settings now op s s' Hstep) as Hset.
  unfold settingsOf in Hset.
  assert (Hprio : m_pagePriorities s' = (settingsOf s').1.1.2) by reflexivity.
  repeat apply conj.
  - destruct op; by injection Hset.
  - destruct op; injection Hset; intros; congruence.
  - destruct op; injection Hset; intros; congruence.
  - intros Hoff p. unfold shouldGenerateThumbnail. by rewrite Hoff.
  - intros start end_ margin. unfold setViewportRange, onPriorityUpdateTimer. simpl.
    destruct (m_lazyLoadingEnabled s') eqn:Hlazy; simpl; [| by rewrite Hlazy].
    unfold updateViewportPriorities. simpl.
    destruct (m_document s') eqn:Hdoc; simpl; rewrite Hlazy, ?Hdoc; reflexivity.
Qed.

Lemma priorities_follow_viewport_under_lazy_loading_witness :
  step 0 (OpSetViewportRange 10 15 2) lazyNoViewport = Some lazyViewport
  /\ (m_visibleStart lazyViewport, m_visibleEnd lazyViewport,
      m_viewportMargin lazyViewport) = (10, 15, 2)
  /\ m_pagePriorities lazyViewport
     = m_pagePriorities (updateViewportPriorities (setViewport 10 15 2 lazyNoViewport))
  /\ calculatePriority 12 lazyNoViewport = 5
  /\ calculatePriority 12 lazyViewport = 0.
Proof.
  assert (Hstep : step 0 (OpSetViewportRange 10 15 2) lazyNoViewport = Some lazyViewport)
    by (vm_compute; reflexivity).
  assert (Hlazy : m_lazyLoadingEnabled lazyNoViewport = true)
    by (vm_compute; reflexivity).
  destruct (priorities_follow_viewport_under_lazy_loading
              0 (OpSetViewportRange 10 15 2) lazyNoViewport lazyViewport Hstep)
    as (P & V & _).
  rewrite Hlazy in P.
  assert (B : calculatePriority 12 lazyNoViewport = 5) by (vm_compute; reflexivity).
  assert (A : calculatePriority 12 lazyViewport = 0) by (vm_compute; reflexivity).
  exact (conj Hstep (conj V (conj P (conj B A)))).
Defined.

(** ** Every operation returns *)

Lemma requestThumbnail_ceiling now p s :
  m_maxCacheSize (requestThumbnail now p s) = m_maxCacheSize s.
Proof.
  unfold requestThumbnail.
  destruct (noSuchPage p s); [done |].
  destruct (m_lazyLoadingEnabled s && negb (shouldGenerateThumbnail p s)); [done |].
  destruct (m_thumbnails s !! p) as [it |]; [| done].
  destruct (negb (isNull (pixmap it))).
  - unfold updateAccessFrequency. by destruct (_ >? _).
  - destruct (isLoading it); [done |]. by destruct (hasError it).
Qed.

Lemma requestThumbnailRange_ceiling now a b s :
  m_maxCacheSize (requestThumbnailRange now a b s) = m_maxCacheSize s.
Proof.
  unfold requestThumbnailRange. destruct (m_document s) as [d |]; [| reflexivity].
  generalize (pagesFromTo (Z.max 0 a) (Z.min (wrap32 (numPages d - 1)) b)).
  intros l. revert s. induction l as [| i l IH]; intros s; [reflexivity |].
  simpl. rewrite IH.
  match goal with |- m_maxCacheSize (if ?c then _ else _) = _ => destruct c end;
    [apply requestThumbnail_ceiling | reflexivity].
Qed.

Lemma data_ceiling now index role s :
  m_maxCacheSize (data now index role s).2 = m_maxCacheSize s.
Proof.
  unfold data.
  destruct (m_document s) as [d |]; [| reflexivity].
  destruct (negb (isValid index)); [reflexivity |].
  destruct (_ || _); [reflexivity |].
  destruct role; try reflexivity.
  - destruct (m_thumbnails s !! row index) as [it |].
    + assert (H1 : forall s0, m_maxCacheSize (updateAccessFrequency (row index) s0)
                              = m_maxCacheSize s0)
        by (intros s0; unfold updateAccessFrequency; by destruct (_ >? _)).
      destruct (negb (isNull (pixmap it))); cbn [snd].
      * simpl. by rewrite H1.
      * rewrite requestThumbnail_ceiling. simpl. by rewrite H1.
    + cbn [snd]. by rewrite requestThumbnail_ceiling.
  - destruct (m_thumbnails s !! row index) as [it |]; simpl.
    + destruct (negb (QSize_isEmpty (pageSize it))); simpl; [reflexivity |].
      by destruct (pageSizeOf d (row index)).
    + by destruct (pageSizeOf d (row index)).
Qed.

Lemma evictLeastRecentlyUsed_ceiling s :
  m_maxCacheSize (evictLeastRecentlyUsed s) = m_maxCacheSize s.
Proof.
  unfold evictLeastRecentlyUsed. by destruct (lruVictim (m_thumbnails s)) as [[k it] |].
Qed.

Lemma evictByAdaptivePolicy_ceiling s :
  m_maxCacheSize (evictByAdaptivePolicy s) = m_maxCacheSize s.
Proof.
  destruct (evict_shrinks_or_same s) as [-> | (k & it & Hev)]; [reflexivity |].
  apply (evicted_limits _ _ _ _ Hev).
Qed.

Lemma while_ceiling cond body fuel s s' :
  (forall s0, m_maxCacheSize (body s0) = m_maxCacheSize s0) ->
  while fuel cond body s = Some s' -> m_maxCacheSize s' = m_maxCacheSize s.
Proof.
  intros Hbody Hw.
  apply (while_preserves (fun s0 => m_maxCacheSize s0 = m_maxCacheSize s) cond body)
    with (fuel := fuel) (s := s) (s' := s'); [| reflexivity | exact Hw].
  intros s0 H0 _. by rewrite Hbody.
Qed.

Lemma step_ceiling now op s s' :
  ceilingInRange s -> admissible (now, op) = true -> step now op s = Some s' ->
  ceilingInRange s'.
Proof.
  unfold ceilingInRange, admissible, INT_MAX. intros Hc Hadm Hstep.
  apply andb_true_iff in Hadm as [_ Hadm]. simpl in Hadm.
  destruct op; simpl in Hstep; try (injection Hstep as <-); try exact Hc.
  - by rewrite data_ceiling.
  - unfold setThumbnailSize. destruct (negb _); [| exact Hc]. exact Hc.
  - unfold setThumbnailQuality. destruct (_ <? _)%float; [| exact Hc]. exact Hc.
  - unfold setCacheSize in Hstep.
    rewrite (while_ceiling _ _ _ _ _ evictLeastRecentlyUsed_ceiling Hstep). simpl.
    apply Z.leb_le in Hadm. lia.
  - unfold setMemoryLimit in Hstep.
    by rewrite (while_ceiling _ _ _ _ _ evictLeastRecentlyUsed_ceiling Hstep).
  - by rewrite requestThumbnail_ceiling.
  - by rewrite requestThumbnailRange_ceiling.
  - unfold refreshThumbnail. destruct (noSuchPage pageNumber s); [exact Hc |].
    rewrite requestThumbnail_ceiling.
    by destruct (m_thumbnails s !! pageNumber).
  - unfold preloadVisibleRange. by destruct (m_document s).
  - unfold onThumbnailGenerated in Hstep.
    destruct (m_thumbnails s !! pageNumber) as [it |];
      [| by injection Hstep as <-].
    by rewrite (while_ceiling _ _ _ _ _ evictByAdaptivePolicy_ceiling Hstep).
  - unfold onThumbnailError. by destruct (m_thumbnails s !! pageNumber).
  - unfold onPreloadTimer. destruct (elements (m_preloadQueue s)) as [| q rest];
      [exact Hc |].
    destruct (bool_decide _); simpl; by rewrite requestThumbnail_ceiling.
  - unfold cleanupCache in Hstep.
    destruct (isEmpty (m_thumbnails s)); [by injection Hstep as <- |].
    destruct (while _ overItemCeiling _ _) as [s2 |] eqn:Hw1; [| discriminate].
    rewrite (while_ceiling _ _ _ _ _ evictByAdaptivePolicy_ceiling Hstep).
    rewrite (while_ceiling _ _ _ _ _ evictByAdaptivePolicy_ceiling Hw1).
    unfold adaptCacheSize. destruct (_ <? 30000); [exact Hc |]. cbv zeta.
    destruct (_ && _); [| destruct (_ <? 0.5)%float]; simpl;
      rewrite ?wrap32_small by lia; lia.
  - unfold setViewportRange. simpl. destruct (m_lazyLoadingEnabled s); [| exact Hc].
    unfold updateViewportPriorities. simpl. by destruct (m_document s).
  - unfold onPriorityUpdateTimer. destruct (m_lazyLoadingEnabled s); [| exact Hc].
    unfold updateViewportPriorities. by destruct (m_document s).
  - unfold updateAccessFrequency. by destruct (_ >? _).
Qed.

Lemma step_returns now op s :
  inRange s -> ceilingInRange s -> now < LLONG_MAX -> is_Some (step now op s).
Proof.
  intros Hr Hc Hnow. pose proof (inRange_store s Hr) as Hrange.
  destruct op; simpl; try (by eexists).
  - unfold setCacheSize.
    destruct (recency_loop_spec overItemCeiling
                (fun s0 => 1 <= m_maxCacheSize s0)
                (setLimits (Z.max 1 maxItems) (m_maxMemory s) s))
      as (s' & Hw & _); [| | simpl; lia | by exists s'].
    + intros s0 Hmax Hover. unfold overItemCeiling in Hover.
      apply nonempty_of_size. unfold storeSize.
      destruct (Z.gtb_spec (Z.of_nat (size (m_thumbnails s0))) (m_maxCacheSize s0));
        [lia | discriminate].
    + intros s0 Hmax _. by rewrite evictLeastRecentlyUsed_ceiling.
  - unfold setMemoryLimit.
    destruct (recency_loop_spec
                (fun s0 => overByteCeiling s0 && negb (isEmpty (m_thumbnails s0)))
                (fun _ => True)
                (setLimits (m_maxCacheSize s) (Z.max (1024 * 1024) maxMemory) s))
      as (s' & Hw & _); [| done | done | by exists s'].
    intros s0 _ Hover. apply andb_true_iff in Hover as [_ Hover].
    by apply negb_true_iff, isEmpty_false in Hover.
  - unfold onThumbnailGenerated.
    destruct (m_thumbnails s !! pageNumber) as [it |] eqn:Hk; [| by eexists].
    set (it' := withMemorySize _ _).
    destruct (completion_loop
                (setCurrentMemory (wrap64 (m_currentMemory s + memorySize it'))
                   (setThumbnails (<[pageNumber := it']> (m_thumbnails s)) s)))
      as (s' & Hw & _); [| | by exists s'].
    + apply storeInRange_intro. simpl. intros k it0 Hlook.
      destruct (storeInRange_lookup _ _ _ Hrange Hk) as (Hp & _ & Hf).
      destruct (decide (k = pageNumber)) as [-> | Hne].
      * rewrite lookup_insert_eq in Hlook. injection Hlook as <-. simpl.
        repeat split; try done.
      * rewrite lookup_insert_ne in Hlook by done.
        apply (storeInRange_lookup _ _ _ Hrange Hlook).
    + unfold storeSize. simpl.
      assert (size (<[pageNumber := it']> (m_thumbnails s)) ≠ 0%nat); [| lia].
      apply map_size_non_empty_iff. intros Hempty.
      apply (f_equal (fun t : gmap Z ThumbnailItem => t !! pageNumber)) in Hempty.
      by rewrite lookup_insert_eq, lookup_empty in Hempty.
  - unfold cleanupCache. destruct (isEmpty (m_thumbnails s)) eqn:Hempty; [by eexists |].
    destruct (adaptCacheSize_spec now s Hc) as (Ht & Hf & Hc1).
    set (s1 := adaptCacheSize now s) in *.
    assert (Hrange1 : storeInRange s1 = true)
      by (rewrite (storeInRange_ext s1 s Ht Hf); exact Hrange).
    destruct (item_ceiling_loop s1 Hrange1 Hc1) as (s2 & Hw & Hrange2 & _ & Hsize2).
    rewrite Hw. destruct (byte_ceiling_loop s2 Hrange2 Hsize2) as (s3 & Hw3 & _).
    by exists s3.
Qed.

(** Below [INT_MAX] a counted loop exits, having visited [pagesFromTo]; at
    [INT_MAX] it never exits. *)
Lemma countedLoop_exits (fuel : nat) : forall first last,
  - 2 ^ 31 <= first -> countedLoopExits last = true ->
  (Z.to_nat (last - first + 1) <= fuel)%nat ->
  countedLoop fuel first last = Some (pagesFromTo first last).
Proof.
  unfold countedLoopExits, INT_MAX, pagesFromTo.
  induction fuel as [| fuel IH]; intros first last Hfirst Hlast Hfuel;
    apply Z.ltb_lt in Hlast; simpl;
    destruct (Z.leb_spec first last) as [Hle | Hgt];
    try (by rewrite seqZ_nil by lia); [lia |].
  rewrite wrap32_small by lia.
  rewrite IH; [| lia | by apply Z.ltb_lt | lia].
  rewrite (seqZ_cons first) by lia. simpl. do 3 f_equal; lia.
Qed.

Lemma countedLoop_never_exits (fuel : nat) : forall first,
  - 2 ^ 31 <= first <= INT_MAX -> countedLoop fuel first INT_MAX = None.
Proof.
  unfold INT_MAX. induction fuel as [| fuel IH]; intros first Hfirst; simpl;
    destruct (Z.leb_spec first 2147483647) as [Hle | Hgt]; try lia; [reflexivity |].
  rewrite IH; [reflexivity |]. pose proof (wrap32_range (first + 1)). lia.
Qed.

Lemma step_loopBounds now op s s' :
  loopBoundsOk s -> admissible (now, op) = true -> step now op s = Some s' ->
  loopBoundsOk s'.
Proof.
  unfold loopBoundsOk, admissible. intros [Hend Hdoc] Hadm Hstep.
  apply andb_true_iff in Hadm as [_ Hadm]. simpl in Hadm.
  pose proof (step_settings now op s s' Hstep) as Hset. unfold settingsOf in Hset.
  destruct op; injection Hset as Hd _ _ He _ _ _; rewrite He, Hd;
    try (split; [exact Hend | exact Hdoc]).
  - split; [exact Hend |]. intros d ->.
    apply andb_true_iff in Hadm as [Hlow Hhigh].
    apply Z.leb_le in Hlow, Hhigh. lia.
  - split; [| exact Hdoc]. by apply Z.ltb_lt in Hadm.
Qed.

Lemma loopsExit_of_bounds now op s :
  loopBoundsOk s -> admissible (now, op) = true -> loopsExit op s = true.
Proof.
  unfold loopBoundsOk, admissible, INT_MAX. intros [Hend Hdoc] Hadm.
  apply andb_true_iff in Hadm as [_ Hadm]. simpl in Hadm.
  assert (Hpages : forall d x, m_document s = Some d ->
            countedLoopExits (Z.min (wrap32 (numPages d - 1)) x) = true).
  { intros d x Hd. specialize (Hdoc d Hd). unfold countedLoopExits, INT_MAX.
    apply Z.ltb_lt. rewrite wrap32_small by lia. lia. }
  destruct op; try reflexivity; simpl.
  - destruct (m_document s) as [d |]; [by apply Hpages | reflexivity].
  - destruct (m_document s) as [d |]; [by apply Hpages | reflexivity].
  - destruct (m_lazyLoadingEnabled s); [| reflexivity].
    unfold viewportLoopsExit. simpl.
    destruct (m_document s) as [d |]; [| reflexivity].
    rewrite (Hpages d _ eq_refl), andb_true_r. exact Hadm.
  - destruct (m_lazyLoadingEnabled s); [| reflexivity].
    unfold viewportLoopsExit.
    destruct (m_document s) as [d |]; [| reflexivity].
    rewrite (Hpages d _ eq_refl), andb_true_r. unfold countedLoopExits, INT_MAX.
    by apply Z.ltb_lt.
Qed.

Lemma run_returns ops : forall s,
  inRange s -> ceilingInRange s -> loopBoundsOk s -> forallb admissible ops = true ->
  loopsExitAlong ops s = true
  /\ exists s', run ops s = Some s' /\ inRange s' /\ ceilingInRange s' /\ loopBoundsOk s'.
Proof.
  induction ops as [| [now op] ops IH]; intros s Hr Hc Hb Hadm; simpl.
  - split; [reflexivity | by exists s].
  - simpl in Hadm. apply andb_true_iff in Hadm as [Hadm Hrest].
    assert (Hnow : now < LLONG_MAX).
    { unfold admissible in Hadm. apply andb_true_iff in Hadm as [Hnow _].
      by apply Z.ltb_lt in Hnow. }
    rewrite (loopsExit_of_bounds now op s Hb Hadm). simpl.
    destruct (step_returns now op s Hr Hc Hnow) as [s1 Hstep]. rewrite Hstep.
    apply IH; [| | | exact Hrest].
    + by apply (step_inRange now op s).
    + by apply (step_ceiling now op s).
    + by apply (step_loopBounds now op s).
Qed.

Lemma newModel_loopBounds d : loopBoundsOk (newModel d).
Proof. split; [unfold INT_MAX; simpl; lia | intros d0; discriminate]. Qed.

(** X22.  No loop of any operation runs forever on a model that an
    admissible history can reach.  A history is admissible when its clock
    readings stay below the largest [qint64], its calls of [setCacheSize]
    leave room for the ceiling to grow by 10, its viewports end below
    [INT_MAX] and its documents have between 0 and [INT_MAX] pages.
    Starting from a newly constructed model whose default item ceiling is
    between 0 and [INT_MAX - 10], along such a history the counted loops over
    pages (in [updateViewportPriorities], [requestThumbnailRange] and
    [preloadVisibleRange]) always run to a bound below [INT_MAX]; a counted
    loop exits exactly there, having visited the pages [pagesFromTo] lists,
    and never exits with the bound [INT_MAX], which is why a viewport that
    ends at [INT_MAX] is not admissible.  No eviction loop runs forever:
    [setCacheSize], [setMemoryLimit], [cleanupCache] and
    [onThumbnailGenerated] come back.  The item ceiling stays between 0 and
    [INT_MAX - 10], the page keys, timestamps and counters stay in their
    machine ranges, and from the model reached the loops of every admissible
    operation exit as well.  (With the lock acquired as the conventions of
    the embedding take it, an operation whose loops exit returns.) *)
Theorem every_admissible_history_returns ops d :
  0 <= DEFAULT_CACHE_SIZE d <= INT_MAX - 10 ->
  forallb admissible ops = true ->
  loopsExitAlong ops (newModel d) = true
  /\ (forall first last,
        - 2 ^ 31 <= first <= INT_MAX ->
        if countedLoopExits last
        then exists fuel, countedLoop fuel first last = Some (pagesFromTo first last)
        else last = INT_MAX -> forall fuel, countedLoop fuel first last = None)
  /\ exists s',
       run ops (newModel d) = Some s'
       /\ 0 <= m_maxCacheSize s' <= INT_MAX - 10
       /\ storeInRange s' = true
       /\ loopBoundsOk s'
       /\ forall now op, admissible (now, op) = true ->
            loopsExit op s' = true /\ is_Some (step now op s').
Proof.
  intros Hd Hadm.
  destruct (run_returns ops (newModel d) (newModel_inRange d) Hd
              (newModel_loopBounds d) Hadm)
    as (Hloops & s' & Hrun & Hr & Hc & Hb).
  split; [exact Hloops |]. split.
  { intros first last Hfirst. destruct (countedLoopExits last) eqn:Hexit.
    - exists (Z.to_nat (last - first + 1)).
      apply countedLoop_exits; [lia | exact Hexit | lia].
    - intros -> fuel. by apply countedLoop_never_exits. }
  exists s'. split; [exact Hrun |]. split; [exact Hc |].
  split; [by apply inRange_store |]. split; [exact Hb |].
  intros now op Hop. split; [by apply (loopsExit_of_bounds now) |].
  apply step_returns; [exact Hr | exact Hc |].
  unfold admissible in Hop. apply andb_true_iff in Hop as [Hnow _].
  by apply Z.ltb_lt in Hnow.
Qed.

Lemma every_admissible_history_returns_witness :
  forallb admissible everyLoopHistory = true
  /\ admissible (0, OpSetViewportRange 0 INT_MAX 0) = false
  /\ loopsExitAlong everyLoopHistory (newModel sampleDefaults) = true
  /\ exists s',
       run everyLoopHistory (newModel sampleDefaults) = Some s'
       /\ 0 <= m_maxCacheSize s' <= INT_MAX - 10.
Proof.
  assert (Hadm : forallb admissible everyLoopHistory = true)
    by (vm_compute; reflexivity).
  assert (Hout : admissible (0, OpSetViewportRange 0 INT_MAX 0) = false)
    by (vm_compute; reflexivity).
  assert (Hd : 0 <= DEFAULT_CACHE_SIZE sampleDefaults <= INT_MAX - 10)
    by (unfold INT_MAX; simpl; lia).
  destruct (every_admissible_history_returns everyLoopHistory sampleDefaults Hd Hadm)
    as (Hloops & _ & s' & Hrun & Hc & _).
  exact (conj Hadm (conj Hout (conj Hloops (ex_intro _ s' (conj Hrun Hc))))).
Defined.


(** ** The further example models are reached *)

Lemma further_examples_are_reached :
  run hotOldestHistory (sampleModel 10) = Some hotOldest
  /\ run hotOldestThrashingHistory hotOldest = Some hotOldestThrashing
  /\ run oneReadyTwoLoadingHistory (sampleModel 10) = Some oneReadyTwoLoading
  /\ run queuedThenRequestedHistory (sampleModel 10) = Some queuedThenRequested
  /\ run fromConstructionHistory (newModel sampleDefaults) = Some oneReadyTwoLoading
  /\ is_Some (run everyLoopHistory (newModel sampleDefaults)).
Proof.
  repeat apply conj; try (vm_compute; reflexivity).
  eexists. vm_compute. reflexivity.
Qed.
